(** * nightshade_bridge: a JSON-RPC client for a local MCP server

    A shallow embedding of [src/ue5/nightshade_bridge.py].

    The module has one function that does the work, [call_tool], three
    helpers that build an argument dictionary and delegate to it, and a
    main block.  [call_tool] serialises a request envelope with
    [json.dumps], posts it with [urllib.request] and parses the answer with
    [json.loads].

    What is modelled, and how:
    - Python values are the inductive [pyval]; a [str] is its list of code
      points, [bytes] a list of [byte], an [int] a [Z].
    - [json.dumps], [json.loads], [str.encode] and [bytes.decode] are pure
      functions of the standard library of Python; they are written out
      here after CPython's [json] package and codec.
    - [urllib.request.Request], [urlopen], [response.read], the exit of the
      [with] block and [print] reach outside the program.  A program is a
      finite tree of such operations ([prog]); a [World] answers them, and
      [run] threads the world's state and records the operations made.
    - A [float] is kept abstract ([PyFloatOps]): its conversion from and to
      text is not described here.
    - Two limits of CPython show in what [json] raises: an [int] of more
      than 4300 digits is not converted to or from text ([ValueError]),
      and lists and dictionaries nested deeper than the interpreter's stack
      allows end in [RecursionError].  The first is a constant here, the
      second a parameter ([PyStack]).
    - A value is a finite tree: a list or dictionary that holds itself, on
      which [json.dumps] raises [ValueError], is not a [pyval]. *)

From Stdlib Require Import List NArith ZArith Lia Bool String Ascii.
From Stdlib Require Import Strings.Byte DecimalZ DecimalFacts.
Import ListNotations.

Local Open Scope N_scope.
Set Warnings "-register-all".

(** ** Strings and bytes *)

(** A Python [str]: the sequence of its code points. *)
Definition pystr := list N.

(** A Python [bytes] object. *)
Definition pybytes := list byte.

(** A string literal of the source (all of them are ASCII). *)
Definition lit (s : string) : pystr :=
  map N_of_ascii (list_ascii_of_string s).

Definition pystr_eqb (a b : pystr) : bool :=
  if list_eq_dec N.eq_dec a b then true else false.

(** [s.startswith(p)]: the rest of [s] after [p], when [p] is a prefix. *)
Fixpoint strip_prefix (p s : pystr) : option pystr :=
  match p, s with
  | [], _ => Some s
  | a :: p', b :: s' => if a =? b then strip_prefix p' s' else None
  | _ :: _, [] => None
  end.

(** [sep.join(chunks)]. *)
Fixpoint join (sep : pystr) (chunks : list pystr) : pystr :=
  match chunks with
  | [] => []
  | [c] => c
  | c :: rest => c ++ sep ++ join sep rest
  end.

(** ** Exceptions *)

Inductive exn : Type :=
| TypeError (msg : string)
| ValueError                 (* the message is not modelled *)
| RecursionError
| JSONDecodeError            (* message and position are not modelled *)
| UnicodeEncodeError
| UnicodeDecodeError
| Raised (type_name : string).  (* any other exception raised outside this
                                   module: URLError, HTTPError,
                                   TimeoutError, ... *)

(** The exceptions with which [json] meets a limit of the interpreter. *)
Definition limit_error (e : exn) : Prop := e = ValueError \/ e = RecursionError.

(** The outcome of an expression: a value, or an exception on its way up. *)
Inductive result (A : Type) : Type :=
| Ok (a : A)
| Raise (e : exn).
Arguments Ok {A} a.
Arguments Raise {A} e.

Definition rbind {A B} (r : result A) (k : A -> result B) : result B :=
  match r with
  | Ok a => k a
  | Raise e => Raise e
  end.

Declare Scope result_scope.
Delimit Scope result_scope with result.
Notation "x <- r ;; k" := (rbind r (fun x => k))
  (at level 61, r at next level, right associativity) : result_scope.

(** The results of [f] on the items of a list, in order, up to the first
    exception. *)
Definition map_result {A B} (f : A -> result B) : list A -> result (list B) :=
  fix each (l : list A) : result (list B) :=
    match l with
    | [] => Ok []
    | x :: r =>
        match f x with
        | Ok y =>
            match each r with
            | Ok ys => Ok (y :: ys)
            | Raise e => Raise e
            end
        | Raise e => Raise e
        end
    end.

(** A string of ASCII characters. *)
Definition ascii (s : pystr) : Prop := Forall (fun c => c < 0x80) s.

(** What a scanning function gives back: the value and the text left, a
    refusal ([JSONDecodeError]), another exception that ends the scan
    ([ValueError], [RecursionError]), or the recursion bound of this model
    reached (which [json_loads] never does, see [scan_once_fuel]). *)
Inductive scan (A : Type) : Type :=
| Parsed (a : A) (rest : pystr)
| Invalid
| Stopped (e : exn)
| OutOfFuel.
Arguments Parsed {A} a rest.
Arguments Invalid {A}.
Arguments Stopped {A} e.
Arguments OutOfFuel {A}.

Definition scan_map {A B} (f : A -> B) (r : scan A) : scan B :=
  match r with
  | Parsed a rest => Parsed (f a) rest
  | Invalid => Invalid
  | Stopped e => Stopped e
  | OutOfFuel => OutOfFuel
  end.

(** ** UTF-8 *)

Definition byte_of_N (n : N) : byte :=
  match Byte.of_N n with
  | Some b => b
  | None => x00
  end.

(** The UTF-8 encoding of one code point.  Python refuses the surrogates
    U+D800..U+DFFF ("surrogates not allowed"). *)
Definition utf8_encode_char (c : N) : option pybytes :=
  if c <? 0x80 then Some [byte_of_N c]
  else if c <? 0x800 then
    Some [byte_of_N (0xC0 + c / 64); byte_of_N (0x80 + c mod 64)]
  else if c <? 0x10000 then
    if (0xD800 <=? c) && (c <=? 0xDFFF) then None
    else Some [byte_of_N (0xE0 + c / 4096);
               byte_of_N (0x80 + (c / 64) mod 64);
               byte_of_N (0x80 + c mod 64)]
  else if c <? 0x110000 then
    Some [byte_of_N (0xF0 + c / 262144);
          byte_of_N (0x80 + (c / 4096) mod 64);
          byte_of_N (0x80 + (c / 64) mod 64);
          byte_of_N (0x80 + c mod 64)]
  else None.

(** [s.encode("utf-8")]. *)
Fixpoint encode_utf8 (s : pystr) : result pybytes :=
  match s with
  | [] => Ok []
  | c :: rest =>
      match utf8_encode_char c with
      | None => Raise UnicodeEncodeError
      | Some bs =>
          match encode_utf8 rest with
          | Ok out => Ok (bs ++ out)
          | Raise e => Raise e
          end
      end
  end.

Definition is_cont (b : N) : bool := (0x80 <=? b) && (b <=? 0xBF).
Definition in_range (lo hi b : N) : bool := (lo <=? b) && (b <=? hi).

(** [b.decode("utf-8")] on the values of the bytes: the strict decoder,
    which refuses overlong forms, surrogates, code points above U+10FFFF,
    stray continuation bytes and truncated sequences. *)
Fixpoint decode_utf8_N (bs : list N) : result pystr :=
  match bs with
  | [] => Ok []
  | b0 :: r0 =>
      if b0 <? 0x80 then
        match decode_utf8_N r0 with
        | Ok s => Ok (b0 :: s)
        | Raise e => Raise e
        end
      else if in_range 0xC2 0xDF b0 then
        match r0 with
        | b1 :: r1 =>
            if is_cont b1 then
              match decode_utf8_N r1 with
              | Ok s => Ok ((b0 - 0xC0) * 64 + (b1 - 0x80) :: s)
              | Raise e => Raise e
              end
            else Raise UnicodeDecodeError
        | _ => Raise UnicodeDecodeError
        end
      else if in_range 0xE0 0xEF b0 then
        match r0 with
        | b1 :: b2 :: r2 =>
            if in_range (if b0 =? 0xE0 then 0xA0 else 0x80)
                        (if b0 =? 0xED then 0x9F else 0xBF) b1
               && is_cont b2 then
              match decode_utf8_N r2 with
              | Ok s =>
                  Ok ((b0 - 0xE0) * 4096 + (b1 - 0x80) * 64 + (b2 - 0x80) :: s)
              | Raise e => Raise e
              end
            else Raise UnicodeDecodeError
        | _ => Raise UnicodeDecodeError
        end
      else if in_range 0xF0 0xF4 b0 then
        match r0 with
        | b1 :: b2 :: b3 :: r3 =>
            if in_range (if b0 =? 0xF0 then 0x90 else 0x80)
                        (if b0 =? 0xF4 then 0x8F else 0xBF) b1
               && is_cont b2 && is_cont b3 then
              match decode_utf8_N r3 with
              | Ok s =>
                  Ok ((b0 - 0xF0) * 262144 + (b1 - 0x80) * 4096
                      + (b2 - 0x80) * 64 + (b3 - 0x80) :: s)
              | Raise e => Raise e
              end
            else Raise UnicodeDecodeError
        | _ => Raise UnicodeDecodeError
        end
      else Raise UnicodeDecodeError
  end.

Definition decode_utf8 (b : pybytes) : result pystr :=
  decode_utf8_N (map Byte.to_N b).

(** ** The outside world *)

(** The arguments of [urllib.request.Request(url, data=, headers=, method=)],
    as the source passes them.  ([urllib] keeps a header under its
    capitalised name, [Content-type]; header names do not depend on
    case.) *)
Record Request : Type := mkRequest {
  full_url : pystr;
  data : pybytes;
  headers : list (pystr * pystr);
  method : pystr
}.

(** The response object that [urlopen] returns, named by a number. *)
Definition response := nat.

(** A program: a value, an exception, or an operation on the outside world
    and what follows its outcome.  [NewRequest] is the constructor of
    [Request], which refuses a URL it cannot read; [Urlopen], [Read] and
    [Exit] are [urlopen(request, timeout=)], [response.read()] and the
    [__exit__] of the response (it closes it and lets an exception
    through); [Print] is [print(line)]. *)
Inductive prog (A : Type) : Type :=
| Ret (a : A)
| Throw (e : exn)
| NewRequest (r : Request) (k : result unit -> prog A)
| Urlopen (r : Request) (timeout : Z) (k : result response -> prog A)
| Read (h : response) (k : result pybytes -> prog A)
| Exit (h : response) (k : prog A)
| Println (line : pystr) (k : prog A).
Arguments Ret {A} a.
Arguments Throw {A} e.
Arguments NewRequest {A} r k.
Arguments Urlopen {A} r timeout k.
Arguments Read {A} h k.
Arguments Exit {A} h k.
Arguments Println {A} line k.

Fixpoint bind {A B} (p : prog A) (f : A -> prog B) : prog B :=
  match p with
  | Ret a => f a
  | Throw e => Throw e
  | NewRequest r k => NewRequest r (fun x => bind (k x) f)
  | Urlopen r t k => Urlopen r t (fun x => bind (k x) f)
  | Read h k => Read h (fun x => bind (k x) f)
  | Exit h k => Exit h (bind k f)
  | Println l k => Println l (bind k f)
  end.

Declare Scope prog_scope.
Delimit Scope prog_scope with prog.
Notation "x <- p ;; k" := (bind p (fun x => k))
  (at level 61, p at next level, right associativity) : prog_scope.

(** A pure expression inside a program: its exception goes up. *)
Definition lift {A} (r : result A) : prog A :=
  match r with
  | Ok a => Ret a
  | Raise e => Throw e
  end.

Definition new_Request (url : pystr) (body : pybytes)
    (hdrs : list (pystr * pystr)) (meth : pystr) : prog Request :=
  let r := mkRequest url body hdrs meth in
  NewRequest r (fun x => match x with Ok _ => Ret r | Raise e => Throw e end).

Definition urlopen (r : Request) (timeout : Z) : prog response :=
  Urlopen r timeout lift.

Definition read (h : response) : prog pybytes := Read h lift.

Definition print (line : pystr) : prog unit := Println line (Ret tt).

(** [try: p finally: Exit h]: the response is closed on the way out,
    whichever way that is. *)
Fixpoint closing {A} (h : response) (p : prog A) : prog A :=
  match p with
  | Ret a => Exit h (Ret a)
  | Throw e => Exit h (Throw e)
  | NewRequest r k => NewRequest r (fun x => closing h (k x))
  | Urlopen r t k => Urlopen r t (fun x => closing h (k x))
  | Read h' k => Read h' (fun x => closing h (k x))
  | Exit h' k => Exit h' (closing h k)
  | Println l k => Println l (closing h k)
  end.

(** [with cm as response: body]. *)
Definition with_ {A} (cm : prog response) (body : response -> prog A) : prog A :=
  bind cm (fun h => closing h (body h)).

(** What a run leaves behind, in order. *)
Inductive event : Type :=
| EvUrlopen (r : Request) (timeout : Z)
| EvRead (h : response)
| EvExit (h : response)
| EvPrint (line : pystr).

(** Whatever is outside the program: the URLs that [Request] accepts, and
    a server and a terminal with a state of their own. *)
Record World : Type := mkWorld {
  wstate : Type;
  on_request : Request -> result unit;
  on_urlopen : Request -> Z -> wstate -> result response * wstate;
  on_read : response -> wstate -> result pybytes * wstate;
  on_exit : response -> wstate -> wstate;
  on_print : pystr -> wstate -> wstate
}.

(** The outcome of a run, the operations it made and the state it left. *)
Record outcome (A S : Type) : Type := mkOutcome {
  value : result A;
  trace : list event;
  final : S
}.
Arguments mkOutcome {A S} value trace final.
Arguments value {A S} o.
Arguments trace {A S} o.
Arguments final {A S} o.

Definition after {A S} (e : event) (o : outcome A S) : outcome A S :=
  mkOutcome (value o) (e :: trace o) (final o).

Fixpoint run {A} (w : World) (p : prog A) (st : wstate w)
  : outcome A (wstate w) :=
  match p with
  | Ret a => mkOutcome (Ok a) [] st
  | Throw e => mkOutcome (Raise e) [] st
  | NewRequest r k => run w (k (on_request w r)) st
  | Urlopen r t k =>
      let (x, st') := on_urlopen w r t st in
      after (EvUrlopen r t) (run w (k x) st')
  | Read h k =>
      let (x, st') := on_read w h st in
      after (EvRead h) (run w (k x) st')
  | Exit h k => after (EvExit h) (run w k (on_exit w h st))
  | Println l k => after (EvPrint l) (run w k (on_print w l st))
  end.

(** The calls of [urlopen] among the operations of a run, each with the
    [Request] and the timeout it was given.  These are calls of the
    program, not HTTP requests on the network: what one call of [urlopen]
    sends is the business of [urllib] (none when the connection fails, one,
    or one more for each redirect it follows), and so of the [World]. *)
Definition is_urlopen (e : event) : bool :=
  match e with
  | EvUrlopen _ _ => true
  | _ => false
  end.

Definition urlopen_calls (tr : list event) : list event := filter is_urlopen tr.

(** ** Python values *)

(** [float] is left abstract: the type, [float(text)] on the number
    literals and constants the JSON scanner hands over, and the text that
    [json.encoder] writes for a float ([repr], or [NaN], [Infinity],
    [-Infinity]), which is ASCII. *)
Class PyFloatOps : Type := {
  pyfloat : Type;
  float_of_text : pystr -> pyfloat;
  floatstr : pyfloat -> pystr;
  floatstr_ascii : forall f, Forall (fun c => c < 0x80) (floatstr f)
}.

(** The room on the interpreter's stack where the program calls [json]:
    the number of lists and dictionaries, one inside the other, that
    [json.dumps] and [json.loads] go into before [RecursionError] is
    raised.  It is what the recursion limit ([sys.getrecursionlimit()], a
    thousand by default) leaves at the point of the call, about 990 when
    the module is run as a script.  The program is not called at the very
    end of the stack: there is room for the four levels of the payload of
    a helper. *)
Class PyStack : Type := {
  stack_room : nat;
  stack_room_payload : (4 <= stack_room)%nat
}.

Section Model.

Context {F : PyFloatOps} {K : PyStack}.

Inductive pyval : Type :=
| PyNone
| PyBool (b : bool)
| PyInt (z : Z)
| PyFloat (f : pyfloat)
| PyStr (s : pystr)
| PyList (items : list pyval)
| PyTuple (items : list pyval)
| PyDict (items : list (pyval * pyval))   (* in insertion order *)
| PyObject (type_name : string).          (* a value of any other type *)

Definition type_name (o : pyval) : string :=
  match o with
  | PyNone => "NoneType"
  | PyBool _ => "bool"
  | PyInt _ => "int"
  | PyFloat _ => "float"
  | PyStr _ => "str"
  | PyList _ => "list"
  | PyTuple _ => "tuple"
  | PyDict _ => "dict"
  | PyObject n => n
  end.

(** [d[key]] for a string key, on the pairs of a dictionary. *)
Fixpoint assoc_get (items : list (pyval * pyval)) (key : pystr) : option pyval :=
  match items with
  | [] => None
  | (PyStr k, v) :: rest => if pystr_eqb k key then Some v else assoc_get rest key
  | _ :: rest => assoc_get rest key
  end.

Definition dict_get (d : pyval) (key : pystr) : option pyval :=
  match d with
  | PyDict items => assoc_get items key
  | _ => None
  end.

(** ** json.dumps *)

Fixpoint uint_chars (d : Decimal.uint) : pystr :=
  match d with
  | Decimal.Nil => []
  | Decimal.D0 d' => 48 :: uint_chars d'
  | Decimal.D1 d' => 49 :: uint_chars d'
  | Decimal.D2 d' => 50 :: uint_chars d'
  | Decimal.D3 d' => 51 :: uint_chars d'
  | Decimal.D4 d' => 52 :: uint_chars d'
  | Decimal.D5 d' => 53 :: uint_chars d'
  | Decimal.D6 d' => 54 :: uint_chars d'
  | Decimal.D7 d' => 55 :: uint_chars d'
  | Decimal.D8 d' => 56 :: uint_chars d'
  | Decimal.D9 d' => 57 :: uint_chars d'
  end.

(** The decimal text of an [int]. *)
Definition int_repr (z : Z) : pystr :=
  match Z.to_int z with
  | Decimal.Pos d => uint_chars d
  | Decimal.Neg d => 45 :: uint_chars d
  end.

(** [sys.int_info.default_max_str_digits]: an [int] of more digits is not
    converted to text, nor text of more digits to an [int].  The program
    leaves the limit as it is. *)
Definition int_max_str_digits : nat := 4300.

(** The digits of a decimal text, its sign apart. *)
Definition digits (s : pystr) : pystr :=
  match s with
  | c :: r => if c =? 45 then r else s
  | [] => []
  end.

Definition within_digits (s : pystr) : bool :=
  (List.length (digits s) <=? int_max_str_digits)%nat.

(** [int.__repr__]. *)
Definition int_str (z : Z) : result pystr :=
  if within_digits (int_repr z) then Ok (int_repr z) else Raise ValueError.

Definition hex_digit (n : N) : N := if n <? 10 then 48 + n else 87 + n.

(** ['\\u{0:04x}'.format(n)]. *)
Definition u_escape (n : N) : pystr :=
  [92; 117; hex_digit ((n / 4096) mod 16); hex_digit ((n / 256) mod 16);
   hex_digit ((n / 16) mod 16); hex_digit (n mod 16)].

(** The replacement of one character in [py_encode_basestring_ascii]:
    the characters from space to [~] stand for themselves, the quote and
    the backslash apart. *)
Definition escape_char (c : N) : pystr :=
  if c =? 34 then [92; 34]
  else if c =? 92 then [92; 92]
  else if c =? 10 then [92; 110]
  else if c =? 13 then [92; 114]
  else if c =? 9 then [92; 116]
  else if c =? 12 then [92; 102]
  else if c =? 8 then [92; 98]
  else if (0x20 <=? c) && (c <=? 0x7E) then [c]
  else if c <? 0x10000 then u_escape c
  else
    let n := c - 0x10000 in
    let s1 := N.lor 0xD800 (N.land (N.shiftr n 10) 0x3FF) in
    let s2 := N.lor 0xDC00 (N.land n 0x3FF) in
    u_escape s1 ++ u_escape s2.

Definition encode_basestring_ascii (s : pystr) : pystr :=
  34 :: flat_map escape_char s ++ [34].

(** The text of a dictionary key; [skipkeys] is false. *)
Definition key_text (key : pyval) : result pystr :=
  match key with
  | PyStr s => Ok s
  | PyFloat f => Ok (floatstr f)
  | PyBool true => Ok (lit "true")
  | PyBool false => Ok (lit "false")
  | PyNone => Ok (lit "null")
  | PyInt z => int_str z
  | _ => Raise (TypeError ("keys must be str, int, float, bool or None, not "
                           ++ type_name key))
  end.

Definition newline_indent (indent : option nat) (level : nat) : pystr :=
  match indent with
  | None => []
  | Some n => 10 :: repeat 32 (n * level)%nat
  end.

Definition item_separator (indent : option nat) : pystr :=
  match indent with
  | None => lit ", "
  | Some _ => lit ","
  end.

Local Open Scope result_scope.

(** A container on the page: the bracket, the items one after the other,
    the closing bracket; with an [indent], each item on a line of its
    own. *)
Definition container (indent : option nat) (level : nat)
    (opening closing : pystr) (chunks : list pystr) : pystr :=
  opening ++ newline_indent indent (S level)
  ++ join (item_separator indent ++ newline_indent indent (S level)) chunks
  ++ newline_indent indent level ++ closing.

(** [JSONEncoder(indent=indent).iterencode(o)], joined; [level] is the
    current indentation level, and [room] the number of lists and
    dictionaries, one inside the other, that the stack still allows: the
    encoder enters each of them by a recursive call, an empty one as
    well. *)
Fixpoint iterencode (indent : option nat) (room level : nat) (o : pyval)
  {struct o} : result pystr :=
  match o with
  | PyStr s => Ok (encode_basestring_ascii s)
  | PyNone => Ok (lit "null")
  | PyBool true => Ok (lit "true")
  | PyBool false => Ok (lit "false")
  | PyInt z => int_str z
  | PyFloat f => Ok (floatstr f)
  | PyList items | PyTuple items =>
      match room with
      | O => Raise RecursionError
      | S room' =>
          match items with
          | [] => Ok (lit "[]")
          | _ =>
              chunks <- map_result (iterencode indent room' (S level)) items ;;
              Ok (container indent level (lit "[") (lit "]") chunks)
          end
      end
  | PyDict items =>
      match room with
      | O => Raise RecursionError
      | S room' =>
          match items with
          | [] => Ok (lit "{}")
          | _ =>
              chunks <- map_result
                          (fun kv : pyval * pyval =>
                             let (k, v) := kv in
                             kt <- key_text k ;;
                             c <- iterencode indent room' (S level) v ;;
                             Ok (encode_basestring_ascii kt ++ lit ": " ++ c))
                          items ;;
              Ok (container indent level (lit "{") (lit "}") chunks)
          end
      end
  | PyObject n =>
      Raise (TypeError ("Object of type " ++ n ++ " is not JSON serializable"))
  end.

(** [json.dumps(obj, indent=indent)]; [json.dumps(obj)] is [json_dumps None obj]. *)
Definition json_dumps (indent : option nat) (obj : pyval) : result pystr :=
  iterencode indent stack_room 0 obj.

(** ** json.loads *)

Definition is_ws (c : N) : bool :=
  (c =? 32) || (c =? 9) || (c =? 10) || (c =? 13).

(** [WHITESPACE.match(s, end).end()]. *)
Fixpoint skip_ws (s : pystr) : pystr :=
  match s with
  | c :: r => if is_ws c then skip_ws r else s
  | [] => []
  end.

Definition is_digit (c : N) : bool := in_range 48 57 c.

Definition hex_value (c : N) : option N :=
  if in_range 48 57 c then Some (c - 48)
  else if in_range 97 102 c then Some (c - 87)
  else if in_range 65 70 c then Some (c - 55)
  else None.

(** The four hexadecimal digits after [\u]. *)
Definition decode_uXXXX (s : pystr) : option (N * pystr) :=
  match s with
  | a :: b :: c :: d :: r =>
      match hex_value a, hex_value b, hex_value c, hex_value d with
      | Some x3, Some x2, Some x1, Some x0 =>
          Some (x3 * 4096 + x2 * 256 + x1 * 16 + x0, r)
      | _, _, _, _ => None
      end
  | _ => None
  end.

(** A [\u] escape, [s] being the text after the [u]: a high surrogate
    followed by the escape of a low one is one character. *)
Definition scan_u_escape (s : pystr) : option (N * pystr) :=
  match decode_uXXXX s with
  | None => None
  | Some (uni, r) =>
      if in_range 0xD800 0xDBFF uni then
        match r with
        | a :: b :: r' =>
            if (a =? 92) && (b =? 117) then
              match decode_uXXXX r' with
              | None => None
              | Some (uni2, r'') =>
                  if in_range 0xDC00 0xDFFF uni2 then
                    Some (0x10000
                          + N.lor (N.shiftl (uni - 0xD800) 10) (uni2 - 0xDC00),
                          r'')
                  else Some (uni, r)
              end
            else Some (uni, r)
        | _ => Some (uni, r)
        end
      else Some (uni, r)
  end.

(** The characters of [BACKSLASH]. *)
Definition backslash (c : N) : option N :=
  if c =? 34 then Some 34
  else if c =? 92 then Some 92
  else if c =? 47 then Some 47
  else if c =? 98 then Some 8
  else if c =? 102 then Some 12
  else if c =? 110 then Some 10
  else if c =? 114 then Some 13
  else if c =? 116 then Some 9
  else None.

(** [scanstring(s, end, strict=True)], [s] being the text after the
    opening quote. *)
Fixpoint scanstring (fuel : nat) (s : pystr) : scan pystr :=
  match fuel with
  | O => OutOfFuel
  | S n =>
      match s with
      | [] => Invalid
      | c :: r =>
          if c =? 34 then Parsed [] r
          else if c =? 92 then
            match r with
            | [] => Invalid
            | e :: r1 =>
                if e =? 117 then
                  match scan_u_escape r1 with
                  | None => Invalid
                  | Some (ch, r2) => scan_map (cons ch) (scanstring n r2)
                  end
                else
                  match backslash e with
                  | None => Invalid
                  | Some ch => scan_map (cons ch) (scanstring n r1)
                  end
            end
          else if c <? 0x20 then Invalid
          else scan_map (cons c) (scanstring n r)
      end
  end.

Fixpoint take_digits (s : pystr) : pystr * pystr :=
  match s with
  | c :: r =>
      if is_digit c then let (ds, r') := take_digits r in (c :: ds, r')
      else ([], s)
  | [] => ([], [])
  end.

(** The three groups of [NUMBER_RE].  The integer part: an optional minus
    sign, then either a zero or a digit from 1 to 9 and any digits; the
    fraction, optional: a point and one digit or more; the exponent,
    optional: [e] or [E], an optional sign and one digit or more. *)
Definition match_integer (s : pystr) : option (pystr * pystr) :=
  let (sign, s1) :=
    match s with
    | c :: r => if c =? 45 then ([45], r) else ([], s)
    | [] => ([], s)
    end in
  match s1 with
  | c :: r =>
      if c =? 48 then Some (sign ++ [48], r)
      else if in_range 49 57 c then
        let (ds, r') := take_digits r in Some (sign ++ c :: ds, r')
      else None
  | [] => None
  end.

Definition match_frac (s : pystr) : pystr * pystr :=
  match s with
  | c :: r =>
      if c =? 46 then
        match take_digits r with
        | ([], _) => ([], s)
        | (ds, r') => (46 :: ds, r')
        end
      else ([], s)
  | [] => ([], s)
  end.

Definition match_exp (s : pystr) : pystr * pystr :=
  match s with
  | c :: r =>
      if (c =? 101) || (c =? 69) then
        let (sign, r1) :=
          match r with
          | d :: r' => if (d =? 45) || (d =? 43) then ([d], r') else ([], r)
          | [] => ([], r)
          end in
        match take_digits r1 with
        | ([], _) => ([], s)
        | (ds, r2) => (c :: sign ++ ds, r2)
        end
      else ([], s)
  | [] => ([], s)
  end.

Fixpoint uint_of_chars (s : pystr) : Decimal.uint :=
  match s with
  | [] => Decimal.Nil
  | c :: r =>
      let d := uint_of_chars r in
      if c =? 48 then Decimal.D0 d
      else if c =? 49 then Decimal.D1 d
      else if c =? 50 then Decimal.D2 d
      else if c =? 51 then Decimal.D3 d
      else if c =? 52 then Decimal.D4 d
      else if c =? 53 then Decimal.D5 d
      else if c =? 54 then Decimal.D6 d
      else if c =? 55 then Decimal.D7 d
      else if c =? 56 then Decimal.D8 d
      else Decimal.D9 d
  end.

(** The number that a decimal text stands for. *)
Definition int_of_text (s : pystr) : Z :=
  match s with
  | c :: r =>
      if c =? 45 then Z.of_int (Decimal.Neg (uint_of_chars r))
      else Z.of_int (Decimal.Pos (uint_of_chars s))
  | [] => 0%Z
  end.

(** [int(text)] on the first group of [NUMBER_RE]. *)
Definition int_of_str (s : pystr) : result Z :=
  if within_digits s then Ok (int_of_text s) else Raise ValueError.

(** A number at the head of the text: the value or the exception of the
    conversion, and the text after the number.  ([float(text)] has no
    limit of digits.) *)
Definition match_number (s : pystr) : option (result pyval * pystr) :=
  match match_integer s with
  | None => None
  | Some (integer, r) =>
      let (frac, r1) := match_frac r in
      let (exp, r2) := match_exp r1 in
      match frac, exp with
      | [], [] =>
          Some (match int_of_str integer with
                | Ok z => Ok (PyInt z)
                | Raise e => Raise e
                end, r2)
      | _, _ => Some (Ok (PyFloat (float_of_text (integer ++ frac ++ exp))), r2)
      end
  end.

(** The items of an array, [s] standing at the first one. *)
Fixpoint array_items (scan_value : pystr -> scan pyval) (fuel : nat) (s : pystr)
  : scan (list pyval) :=
  match fuel with
  | O => OutOfFuel
  | S n =>
      match scan_value s with
      | Parsed v r =>
          match skip_ws r with
          | c :: r' =>
              if c =? 93 then Parsed [v] r'
              else if c =? 44 then
                scan_map (cons v) (array_items scan_value n (skip_ws r'))
              else Invalid
          | [] => Invalid
          end
      | Invalid => Invalid
      | Stopped e => Stopped e
      | OutOfFuel => OutOfFuel
      end
  end.

(** [JSONArray], [s] being the text after the bracket. *)
Definition JSONArray (scan_value : pystr -> scan pyval) (fuel : nat) (s : pystr)
  : scan pyval :=
  match skip_ws s with
  | c :: r =>
      if c =? 93 then Parsed (PyList []) r
      else scan_map PyList (array_items scan_value fuel (c :: r))
  | [] => Invalid
  end.

(** The pairs of an object, [s] being the text after the opening quote of
    a key. *)
Fixpoint object_pairs (scan_value : pystr -> scan pyval) (fuel : nat) (s : pystr)
  : scan (list (pystr * pyval)) :=
  match fuel with
  | O => OutOfFuel
  | S n =>
      match scanstring (S (List.length s)) s with
      | Parsed key r =>
          match skip_ws r with
          | c :: r1 =>
              if c =? 58 then
                match scan_value (skip_ws r1) with
                | Parsed v r2 =>
                    match skip_ws r2 with
                    | d :: r3 =>
                        if d =? 125 then Parsed [(key, v)] r3
                        else if d =? 44 then
                          match skip_ws r3 with
                          | q :: r4 =>
                              if q =? 34 then
                                scan_map (cons (key, v))
                                         (object_pairs scan_value n r4)
                              else Invalid
                          | [] => Invalid
                          end
                        else Invalid
                    | [] => Invalid
                    end
                | Invalid => Invalid
                | Stopped e => Stopped e
                | OutOfFuel => OutOfFuel
                end
              else Invalid
          | [] => Invalid
          end
      | Invalid => Invalid
      | Stopped e => Stopped e
      | OutOfFuel => OutOfFuel
      end
  end.

(** [d[key] = v] on the pairs of a dictionary whose keys are strings: a
    key already there keeps its place. *)
Fixpoint dict_set (items : list (pyval * pyval)) (key : pystr) (v : pyval)
  : list (pyval * pyval) :=
  match items with
  | [] => [(PyStr key, v)]
  | (PyStr k, v') :: rest =>
      if pystr_eqb k key then (PyStr k, v) :: rest
      else (PyStr k, v') :: dict_set rest key v
  | kv :: rest => kv :: dict_set rest key v
  end.

(** [dict(pairs)]. *)
Definition dict_of_pairs (pairs : list (pystr * pyval)) : pyval :=
  PyDict (fold_left (fun d kv => dict_set d (fst kv) (snd kv)) pairs []).

(** [JSONObject], [s] being the text after the brace. *)
Definition JSONObject (scan_value : pystr -> scan pyval) (fuel : nat) (s : pystr)
  : scan pyval :=
  match skip_ws s with
  | c :: r =>
      if c =? 125 then Parsed (PyDict []) r
      else if c =? 34 then
        scan_map dict_of_pairs (object_pairs scan_value fuel r)
      else Invalid
  | [] => Invalid
  end.

(** The values of [scan_once] that are neither a string nor a container:
    [null], [true], [false], a number, and the three constants that are
    not JSON. *)
Definition scan_atom (s : pystr) : scan pyval :=
  match strip_prefix (lit "null") s with
  | Some r => Parsed PyNone r
  | None =>
  match strip_prefix (lit "true") s with
  | Some r => Parsed (PyBool true) r
  | None =>
  match strip_prefix (lit "false") s with
  | Some r => Parsed (PyBool false) r
  | None =>
  match match_number s with
  | Some (Ok v, r) => Parsed v r
  | Some (Raise e, _) => Stopped e
  | None =>
  match strip_prefix (lit "NaN") s with
  | Some r => Parsed (PyFloat (float_of_text (lit "nan"))) r
  | None =>
  match strip_prefix (lit "Infinity") s with
  | Some r => Parsed (PyFloat (float_of_text (lit "inf"))) r
  | None =>
  match strip_prefix (lit "-Infinity") s with
  | Some r => Parsed (PyFloat (float_of_text (lit "-inf"))) r
  | None => Invalid
  end end end end end end end.

(** An object or an array is scanned by a recursive call, which the stack
    allows or not. *)
Definition enter (room : nat) (inside : nat -> scan pyval) : scan pyval :=
  match room with
  | O => Stopped RecursionError
  | S room' => inside room'
  end.

(** [scan_once(string, idx)], [s] being the text from [idx] on; [room] is
    the number of objects and arrays, one inside the other, that the stack
    still allows. *)
Fixpoint scan_once (fuel room : nat) (s : pystr) {struct fuel} : scan pyval :=
  match fuel with
  | O => OutOfFuel
  | S n =>
      match s with
      | [] => Invalid
      | c :: r =>
          if c =? 34 then scan_map PyStr (scanstring (S (List.length r)) r)
          else if c =? 123 then
            enter room (fun room' => JSONObject (scan_once n room') n r)
          else if c =? 91 then
            enter room (fun room' => JSONArray (scan_once n room') n r)
          else scan_atom s
      end
  end.

(** [json.loads(s)] for a [str]: a leading byte order mark is refused,
    white space may surround the value, and nothing else may follow it.
    The [ValueError] of an integer too long and the [RecursionError] of a
    document too deep go up as they are. *)
Definition json_loads (s : pystr) : result pyval :=
  match strip_prefix [0xFEFF] s with
  | Some _ => Raise JSONDecodeError
  | None =>
      match scan_once (S (List.length s)) stack_room (skip_ws s) with
      | Parsed v r =>
          match skip_ws r with
          | [] => Ok v
          | _ :: _ => Raise JSONDecodeError
          end
      | Stopped e => Raise e
      | Invalid | OutOfFuel => Raise JSONDecodeError
      end
  end.

(** ** The module [nightshade_bridge] *)

Local Open Scope prog_scope.

Definition MCP_ENDPOINT : pystr := lit "http://localhost:8787/mcp".

(** The [payload] of [call_tool]. *)
Definition payload (tool_name arguments : pyval) : pyval :=
  PyDict
    [(PyStr (lit "jsonrpc"), PyStr (lit "2.0"));
     (PyStr (lit "id"), PyStr (lit "nightshade-ue5"));
     (PyStr (lit "method"), PyStr (lit "tools/call"));
     (PyStr (lit "params"),
      PyDict [(PyStr (lit "name"), tool_name);
              (PyStr (lit "arguments"), arguments)])].

(** A parameter with a default value is an [option]: [None] when the
    caller leaves it out. *)
Definition default {A} (d : A) (given : option A) : A :=
  match given with
  | Some a => a
  | None => d
  end.

Definition call_tool (tool_name arguments : pyval) (endpoint : option pystr)
  : prog pyval :=
  let endpoint := default MCP_ENDPOINT endpoint in
  text <- lift (json_dumps None (payload tool_name arguments)) ;;
  data <- lift (encode_utf8 text) ;;
  request <- new_Request endpoint data
               [(lit "Content-Type", lit "application/json")] (lit "POST") ;;
  with_ (urlopen request 30) (fun response =>
    body <- read response ;;
    text <- lift (decode_utf8 body) ;;
    lift (json_loads text)).

Definition run_prefab_audit (target : option pyval) : prog pyval :=
  let target := default (PyStr (lit "WeaponAssets")) target in
  let arguments :=
    PyDict
      [(PyStr (lit "command"), PyStr (lit "prefab_audit"));
       (PyStr (lit "target"), target);
       (PyStr (lit "checks"),
        PyList [PyStr (lit "naming"); PyStr (lit "collision");
                PyStr (lit "performance")])] in
  call_tool (PyStr (lit "prefab_audit")) arguments None.

Definition run_scene_refactor (scene dry_run : option pyval) : prog pyval :=
  let scene := default (PyStr (lit "Arena")) scene in
  let dry_run := default (PyBool true) dry_run in
  let arguments :=
    PyDict
      [(PyStr (lit "command"), PyStr (lit "scene_refactor"));
       (PyStr (lit "scene"), scene);
       (PyStr (lit "steps"),
        PyList [PyStr (lit "remove_empty_groups");
                PyStr (lit "rebuild_navigation")]);
       (PyStr (lit "dry_run"), dry_run)] in
  call_tool (PyStr (lit "scene_refactor")) arguments None.

Definition run_bulk_edit (target : option pyval) : prog pyval :=
  let target := default (PyStr (lit "WeaponAssets")) target in
  let arguments :=
    PyDict
      [(PyStr (lit "command"), PyStr (lit "bulk_edit_assets"));
       (PyStr (lit "target"), target);
       (PyStr (lit "modifications"),
        PyDict [(PyStr (lit "damage"), PyInt 42);
                (PyStr (lit "range"), PyInt 120)]);
       (PyStr (lit "dry_run"), PyBool true)] in
  call_tool (PyStr (lit "bulk_edit_assets")) arguments None.

(** The block under [if __name__ == "__main__":]. *)
Definition main : prog unit :=
  _ <- print (lit "Running prefab audit...") ;;
  answer <- run_prefab_audit None ;;
  text <- lift (json_dumps (Some 2%nat) answer) ;;
  print text.

(** The module executed under the name [name] with the command line
    [argv], which it never reads. *)
Definition module_body (name : pystr) (argv : list pystr) : prog unit :=
  if pystr_eqb name (lit "__main__") then main else Ret tt.

(** ** The course of a call *)

(** The run of [p] and then [f]: the run of [p], and when it gives a value
    the run of [f] on it from the state that [p] left. *)
Definition then_run {A B} (w : World) (o : outcome A (wstate w))
    (f : A -> prog B) : outcome B (wstate w) :=
  match value o with
  | Ok a =>
      let o' := run w (f a) (final o) in
      mkOutcome (value o') (trace o ++ trace o') (final o')
  | Raise e => mkOutcome (Raise e) (trace o) (final o)
  end.

(** The request that [call_tool] builds from the bytes of its payload. *)
Definition request_of (endpoint : option pystr) (body : pybytes) : Request :=
  mkRequest (default MCP_ENDPOINT endpoint) body
            [(lit "Content-Type", lit "application/json")] (lit "POST").

(** [json.loads(body.decode("utf-8"))]. *)
Definition parse_body (body : pybytes) : result pyval :=
  (text <- decode_utf8 body ;; json_loads text)%result.

(** [json.dumps(payload).encode("utf-8")]. *)
Definition request_body (tool_name arguments : pyval) : result pybytes :=
  (text <- json_dumps None (payload tool_name arguments) ;; encode_utf8 text)%result.

(** The whole course of a call, step by step. *)
Definition call_course (w : World) (tool_name arguments : pyval)
    (endpoint : option pystr) (st : wstate w) : outcome pyval (wstate w) :=
  match request_body tool_name arguments with
  | Raise e => mkOutcome (Raise e) [] st
  | Ok body =>
      let r := request_of endpoint body in
      match on_request w r with
      | Raise e => mkOutcome (Raise e) [] st
      | Ok _ =>
          match on_urlopen w r 30 st with
          | (Raise e, st1) => mkOutcome (Raise e) [EvUrlopen r 30] st1
          | (Ok h, st1) =>
              match on_read w h st1 with
              | (Raise e, st2) =>
                  mkOutcome (Raise e) [EvUrlopen r 30; EvRead h; EvExit h]
                            (on_exit w h st2)
              | (Ok answer, st2) =>
                  mkOutcome (parse_body answer)
                            [EvUrlopen r 30; EvRead h; EvExit h]
                            (on_exit w h st2)
              end
          end
      end
  end.

(** ** Shapes of values *)

(** The code points that are characters: no surrogate, nothing above
    U+10FFFF. *)
Definition scalar (c : N) : bool :=
  (c <? 0xD800) || ((0xDFFF <? c) && (c <? 0x110000)).

Definition text_ok (s : pystr) : bool := forallb scalar s.

Fixpoint str_keys (items : list (pyval * pyval)) : option (list pystr) :=
  match items with
  | [] => Some []
  | (PyStr k, _) :: rest =>
      match str_keys rest with
      | Some ks => Some (k :: ks)
      | None => None
      end
  | _ :: _ => None
  end.

Fixpoint distinct (ks : list pystr) : bool :=
  match ks with
  | [] => true
  | k :: rest => negb (existsb (pystr_eqb k) rest) && distinct rest
  end.

(** A JSON document without numbers that are not integers: [None], a
    [bool], an [int], a [str] of characters, a list of such values, or a
    dictionary of such values under distinct keys that are [str]s of
    characters. *)
Fixpoint json_value (v : pyval) : bool :=
  match v with
  | PyNone | PyBool _ | PyInt _ => true
  | PyStr s => text_ok s
  | PyList items => forallb json_value items
  | PyDict items =>
      match str_keys items with
      | Some ks => forallb text_ok ks && distinct ks
      | None => false
      end
      && forallb (fun kv : pyval * pyval => let (_, x) := kv in json_value x)
                 items
  | PyFloat _ | PyTuple _ | PyObject _ => false
  end.

(** The text after a value in what [json.dumps] writes without [indent]:
    nothing, or a comma, a closing bracket or a closing brace. *)
Definition closes (rest : pystr) : bool :=
  match rest with
  | [] => true
  | c :: _ => (c =? 44) || (c =? 93) || (c =? 125)
  end.

(** The digits that [int.__repr__] writes: a lone zero, or digits of which
    the first is not zero. *)
Definition written (d : Decimal.uint) : Prop :=
  match d with
  | Decimal.Nil => False
  | Decimal.D0 Decimal.Nil => True
  | Decimal.D0 _ => False
  | _ => True
  end.

(** A pair of a dictionary whose key is a string. *)
Definition to_item (p : pystr * pyval) : pyval * pyval := (PyStr (fst p), snd p).

(** What [json.dumps] writes for a pair, from the key and the text of the
    value. *)
Definition pair_chunk (p : pystr * pystr) : pystr :=
  encode_basestring_ascii (fst p) ++ lit ": " ++ snd p.

(** The text of the pairs of an object from the first key on, its opening
    quote apart, up to the closing brace and the [rest]. *)
Fixpoint pairs_text (l : list (pystr * pystr)) (rest : pystr) : pystr :=
  match l with
  | [] => 125 :: rest
  | (k, cv) :: l' =>
      flat_map escape_char k ++ 34 :: 58 :: 32 :: cv
      ++ match l' with
         | [] => 125 :: rest
         | _ :: _ => 44 :: 32 :: 34 :: pairs_text l' rest
         end
  end.

(** The first character of a value as [json.dumps] writes it: not white
    space, and not a closing bracket. *)
Definition opens (text : pystr) : Prop :=
  exists c r, text = c :: r /\ is_ws c = false /\ c <> 93.

(** The property that the induction carries for a value: it is read back,
    whatever closes it. *)
Definition read_back (v : pyval) : Prop :=
  forall room level text rest fuel,
    json_value v = true ->
    iterencode None room level v = Ok text ->
    closes rest = true ->
    (List.length (text ++ rest) < fuel)%nat ->
    scan_once fuel room (text ++ rest) = Parsed v rest.

(** A scanning function consumes text ([progress]), and does not meet the
    recursion bound of this model on a text shorter than [bound]
    ([fuelled]). *)
Definition progress {A} (f : pystr -> scan A) : Prop :=
  forall s a r, f s = Parsed a r -> (List.length r < List.length s)%nat.

Definition fuelled {A} (f : pystr -> scan A) (bound : nat) : Prop :=
  forall s, (List.length s < bound)%nat -> f s <> OutOfFuel.

(** The keys that [json.dumps] writes. *)
Definition key_ok (k : pyval) : bool :=
  match k with
  | PyStr _ | PyFloat _ | PyBool _ | PyNone | PyInt _ => true
  | _ => false
  end.

(** The values that [json.dumps] writes: no value of another type
    anywhere inside, and no key of a dictionary that is a list, a tuple, a
    dictionary or of another type. *)
Fixpoint serializable (v : pyval) : bool :=
  match v with
  | PyNone | PyBool _ | PyInt _ | PyFloat _ | PyStr _ => true
  | PyList items | PyTuple items => forallb serializable items
  | PyDict items =>
      forallb (fun kv : pyval * pyval =>
                 let (k, x) := kv in key_ok k && serializable x) items
  | PyObject _ => false
  end.

(** A pair that [json.dumps] writes. *)
Definition item_ok (kv : pyval * pyval) : bool :=
  let (k, x) := kv in key_ok k && serializable x.

(** An [int] that has a text: at most [int_max_str_digits] digits. *)
Definition short (z : Z) : bool := within_digits (int_repr z).

Definition key_fits (k : pyval) : bool :=
  match k with
  | PyInt z => short z
  | _ => true
  end.

(** A value within the limits, [room] being what the stack allows: no
    [int] too long, as a value or as a key, and at most [room] lists,
    tuples and dictionaries one inside the other. *)
Fixpoint fits (room : nat) (v : pyval) {struct v} : bool :=
  match v with
  | PyInt z => short z
  | PyList items | PyTuple items =>
      match room with
      | O => false
      | S room' => forallb (fits room') items
      end
  | PyDict items =>
      match room with
      | O => false
      | S room' =>
          forallb (fun kv : pyval * pyval =>
                     let (k, x) := kv in key_fits k && fits room' x) items
      end
  | _ => true
  end.

(** A pair within the limits. *)
Definition item_fits (room : nat) (kv : pyval * pyval) : bool :=
  let (k, x) := kv in key_fits k && fits room x.

(** A value that [json.dumps] writes: serializable, and within the
    limits. *)
Definition writable (room : nat) (v : pyval) : Prop :=
  serializable v = true /\ fits room v = true.

End Model.

(** ** Worlds for the examples *)

Section Worlds.

Context {F : PyFloatOps} {K : PyStack}.

(** A server that [Request] always reaches: [reply] is what [urlopen]
    gives for a request, the body of a response or an exception.  The
    state holds the bodies of the responses opened so far; a response is
    named by its place there. *)
Definition server (reply : Request -> result pybytes) : World :=
  {| wstate := list pybytes;
     on_request := fun _ => Ok tt;
     on_urlopen := fun r _ st =>
       match reply r with
       | Ok body => (Ok (List.length st), st ++ [body])
       | Raise e => (Raise e, st)
       end;
     on_read := fun h st =>
       (match nth_error st h with
        | Some body => Ok body
        | None => Raise ValueError
        end, st);
     on_exit := fun _ st => st;
     on_print := fun _ st => st |}.

(** The mock endpoint of the specification: it answers
    [{"ok": true, "echo": <received params>}]. *)
Definition echo_reply (r : Request) : result pybytes :=
  (text <- decode_utf8 (data r) ;;
   envelope <- json_loads text ;;
   match dict_get envelope (lit "params") with
   | Some params =>
       out <- json_dumps None
                (PyDict [(PyStr (lit "ok"), PyBool true);
                         (PyStr (lit "echo"), params)]) ;;
       encode_utf8 out
   | None => Raise (Raised "HTTPError")
   end)%result.

Definition echo_server : World := server echo_reply.

(** Nothing listens at the endpoint. *)
Definition unreachable : World :=
  server (fun _ => Raise (Raised "URLError")).

(** A server that answers every request with the same body. *)
Definition canned (body : pybytes) : World := server (fun _ => Ok body).

(** A world in which [Request] refuses every URL. *)
Definition no_url : World :=
  {| wstate := unit;
     on_request := fun _ => Raise ValueError;
     on_urlopen := fun _ _ st => (Raise (Raised "URLError"), st);
     on_read := fun _ st => (Raise ValueError, st);
     on_exit := fun _ st => st;
     on_print := fun _ st => st |}.

(** The call of the specification's example: [call_tool("x", {"a": 1})]. *)
Definition example_tool : pyval := PyStr (lit "x").
Definition example_arguments : pyval := PyDict [(PyStr (lit "a"), PyInt 1)].

(** Arguments that [json.dumps] refuses: [{"a": {1, 2}}], a set inside. *)
Definition set_arguments : pyval := PyDict [(PyStr (lit "a"), PyObject "set")].

(** An event that is not a [print]. *)
Definition silent (e : event) : Prop :=
  match e with
  | EvPrint _ => False
  | _ => True
  end.

(** An event that does not call [urlopen], or calls it with a request for
    [url]. *)
Definition goes_to (url : pystr) (e : event) : Prop :=
  match e with
  | EvUrlopen r _ => full_url r = url
  | _ => True
  end.

(** The lines that a run printed. *)
Definition printed (tr : list event) : list pystr :=
  flat_map (fun e => match e with EvPrint line => [line] | _ => [] end) tr.

(** The body [{"ok": true}] of a response. *)
Definition ok_body : pybytes := map byte_of_N ([123; 34] ++ lit "ok" ++ [34] ++ lit ": true}").




(** An event that does not call [urlopen], or calls it as [call_tool]
    does: a [POST] with the one header, and thirty for the timeout. *)
Definition posts (e : event) : Prop :=
  match e with
  | EvUrlopen r timeout =>
      method r = lit "POST"
      /\ headers r = [(lit "Content-Type", lit "application/json")]
      /\ timeout = 30%Z
  | _ => True
  end.

(** The UTF-8 byte order mark. *)
Definition bom : pybytes := [xef; xbb; xbf].

(** The bytes that no UTF-8 text holds: [C0], [C1] and [F5] to [FF]. *)
Definition never_utf8 (b : N) : bool :=
  (b =? 0xC0) || (b =? 0xC1) || (0xF5 <=? b).


(** A character that stands for itself inside a JSON string: not a
    control character, the quote or the backslash. *)
Definition plain (c : N) : bool :=
  scalar c && (0x20 <=? c) && negb (c =? 34) && negb (c =? 92).

(** The answer of a server that does not escape: a quote, a Greek letter,
    a character above U+FFFF, a quote. *)
Definition raw_string : pystr := [0x3C0; 0x20AC; 0x1F600].
Definition raw_body : pybytes :=
  [x22; xcf; x80; xe2; x82; xac; xf0; x9f; x98; x80; x22].

End Worlds.

(** The examples involve no float; for them a float is the text it was
    read from, cut down to ASCII when written. *)
Definition ascii_only (s : pystr) : pystr := filter (fun c => c <? 0x80) s.

Definition literal_floats : PyFloatOps.
Proof.
  refine {| pyfloat := pystr;
            float_of_text := fun s => s;
            floatstr := ascii_only;
            floatstr_ascii := _ |}.
  intro s. apply Forall_forall. intros c Hc. apply filter_In in Hc.
  now apply N.ltb_lt.
Defined.

(** For the examples the module is run as a script, with the recursion
    limit at its default. *)
Definition script_stack : PyStack.
Proof.
  refine {| stack_room := 990; stack_room_payload := _ |}.
  apply (Nat.leb_le 4 990). reflexivity.
Defined.

(** What [json.dumps] writes for the payload of the example call. *)
Definition example_text : pystr :=
  Eval vm_compute in
    match json_dumps (F := literal_floats) (K := script_stack) None
                     (payload example_tool example_arguments) with
    | Ok text => text
    | Raise _ => []
    end.

(** * Properties *)

Section Properties.

Context {F : PyFloatOps} {K : PyStack}.

(** ** Running programs *)

Lemma pystr_eqb_eq (a b : pystr) : pystr_eqb a b = true <-> a = b.
Proof.
  unfold pystr_eqb. destruct (list_eq_dec N.eq_dec a b); split; congruence.
Qed.

Lemma pystr_eqb_refl (a : pystr) : pystr_eqb a a = true.
Proof. now apply pystr_eqb_eq. Qed.

Lemma pystr_eqb_neq (a b : pystr) : pystr_eqb a b = false <-> a <> b.
Proof.
  unfold pystr_eqb. destruct (list_eq_dec N.eq_dec a b); split; congruence.
Qed.

Lemma then_run_after {A B} (w : World) (e : event) (o : outcome A (wstate w))
    (f : A -> prog B) :
  then_run w (after e o) f = after e (then_run w o f).
Proof.
  unfold then_run, after. simpl. now destruct (value o).
Qed.

Lemma run_bind {A B} (w : World) (p : prog A) (f : A -> prog B) st :
  run w (bind p f) st = then_run w (run w p st) f.
Proof.
  revert st.
  induction p as [a|e|r k IH|r t k IH|h k IH|h k IH|l k IH]; intro st; simpl.
  - unfold then_run. simpl. now destruct (run w (f a) st).
  - reflexivity.
  - apply IH.
  - destruct (on_urlopen w r t st) as [x st'].
    now rewrite IH, then_run_after.
  - destruct (on_read w h st) as [x st'].
    now rewrite IH, then_run_after.
  - now rewrite IH, then_run_after.
  - now rewrite IH, then_run_after.
Qed.

Lemma run_lift {A} (w : World) (r : result A) st :
  run w (lift r) st = mkOutcome r [] st.
Proof. now destruct r. Qed.

(** The run of a [with] body: its own run, and then the exit. *)
Lemma run_closing {A} (w : World) (h : response) (p : prog A) st :
  run w (closing h p) st =
  let o := run w p st in
  mkOutcome (value o) (trace o ++ [EvExit h]) (on_exit w h (final o)).
Proof.
  revert st.
  induction p as [a|e|r k IH|r t k IH|h' k IH|h' k IH|l k IH]; intro st; simpl;
    try reflexivity.
  - apply IH.
  - destruct (on_urlopen w r t st) as [x st']. now rewrite IH.
  - destruct (on_read w h' st) as [x st']. now rewrite IH.
  - now rewrite IH.
  - now rewrite IH.
Qed.

Lemma run_call_tool (w : World) tool_name arguments endpoint st :
  run w (call_tool tool_name arguments endpoint) st
  = call_course w tool_name arguments endpoint st.
Proof.
  unfold call_tool, call_course, request_body, with_, new_Request, urlopen, read.
  destruct (json_dumps None (payload tool_name arguments)) as [text|e];
    simpl; [|reflexivity].
  destruct (encode_utf8 text) as [body|e]; simpl; [|reflexivity].
  fold (request_of endpoint body).
  destruct (on_request w (request_of endpoint body)) as [[]|e]; simpl;
    [|reflexivity].
  destruct (on_urlopen w (request_of endpoint body) 30 st) as [[h|e] st1];
    simpl; [|reflexivity].
  destruct (on_read w h st1) as [[answer|e] st2]; simpl; [|reflexivity].
  unfold parse_body.
  destruct (decode_utf8 answer) as [t|e]; simpl; [|reflexivity].
  now destruct (json_loads t).
Qed.

(** ** What [json.dumps] writes is ASCII *)


Lemma ascii_app (a b : pystr) : ascii a -> ascii b -> ascii (a ++ b).
Proof. intros Ha Hb. apply Forall_app. now split. Qed.

Lemma ascii_cons (c : N) (s : pystr) : c < 0x80 -> ascii s -> ascii (c :: s).
Proof. intros. now constructor. Qed.

Lemma ascii_join (sep : pystr) (chunks : list pystr) :
  ascii sep -> Forall ascii chunks -> ascii (join sep chunks).
Proof.
  intros Hsep Hall. induction Hall as [|c rest Hc Hrest IH]; simpl.
  - constructor.
  - destruct rest as [|c' rest']; [assumption|].
    apply ascii_app; [assumption|]. now apply ascii_app.
Qed.

Lemma ascii_lit (s : string) :
  forallb (fun c => c <? 0x80) (lit s) = true -> ascii (lit s).
Proof.
  intro H. apply Forall_forall. intros c Hc.
  rewrite forallb_forall in H. apply N.ltb_lt. now apply H.
Qed.

Lemma ascii_uint_chars (d : Decimal.uint) : ascii (uint_chars d).
Proof.
  induction d; simpl; try constructor; try assumption; lia.
Qed.

Lemma ascii_int_repr (z : Z) : ascii (int_repr z).
Proof.
  unfold int_repr. destruct (Z.to_int z).
  - apply ascii_uint_chars.
  - apply ascii_cons; [lia|apply ascii_uint_chars].
Qed.

Lemma hex_digit_ascii (n : N) : n < 16 -> hex_digit n < 0x80.
Proof. unfold hex_digit. intro H. destruct (n <? 10); lia. Qed.

Lemma ascii_u_escape (n : N) : ascii (u_escape n).
Proof.
  unfold u_escape.
  repeat (apply ascii_cons;
          [first [lia | apply hex_digit_ascii; apply N.mod_lt; lia]|]).
  constructor.
Qed.

Lemma ascii_escape_char (c : N) : ascii (escape_char c).
Proof.
  unfold escape_char.
  repeat match goal with
         | |- ascii (if ?b then _ else _) => destruct b eqn:?
         end;
    try solve [repeat (apply ascii_cons; [lia|]); constructor].
  - apply andb_true_iff in Heqb6 as [_ H]. apply N.leb_le in H.
    apply ascii_cons; [lia|constructor].
  - apply ascii_u_escape.
  - apply ascii_app; apply ascii_u_escape.
Qed.

Lemma ascii_encode_basestring (s : pystr) : ascii (encode_basestring_ascii s).
Proof.
  unfold encode_basestring_ascii. apply ascii_cons; [lia|].
  apply ascii_app; [|apply ascii_cons; [lia|constructor]].
  induction s as [|c s IH]; simpl; [constructor|].
  apply ascii_app; [apply ascii_escape_char|exact IH].
Qed.

(** Induction on a value, with the property at hand for the items of a
    list or tuple and for the values of a dictionary. *)
Lemma pyval_ind' (P : pyval -> Prop) :
  P PyNone ->
  (forall b, P (PyBool b)) ->
  (forall z, P (PyInt z)) ->
  (forall f, P (PyFloat f)) ->
  (forall s, P (PyStr s)) ->
  (forall items, Forall P items -> P (PyList items)) ->
  (forall items, Forall P items -> P (PyTuple items)) ->
  (forall items, Forall (fun kv => P (snd kv)) items -> P (PyDict items)) ->
  (forall n, P (PyObject n)) ->
  forall v, P v.
Proof.
  intros HNone HBool HInt HFloat HStr HList HTuple HDict HObject.
  fix IH 1. intros [ |b|z|f|s|items|items|items|n].
  - exact HNone.
  - apply HBool.
  - apply HInt.
  - apply HFloat.
  - apply HStr.
  - apply HList. induction items as [|x r IHr]; constructor; [apply IH|exact IHr].
  - apply HTuple. induction items as [|x r IHr]; constructor; [apply IH|exact IHr].
  - apply HDict. induction items as [|[k x] r IHr]; constructor;
      [apply IH|exact IHr].
  - apply HObject.
Qed.

Lemma map_result_ok {A B} (f : A -> result B) (l : list A) (ys : list B) :
  map_result f l = Ok ys -> Forall2 (fun x y => f x = Ok y) l ys.
Proof.
  revert ys. induction l as [|x r IH]; simpl; intros ys H.
  - injection H as <-. constructor.
  - destruct (f x) as [y|e] eqn:Hx; [|discriminate].
    destruct (map_result f r) as [ys'|e] eqn:Hr; [|discriminate].
    injection H as <-. constructor; [assumption|now apply IH].
Qed.

Lemma map_result_all {A B} (f : A -> result B) (l : list A) :
  Forall (fun x => exists y, f x = Ok y) l -> exists ys, map_result f l = Ok ys.
Proof.
  induction 1 as [|x r [y Hy] _ [ys Hys]]; simpl.
  - now exists [].
  - rewrite Hy, Hys. now exists (y :: ys).
Qed.

Lemma map_result_raise {A B} (f : A -> result B) (l : list A) e :
  map_result f l = Raise e -> exists x, In x l /\ f x = Raise e.
Proof.
  induction l as [|x r IH]; simpl; [discriminate|].
  destruct (f x) as [y|e'] eqn:Hx.
  - destruct (map_result f r) as [ys|e''] eqn:Hr; [discriminate|].
    intro H. injection H as ->. destruct (IH eq_refl) as [x' [Hin Hx']].
    exists x'. split; [now right|assumption].
  - intro H. injection H as ->. exists x. split; [now left|assumption].
Qed.

Lemma ascii_newline_indent indent level : ascii (newline_indent indent level).
Proof.
  destruct indent as [n|]; simpl; [|constructor].
  apply ascii_cons; [lia|]. apply Forall_forall. intros c Hc.
  apply repeat_spec in Hc. subst c. lia.
Qed.

Lemma ascii_item_separator indent : ascii (item_separator indent).
Proof. destruct indent; now apply ascii_lit. Qed.

Lemma ascii_container indent level opening closing chunks :
  ascii opening -> ascii closing -> Forall ascii chunks ->
  ascii (container indent level opening closing chunks).
Proof.
  intros Ho Hc Hall. unfold container.
  repeat apply ascii_app; auto using ascii_newline_indent.
  apply ascii_join; [|assumption].
  apply ascii_app; auto using ascii_newline_indent, ascii_item_separator.
Qed.

Lemma ascii_key_text (k : pyval) (kt : pystr) :
  key_text k = Ok kt -> ascii (encode_basestring_ascii kt).
Proof. intros _. apply ascii_encode_basestring. Qed.

Lemma int_str_ok (z : Z) (text : pystr) :
  int_str z = Ok text -> text = int_repr z /\ short z = true.
Proof.
  unfold int_str, short. destruct (within_digits (int_repr z)); [|discriminate].
  intro H. injection H as <-. now split.
Qed.

Lemma int_str_raise (z : Z) (e : exn) :
  int_str z = Raise e -> e = ValueError /\ short z = false.
Proof.
  unfold int_str, short. destruct (within_digits (int_repr z)); [discriminate|].
  intro H. injection H as <-. now split.
Qed.

Lemma int_str_short (z : Z) : short z = true -> int_str z = Ok (int_repr z).
Proof. unfold int_str, short. now intros ->. Qed.

(** Whatever [json.dumps] writes, with or without [indent], is ASCII
    ([ensure_ascii] is true). *)
Lemma iterencode_ascii (v : pyval) :
  forall indent room level text,
    iterencode indent room level v = Ok text -> ascii text.
Proof.
  induction v as [ |b|z|f|s|items IH|items IH|items IH|n] using pyval_ind';
    intros indent room level text H; simpl in H.
  - injection H as <-. now apply ascii_lit.
  - destruct b; injection H as <-; now apply ascii_lit.
  - apply int_str_ok in H as [-> _]. apply ascii_int_repr.
  - injection H as <-. apply floatstr_ascii.
  - injection H as <-. apply ascii_encode_basestring.
  - destruct room as [|room]; [discriminate|].
    destruct items as [|x r]; [injection H as <-; now apply ascii_lit|].
    destruct (map_result _ (x :: r)) as [chunks|e] eqn:Hm; [|discriminate].
    injection H as <-. apply map_result_ok in Hm.
    apply ascii_container; try now apply ascii_lit.
    clear -IH Hm. induction Hm as [|y c l cs Hy _ IHl]; constructor.
    + inversion IH; subst. eauto.
    + inversion IH; subst. auto.
  - destruct room as [|room]; [discriminate|].
    destruct items as [|x r]; [injection H as <-; now apply ascii_lit|].
    destruct (map_result _ (x :: r)) as [chunks|e] eqn:Hm; [|discriminate].
    injection H as <-. apply map_result_ok in Hm.
    apply ascii_container; try now apply ascii_lit.
    clear -IH Hm. induction Hm as [|y c l cs Hy _ IHl]; constructor.
    + inversion IH; subst. eauto.
    + inversion IH; subst. auto.
  - destruct room as [|room]; [discriminate|].
    destruct items as [|x r]; [injection H as <-; now apply ascii_lit|].
    destruct (map_result _ (x :: r)) as [chunks|e] eqn:Hm; [|discriminate].
    injection H as <-. apply map_result_ok in Hm.
    apply ascii_container; try now apply ascii_lit.
    clear -IH Hm. induction Hm as [|[k y] c l cs Hy _ IHl]; constructor.
    + inversion IH as [|? ? Hhead Htail]; subst. simpl in Hhead.
      destruct (key_text k) as [kt|e]; [|discriminate]. simpl in Hy.
      destruct (iterencode indent room (S level) y) as [cy|e] eqn:Hcy;
        [|discriminate].
      injection Hy as <-.
      apply (ascii_app (encode_basestring_ascii kt) (lit ": " ++ cy));
        [apply ascii_encode_basestring|].
      apply (ascii_app (lit ": ") cy); [now apply ascii_lit|]. eauto.
    + inversion IH; subst. auto.
  - discriminate.
Qed.

(** ASCII text goes through UTF-8 byte for byte, both ways. *)
Lemma encode_utf8_ascii (s : pystr) :
  ascii s -> encode_utf8 s = Ok (map byte_of_N s).
Proof.
  induction 1 as [|c r Hc _ IH]; simpl; [reflexivity|].
  unfold utf8_encode_char. apply N.ltb_lt in Hc. rewrite Hc, IH. reflexivity.
Qed.

Lemma to_N_byte_of_N (n : N) : n < 256 -> Byte.to_N (byte_of_N n) = n.
Proof.
  intro H. unfold byte_of_N. destruct (Byte.of_N n) as [b|] eqn:Hb.
  - now apply Byte.to_of_N.
  - apply Byte.of_N_None_iff in Hb. lia.
Qed.

Lemma decode_utf8_ascii (s : pystr) :
  ascii s -> decode_utf8 (map byte_of_N s) = Ok s.
Proof.
  unfold decode_utf8.
  induction 1 as [|c r Hc _ IH]; simpl; [reflexivity|].
  rewrite to_N_byte_of_N by lia. apply N.ltb_lt in Hc. rewrite Hc, IH.
  reflexivity.
Qed.

(** [json.dumps(payload).encode("utf-8")] never raises on its own: the
    request body is there as soon as the payload is written. *)
Lemma request_body_dumps tool_name arguments text :
  json_dumps None (payload tool_name arguments) = Ok text ->
  request_body tool_name arguments = Ok (map byte_of_N text).
Proof.
  intro H. unfold request_body. rewrite H. simpl.
  apply encode_utf8_ascii. exact (iterencode_ascii _ _ _ _ _ H).
Qed.

(** ** When [json.dumps] raises *)

Lemma key_text_ok (k : pyval) :
  key_ok k = true -> key_fits k = true -> exists kt, key_text k = Ok kt.
Proof.
  destruct k as [ |[]| | | | | | | ]; simpl; intros H Hf; try discriminate;
    eauto.
  rewrite (int_str_short _ Hf). eauto.
Qed.

Lemma key_text_raise (k : pyval) e :
  key_text k = Raise e ->
  (key_ok k = false /\ exists msg, e = TypeError msg)
  \/ (key_fits k = false /\ e = ValueError).
Proof.
  destruct k as [ |[]|z| | | | | | ]; simpl; intro H; try discriminate;
    try (injection H as <-; left; eauto).
  apply int_str_raise in H as [-> H]. right. now split.
Qed.

Lemma key_text_key_ok (k : pyval) kt :
  key_text k = Ok kt -> key_ok k = true /\ key_fits k = true.
Proof.
  destruct k as [ |[]|z| | | | | | ]; simpl; intro H; try discriminate;
    try (now split).
  apply int_str_ok in H as [_ H]. now split.
Qed.

(** A serializable value within the limits is written, whatever the
    indentation. *)
Lemma iterencode_writes (v : pyval) :
  forall indent room level,
    serializable v = true -> fits room v = true ->
    exists text, iterencode indent room level v = Ok text.
Proof.
  induction v as [ |b|z|f|s|items IH|items IH|items IH|n] using pyval_ind';
    intros indent room level Hs Hf; simpl in *; eauto.
  - destruct b; eauto.
  - rewrite (int_str_short _ Hf). eauto.
  - destruct room as [|room]; [discriminate|].
    destruct items as [|x r]; [eauto|].
    destruct (map_result_all (iterencode indent room (S level)) (x :: r))
      as [cs Hcs].
    { rewrite forallb_forall in Hs, Hf. rewrite Forall_forall in *. auto. }
    rewrite Hcs. simpl. eauto.
  - destruct room as [|room]; [discriminate|].
    destruct items as [|x r]; [eauto|].
    destruct (map_result_all (iterencode indent room (S level)) (x :: r))
      as [cs Hcs].
    { rewrite forallb_forall in Hs, Hf. rewrite Forall_forall in *. auto. }
    rewrite Hcs. simpl. eauto.
  - destruct room as [|room]; [discriminate|].
    destruct items as [|x r]; [eauto|].
    match goal with
    | |- context [map_result ?f (x :: r)] =>
        destruct (map_result_all f (x :: r)) as [cs Hcs]
    end.
    { rewrite forallb_forall in Hs, Hf. rewrite Forall_forall in *.
      intros [k y] Hin. specialize (Hs _ Hin). specialize (Hf _ Hin).
      specialize (IH _ Hin).
      simpl in *. apply andb_true_iff in Hs as [Hk Hy].
      apply andb_true_iff in Hf as [Hkf Hyf].
      destruct (key_text_ok k Hk Hkf) as [kt ->].
      destruct (IH indent room (S level) Hy Hyf) as [c ->]. simpl. eauto. }
    rewrite Hcs. simpl. eauto.
  - discriminate.
Qed.

(** What [json.dumps] raises: [TypeError] on a value that is not
    serializable, [ValueError] or [RecursionError] on one beyond the
    limits, whichever it meets first. *)
Lemma iterencode_raise (v : pyval) :
  forall indent room level e,
    iterencode indent room level v = Raise e ->
    (serializable v = false /\ exists msg, e = TypeError msg)
    \/ (fits room v = false /\ (e = ValueError \/ e = RecursionError)).
Proof.
  induction v as [ |b|z|f|s|items IH|items IH|items IH|n] using pyval_ind';
    intros indent room level e H; simpl in *; try discriminate.
  - destruct b; discriminate.
  - apply int_str_raise in H as [-> H]. right. auto.
  - destruct room as [|room]; [injection H as <-; right; auto|].
    destruct items as [|x r]; [discriminate|].
    destruct (map_result _ (x :: r)) as [cs|e'] eqn:Hm; [discriminate|].
    injection H as ->. apply map_result_raise in Hm as [y [Hin Hy]].
    rewrite Forall_forall in IH.
    destruct (IH _ Hin _ _ _ _ Hy) as [[Hn Hmsg]|[Hn Hmsg]]; [left|right];
      (split; [|assumption]);
      apply not_true_is_false; intro Hall; rewrite forallb_forall in Hall;
      rewrite (Hall _ Hin) in Hn; discriminate.
  - destruct room as [|room]; [injection H as <-; right; auto|].
    destruct items as [|x r]; [discriminate|].
    destruct (map_result _ (x :: r)) as [cs|e'] eqn:Hm; [discriminate|].
    injection H as ->. apply map_result_raise in Hm as [y [Hin Hy]].
    rewrite Forall_forall in IH.
    destruct (IH _ Hin _ _ _ _ Hy) as [[Hn Hmsg]|[Hn Hmsg]]; [left|right];
      (split; [|assumption]);
      apply not_true_is_false; intro Hall; rewrite forallb_forall in Hall;
      rewrite (Hall _ Hin) in Hn; discriminate.
  - destruct room as [|room]; [injection H as <-; right; auto|].
    destruct items as [|x r]; [discriminate|].
    destruct (map_result _ (x :: r)) as [cs|e'] eqn:Hm; [discriminate|].
    injection H as ->. apply map_result_raise in Hm as [[k y] [Hin Hy]].
    rewrite Forall_forall in IH. specialize (IH _ Hin). simpl in IH.
    assert ((key_ok k && serializable y = false /\ exists msg, e = TypeError msg)
            \/ (key_fits k && fits room y = false
                /\ (e = ValueError \/ e = RecursionError))) as Hcase.
    { destruct (key_text k) as [kt|e'] eqn:Hk; simpl in Hy.
      - destruct (iterencode indent room (S level) y) as [c|e'] eqn:Hc;
          [discriminate|].
        injection Hy as ->.
        destruct (IH _ _ _ _ Hc) as [[-> Hmsg]|[-> Hmsg]]; [left|right];
          (split; [apply andb_false_r|assumption]).
      - injection Hy as ->.
        destruct (key_text_raise k _ Hk) as [[-> Hmsg]|[-> ->]]; [left|right];
          (split; [reflexivity|auto]). }
    destruct Hcase as [[Hn Hmsg]|[Hn Hmsg]]; [left|right];
      (split; [|assumption]);
      apply not_true_is_false; intro Hall; rewrite forallb_forall in Hall;
      specialize (Hall _ Hin); simpl in Hall; congruence.
  - injection H as <-. left. eauto.
Qed.

Lemma iterencode_ok (v : pyval) :
  forall indent room level text,
    iterencode indent room level v = Ok text ->
    serializable v = true /\ fits room v = true.
Proof.
  induction v as [ |b|z|f|s|items IH|items IH|items IH|n] using pyval_ind';
    intros indent room level text H; simpl in *; try (now split);
    try discriminate.
  - apply int_str_ok in H as [_ H]. now split.
  - destruct room as [|room]; [discriminate|].
    destruct items as [|x r]; [now split|].
    destruct (map_result _ (x :: r)) as [cs|e'] eqn:Hm; [|discriminate].
    apply map_result_ok in Hm. clear H.
    induction Hm as [|y c l cs' Hy _ IHl]; [now split|].
    inversion IH as [|? ? Hhead Htail]; subst.
    destruct (Hhead _ _ _ _ Hy) as [H1 H2]. destruct (IHl Htail) as [H3 H4].
    simpl. now rewrite H1, H2, H3, H4.
  - destruct room as [|room]; [discriminate|].
    destruct items as [|x r]; [now split|].
    destruct (map_result _ (x :: r)) as [cs|e'] eqn:Hm; [|discriminate].
    apply map_result_ok in Hm. clear H.
    induction Hm as [|y c l cs' Hy _ IHl]; [now split|].
    inversion IH as [|? ? Hhead Htail]; subst.
    destruct (Hhead _ _ _ _ Hy) as [H1 H2]. destruct (IHl Htail) as [H3 H4].
    simpl. now rewrite H1, H2, H3, H4.
  - destruct room as [|room]; [discriminate|].
    destruct items as [|x r]; [now split|].
    destruct (map_result _ (x :: r)) as [cs|e'] eqn:Hm; [|discriminate].
    apply map_result_ok in Hm. clear H.
    induction Hm as [|[k y] c l cs' Hy _ IHl]; [now split|].
    inversion IH as [|? ? Hhead Htail]; subst. simpl in Hhead |- *.
    destruct (key_text k) as [kt|e'] eqn:Hk; [|discriminate]. simpl in Hy.
    destruct (iterencode indent room (S level) y) as [cy|e'] eqn:Hcy;
      [|discriminate].
    destruct (key_text_key_ok _ _ Hk) as [H1 H2].
    destruct (Hhead _ _ _ _ Hcy) as [H3 H4]. destruct (IHl Htail) as [H5 H6].
    now rewrite H1, H2, H3, H4, H5, H6.
Qed.

(** [json.dumps(v)] returns exactly when [v] is serializable and within
    the limits. *)
Lemma json_dumps_serializable indent (v : pyval) :
  serializable v = true /\ fits stack_room v = true
  <-> exists text, json_dumps indent v = Ok text.
Proof.
  unfold json_dumps. split.
  - intros [Hs Hf]. now apply iterencode_writes.
  - intros [text H]. exact (iterencode_ok _ _ _ _ _ H).
Qed.

Lemma json_dumps_raise indent (v : pyval) (e : exn) :
  json_dumps indent v = Raise e ->
  (serializable v = false /\ exists msg, e = TypeError msg)
  \/ (fits stack_room v = false /\ (e = ValueError \/ e = RecursionError)).
Proof. apply iterencode_raise. Qed.

(** On a value that is not serializable, [json.dumps] raises. *)
Lemma json_dumps_not_serializable indent (v : pyval) :
  serializable v = false -> exists e, json_dumps indent v = Raise e.
Proof.
  intro Hs. destruct (json_dumps indent v) as [text|e] eqn:H; [|eauto].
  destruct (iterencode_ok _ _ _ _ _ H) as [Hs' _]. congruence.
Qed.

(** The limits give way to more room. *)
Lemma fits_more (v : pyval) :
  forall room room', (room <= room')%nat -> fits room v = true ->
                     fits room' v = true.
Proof.
  induction v as [ |b|z|f|s|items IH|items IH|items IH|n] using pyval_ind';
    intros room room' Hle H; simpl in *; try assumption.
  - destruct room as [|room]; [discriminate|].
    destruct room' as [|room']; [inversion Hle|].
    rewrite forallb_forall in *. rewrite Forall_forall in IH.
    intros x Hin. apply (IH x Hin room room'); [lia|auto].
  - destruct room as [|room]; [discriminate|].
    destruct room' as [|room']; [inversion Hle|].
    rewrite forallb_forall in *. rewrite Forall_forall in IH.
    intros x Hin. apply (IH x Hin room room'); [lia|auto].
  - destruct room as [|room]; [discriminate|].
    destruct room' as [|room']; [inversion Hle|].
    rewrite forallb_forall in *. rewrite Forall_forall in IH.
    intros [k x] Hin. specialize (H _ Hin). simpl in H.
    apply andb_true_iff in H as [Hk Hx]. rewrite Hk. simpl.
    apply (IH _ Hin room room'); [lia|exact Hx].
Qed.

(** ** Reading back what [json.dumps] wrote: strings *)

Lemma hex_value_digit (d : N) : d < 16 -> hex_value (hex_digit d) = Some d.
Proof.
  intro H.
  assert (d = 0 \/ d = 1 \/ d = 2 \/ d = 3 \/ d = 4 \/ d = 5 \/ d = 6 \/ d = 7
          \/ d = 8 \/ d = 9 \/ d = 10 \/ d = 11 \/ d = 12 \/ d = 13 \/ d = 14
          \/ d = 15) as Hd by lia.
  repeat (destruct Hd as [->|Hd]; [reflexivity|]). now subst d.
Qed.

Lemma hex4_value (n : N) :
  n < 65536 ->
  (n / 4096) mod 16 * 4096 + (n / 256) mod 16 * 256 + (n / 16) mod 16 * 16
  + n mod 16 = n.
Proof.
  intro H.
  replace (n / 4096) with (n / 16 / 16 / 16)
    by (rewrite !N.Div0.div_div; reflexivity).
  replace (n / 256) with (n / 16 / 16) by (rewrite !N.Div0.div_div; reflexivity).
  pose proof (N.div_mod n 16 ltac:(lia)).
  pose proof (N.div_mod (n / 16) 16 ltac:(lia)).
  pose proof (N.div_mod (n / 16 / 16) 16 ltac:(lia)).
  pose proof (N.div_mod (n / 16 / 16 / 16) 16 ltac:(lia)).
  assert (n / 16 / 16 / 16 / 16 = 0)
    by (rewrite !N.Div0.div_div; apply N.div_small; lia).
  lia.
Qed.

(** The four digits of an escape read back as the number they stand for. *)
Lemma decode_u_escape (n : N) (tail : pystr) :
  n < 65536 ->
  u_escape n ++ tail
  = 92 :: 117 :: hex_digit ((n / 4096) mod 16) :: hex_digit ((n / 256) mod 16)
       :: hex_digit ((n / 16) mod 16) :: hex_digit (n mod 16) :: tail
  /\ decode_uXXXX (hex_digit ((n / 4096) mod 16) :: hex_digit ((n / 256) mod 16)
                     :: hex_digit ((n / 16) mod 16) :: hex_digit (n mod 16)
                     :: tail)
     = Some (n, tail).
Proof.
  intro H. split; [reflexivity|].
  unfold decode_uXXXX.
  rewrite !hex_value_digit by (apply N.mod_lt; lia).
  now rewrite hex4_value.
Qed.

Lemma testbit_small (x k m : N) : x < 2 ^ k -> k <= m -> N.testbit x m = false.
Proof.
  intros Hx Hm. rewrite <- (N.mod_small x (2 ^ k)) by assumption.
  now apply N.mod_pow2_bits_high.
Qed.

Lemma lor_high_low (h x k : N) : x < 2 ^ k -> N.lor (h * 2 ^ k) x = h * 2 ^ k + x.
Proof.
  intro Hx.
  assert (Hland : N.land (h * 2 ^ k) x = 0).
  { apply N.bits_inj. intro m. rewrite N.land_spec, N.bits_0.
    destruct (N.lt_ge_cases m k) as [Hm|Hm].
    - now rewrite N.mul_pow2_bits_low.
    - rewrite (testbit_small x k m) by assumption. apply andb_false_r. }
  now rewrite N.add_nocarry_lxor, N.lxor_lor.
Qed.

(** The two halves of a character above U+FFFF, as [escape_char] cuts
    it. *)
Lemma surrogates_of (c : N) :
  0x10000 <= c < 0x110000 ->
  let n := c - 0x10000 in
  N.lor 0xD800 (N.land (N.shiftr n 10) 0x3FF) = 0xD800 + n / 1024
  /\ N.lor 0xDC00 (N.land n 0x3FF) = 0xDC00 + n mod 1024
  /\ n / 1024 < 1024.
Proof.
  intros Hc n.
  assert (Hn : n < 1048576) by (unfold n; lia).
  assert (Hq : n / 1024 < 1024) by (apply N.Div0.div_lt_upper_bound; lia).
  change 0x3FF with (N.ones 10). rewrite !N.land_ones, N.shiftr_div_pow2.
  change (2 ^ 10) with 1024. rewrite (N.mod_small (n / 1024)) by assumption.
  change 0xD800 with (54 * 2 ^ 10). change 0xDC00 with (55 * 2 ^ 10).
  rewrite !lor_high_low; [auto| |assumption].
  apply N.mod_lt. discriminate.
Qed.

(** And the character that [scanstring] puts together again. *)
Lemma join_surrogates (n : N) :
  n < 1048576 ->
  0x10000 + N.lor (N.shiftl (0xD800 + n / 1024 - 0xD800) 10)
                  (0xDC00 + n mod 1024 - 0xDC00)
  = 0x10000 + n.
Proof.
  intro Hn.
  assert (Hcancel : forall a b : N, a + b - a = b) by (intros; lia).
  rewrite !Hcancel.
  rewrite N.shiftl_mul_pow2, lor_high_low by (apply N.mod_lt; discriminate).
  change (2 ^ 10) with 1024.
  pose proof (N.div_mod n 1024 ltac:(lia)). lia.
Qed.

(** Comparisons on [N] as propositions, for [lia]. *)
Ltac nb_hyps :=
  repeat match goal with
         | H : _ && _ = true |- _ => apply andb_true_iff in H; destruct H
         | H : _ || _ = false |- _ => apply orb_false_iff in H; destruct H
         | H : _ && _ = false |- _ => apply andb_false_iff in H; destruct H
         | H : _ || _ = true |- _ => apply orb_true_iff in H; destruct H
         | H : negb _ = true |- _ => apply negb_true_iff in H
         | H : negb _ = false |- _ => apply negb_false_iff in H
         | H : (_ =? _) = true |- _ => apply N.eqb_eq in H
         | H : (_ =? _) = false |- _ => apply N.eqb_neq in H
         | H : (_ <=? _) = true |- _ => apply N.leb_le in H
         | H : (_ <=? _) = false |- _ => apply N.leb_gt in H
         | H : (_ <? _) = true |- _ => apply N.ltb_lt in H
         | H : (_ <? _) = false |- _ => apply N.ltb_ge in H
         end.

Ltac nb :=
  unfold is_digit, is_ws, is_cont, scalar, in_range in *;
  match goal with
  | |- ?b = true => destruct b eqn:?; [reflexivity|nb_hyps; lia]
  | |- ?b = false => destruct b eqn:?; [nb_hyps; lia|reflexivity]
  end.

Lemma scanstring_plain (c : N) (tail : pystr) (n : nat) :
  c <> 34 -> c <> 92 -> 0x20 <= c ->
  scanstring (S n) (c :: tail) = scan_map (cons c) (scanstring n tail).
Proof.
  intros H1 H2 H3. simpl.
  rewrite (proj2 (N.eqb_neq c 34)), (proj2 (N.eqb_neq c 92)) by assumption.
  now rewrite (proj2 (N.ltb_ge c 0x20)) by assumption.
Qed.

Lemma scanstring_u (r : pystr) (n : nat) :
  scanstring (S n) (92 :: 117 :: r)
  = match scan_u_escape r with
    | None => Invalid
    | Some (ch, r') => scan_map (cons ch) (scanstring n r')
    end.
Proof. reflexivity. Qed.

Lemma scan_u_escape_bmp (c : N) (tail : pystr) :
  c < 65536 -> in_range 0xD800 0xDBFF c = false ->
  scan_u_escape (hex_digit ((c / 4096) mod 16) :: hex_digit ((c / 256) mod 16)
                   :: hex_digit ((c / 16) mod 16) :: hex_digit (c mod 16) :: tail)
  = Some (c, tail).
Proof.
  intros Hc Hr. unfold scan_u_escape.
  rewrite (proj2 (decode_u_escape c tail Hc)). now rewrite Hr.
Qed.

Lemma scan_u_escape_pair (q m : N) (tail : pystr) :
  q < 1024 -> m < 1024 ->
  let s1 := 0xD800 + q in
  let s2 := 0xDC00 + m in
  scan_u_escape (hex_digit ((s1 / 4096) mod 16) :: hex_digit ((s1 / 256) mod 16)
                   :: hex_digit ((s1 / 16) mod 16) :: hex_digit (s1 mod 16)
                   :: u_escape s2 ++ tail)
  = Some (0x10000 + N.lor (N.shiftl (s1 - 0xD800) 10) (s2 - 0xDC00), tail).
Proof.
  intros Hq Hm s1 s2.
  assert (H1 : s1 < 65536) by (unfold s1; lia).
  assert (H2 : s2 < 65536) by (unfold s2; lia).
  unfold scan_u_escape.
  rewrite (proj2 (decode_u_escape s1 (u_escape s2 ++ tail) H1)).
  replace (in_range 0xD800 0xDBFF s1) with true by (symmetry; unfold s1; nb).
  destruct (decode_u_escape s2 tail H2) as [-> ->].
  replace (in_range 0xDC00 0xDFFF s2) with true by (symmetry; unfold s2; nb).
  reflexivity.
Qed.

(** [scanstring] takes back one character of [encode_basestring_ascii]. *)
Lemma scanstring_escape_char (c : N) (tail : pystr) (n : nat) :
  scalar c = true ->
  scanstring (S n) (escape_char c ++ tail) = scan_map (cons c) (scanstring n tail).
Proof.
  intro Hc. unfold escape_char.
  destruct (c =? 34) eqn:E1; [apply N.eqb_eq in E1; now subst|].
  destruct (c =? 92) eqn:E2; [apply N.eqb_eq in E2; now subst|].
  destruct (c =? 10) eqn:E3; [apply N.eqb_eq in E3; now subst|].
  destruct (c =? 13) eqn:E4; [apply N.eqb_eq in E4; now subst|].
  destruct (c =? 9) eqn:E5; [apply N.eqb_eq in E5; now subst|].
  destruct (c =? 12) eqn:E6; [apply N.eqb_eq in E6; now subst|].
  destruct (c =? 8) eqn:E7; [apply N.eqb_eq in E7; now subst|].
  destruct ((0x20 <=? c) && (c <=? 0x7E)) eqn:E8.
  - nb_hyps. now apply scanstring_plain.
  - destruct (c <? 0x10000) eqn:E9.
    + apply N.ltb_lt in E9.
      rewrite (proj1 (decode_u_escape c tail E9)), scanstring_u.
      rewrite scan_u_escape_bmp; [reflexivity|assumption|].
      clear E8. nb.
    + apply N.ltb_ge in E9.
      assert (Hr : 0x10000 <= c < 0x110000) by (clear E8; unfold scalar in Hc; nb_hyps; lia).
      destruct (surrogates_of c Hr) as [-> [-> Hq]].
      set (n' := c - 0x10000) in *.
      assert (Hn : n' < 1048576) by (unfold n'; lia).
      rewrite <- app_assoc.
      assert (H1 : 0xD800 + n' / 1024 < 65536) by (revert Hq; generalize (n' / 1024); intros; lia).
      rewrite (proj1 (decode_u_escape _ _ H1)), scanstring_u.
      rewrite (scan_u_escape_pair (n' / 1024) (n' mod 1024) tail Hq)
        by (apply N.mod_lt; discriminate).
      rewrite (join_surrogates n' Hn).
      replace (0x10000 + n') with c by (unfold n'; lia). reflexivity.
Qed.

Lemma scalar_cons (c : N) (s : pystr) :
  text_ok (c :: s) = true -> scalar c = true /\ text_ok s = true.
Proof. unfold text_ok. simpl. intro H. now apply andb_true_iff in H. Qed.

(** A string of characters comes back as it was. *)
Lemma scanstring_escaped (s : pystr) :
  forall (tail : pystr) (fuel : nat),
    text_ok s = true ->
    (List.length s < fuel)%nat ->
    scanstring fuel (flat_map escape_char s ++ 34 :: tail) = Parsed s tail.
Proof.
  induction s as [|c s IH]; intros tail fuel Hs Hf.
  - destruct fuel; [inversion Hf|]. reflexivity.
  - destruct fuel; [inversion Hf|].
    apply scalar_cons in Hs as [Hc Hs]. simpl flat_map. rewrite <- app_assoc.
    rewrite scanstring_escape_char by assumption.
    rewrite IH; [reflexivity|assumption|]. simpl in Hf. lia.
Qed.

Lemma escaped_length (s : pystr) :
  (List.length s <= List.length (flat_map escape_char s))%nat.
Proof.
  induction s as [|c s IH]; simpl; [lia|].
  rewrite length_app.
  assert (1 <= List.length (escape_char c))%nat; [|lia].
  unfold escape_char.
  repeat match goal with
         | |- (1 <= List.length (if ?b then _ else _))%nat => destruct b
         end; simpl; lia.
Qed.

(** ** Reading back what [json.dumps] wrote: integers *)

Lemma uint_of_chars_uint_chars (d : Decimal.uint) :
  uint_of_chars (uint_chars d) = d.
Proof. induction d; simpl; now f_equal. Qed.

Lemma closes_cons (c : N) (r : pystr) :
  closes (c :: r) = true -> c = 44 \/ c = 93 \/ c = 125.
Proof. unfold closes. intro H. nb_hyps; auto. Qed.

Lemma take_digits_stop (rest : pystr) :
  closes rest = true -> take_digits rest = ([], rest).
Proof.
  destruct rest as [|c r]; [reflexivity|]. intro H.
  apply closes_cons in H. cbn [take_digits].
  replace (is_digit c) with false; [reflexivity|]. symmetry. nb.
Qed.

Lemma take_digits_uint (d : Decimal.uint) (rest : pystr) :
  closes rest = true ->
  take_digits (uint_chars d ++ rest) = (uint_chars d, rest).
Proof.
  intro H. induction d; simpl; try rewrite IHd; try reflexivity.
  now apply take_digits_stop.
Qed.

Lemma written_unorm (d : Decimal.uint) : written (Decimal.unorm d).
Proof.
  unfold Decimal.unorm.
  destruct (Decimal.nzhead d) eqn:E; simpl; try exact I.
  now apply nzhead_nonzero in E.
Qed.

Lemma written_to_uint (p : positive) : written (Pos.to_uint p).
Proof.
  pose proof (DecimalPos.Unsigned.to_of (Pos.to_uint p)) as H.
  rewrite DecimalPos.Unsigned.of_to in H. simpl in H. rewrite H.
  apply written_unorm.
Qed.

Lemma to_int_written (z : Z) :
  match Z.to_int z with
  | Decimal.Pos d | Decimal.Neg d => written d
  end.
Proof. destruct z; simpl; [exact I| |]; apply written_to_uint. Qed.

Lemma match_integer_written (d : Decimal.uint) (rest : pystr) :
  written d -> closes rest = true ->
  match_integer (uint_chars d ++ rest) = Some (uint_chars d, rest)
  /\ match_integer (45 :: uint_chars d ++ rest) = Some (45 :: uint_chars d, rest).
Proof.
  intros Hd Hr. unfold match_integer.
  destruct d as [|d|d|d|d|d|d|d|d|d|d]; simpl in Hd |- *;
    try contradiction;
    try (rewrite take_digits_uint by assumption; now split).
  destruct d; try contradiction. now split.
Qed.

Lemma int_of_text_written (d : Decimal.uint) :
  written d ->
  int_of_text (uint_chars d) = Z.of_int (Decimal.Pos d)
  /\ int_of_text (45 :: uint_chars d) = Z.of_int (Decimal.Neg d).
Proof.
  intro Hd. split.
  - rewrite <- (uint_of_chars_uint_chars d) at 2.
    destruct d; simpl in Hd; try contradiction; reflexivity.
  - unfold int_of_text. simpl. now rewrite uint_of_chars_uint_chars.
Qed.

Lemma match_frac_stop (rest : pystr) :
  closes rest = true -> match_frac rest = ([], rest).
Proof.
  destruct rest as [|c r]; [reflexivity|]. intro H.
  apply closes_cons in H. unfold match_frac.
  replace (c =? 46) with false; [reflexivity|]. symmetry. nb.
Qed.

Lemma match_exp_stop (rest : pystr) :
  closes rest = true -> match_exp rest = ([], rest).
Proof.
  destruct rest as [|c r]; [reflexivity|]. intro H.
  apply closes_cons in H. unfold match_exp.
  replace ((c =? 101) || (c =? 69)) with false; [reflexivity|]. symmetry. nb.
Qed.

(** An integer comes back as it was, when what follows it closes it. *)
Lemma match_number_int_repr (z : Z) (rest : pystr) :
  closes rest = true -> short z = true ->
  match_number (int_repr z ++ rest) = Some (Ok (PyInt z), rest).
Proof.
  intros Hr Hs. unfold short, int_repr in Hs. unfold match_number, int_repr.
  pose proof (to_int_written z) as Hw.
  pose proof (DecimalZ.of_to z) as Hz.
  destruct (Z.to_int z) as [d|d].
  - rewrite (proj1 (match_integer_written d rest Hw Hr)).
    rewrite match_frac_stop, match_exp_stop by assumption.
    unfold int_of_str. rewrite Hs.
    now rewrite (proj1 (int_of_text_written d Hw)), Hz.
  - simpl app. rewrite (proj2 (match_integer_written d rest Hw Hr)).
    rewrite match_frac_stop, match_exp_stop by assumption.
    unfold int_of_str. rewrite Hs.
    now rewrite (proj2 (int_of_text_written d Hw)), Hz.
Qed.

(** The first character of an integer: the minus sign or a digit. *)
Lemma int_repr_head (z : Z) :
  exists c r, int_repr z = c :: r /\ (c = 45 \/ is_digit c = true).
Proof.
  unfold int_repr. pose proof (to_int_written z) as Hw.
  destruct (Z.to_int z) as [d|d].
  - destruct d; simpl in Hw; try contradiction; simpl; eauto.
  - simpl. eauto.
Qed.

Lemma scan_once_step (n room : nat) (c : N) (r : pystr) :
  scan_once (S n) room (c :: r)
  = if c =? 34 then scan_map PyStr (scanstring (S (List.length r)) r)
    else if c =? 123 then
      enter room (fun room' => JSONObject (scan_once n room') n r)
    else if c =? 91 then
      enter room (fun room' => JSONArray (scan_once n room') n r)
    else scan_atom (c :: r).
Proof. reflexivity. Qed.

Lemma strip_prefix_head (p : pystr) (a c : N) (r : pystr) :
  a <> c -> strip_prefix (a :: p) (c :: r) = None.
Proof. intro H. simpl. now rewrite (proj2 (N.eqb_neq a c)). Qed.

Lemma scan_atom_number (c : N) (r : pystr) (v : pyval) (rest : pystr) :
  c = 45 \/ is_digit c = true ->
  match_number (c :: r) = Some (Ok v, rest) ->
  scan_atom (c :: r) = Parsed v rest.
Proof.
  intros Hc Hm. unfold scan_atom.
  change (lit "null") with [110; 117; 108; 108].
  change (lit "true") with [116; 114; 117; 101].
  change (lit "false") with [102; 97; 108; 115; 101].
  rewrite !strip_prefix_head, Hm; [reflexivity| | |];
    destruct Hc as [->|Hc]; try discriminate;
    intros <-; discriminate.
Qed.

Lemma scan_once_int (z : Z) (rest : pystr) (n room : nat) :
  closes rest = true -> short z = true ->
  scan_once (S n) room (int_repr z ++ rest) = Parsed (PyInt z) rest.
Proof.
  intros Hr Hs. pose proof (match_number_int_repr z rest Hr Hs) as Hm.
  destruct (int_repr_head z) as [c [r [E Hc]]]. rewrite E in *.
  simpl app in *. rewrite scan_once_step.
  replace (c =? 34) with false by (symmetry; destruct Hc as [->|Hc]; [reflexivity|nb]).
  replace (c =? 123) with false by (symmetry; destruct Hc as [->|Hc]; [reflexivity|nb]).
  replace (c =? 91) with false by (symmetry; destruct Hc as [->|Hc]; [reflexivity|nb]).
  now apply scan_atom_number.
Qed.

(** ** Reading back what [json.dumps] wrote: values *)

Lemma skip_ws_head (c : N) (r : pystr) :
  is_ws c = false -> skip_ws (c :: r) = c :: r.
Proof. intro H. simpl. now rewrite H. Qed.

Lemma skip_ws_space (c : N) (r : pystr) :
  is_ws c = false -> skip_ws (32 :: c :: r) = c :: r.
Proof. intro H. simpl. now rewrite H. Qed.

Lemma container_compact level opening closing chunks :
  container None level opening closing chunks
  = opening ++ join (lit ", ") chunks ++ closing.
Proof. reflexivity. Qed.

Lemma opens_cons (c : N) (r : pystr) :
  is_ws c = false -> c <> 93 -> opens (c :: r).
Proof. intros. exists c, r. auto. Qed.

Lemma opens_app (a b : pystr) : opens a -> opens (a ++ b).
Proof. intros [c [r [-> H]]]. exists c, (r ++ b). auto. Qed.

Lemma iterencode_opens (v : pyval) room level text :
  json_value v = true -> iterencode None room level v = Ok text -> opens text.
Proof.
  destruct v as [ |b|z|f|s|items|items|items|n]; simpl; intros Hv H;
    try discriminate.
  - injection H as <-. now apply opens_cons.
  - destruct b; injection H as <-; now apply opens_cons.
  - apply int_str_ok in H as [-> _].
    destruct (int_repr_head z) as [c [r [-> Hc]]].
    destruct Hc as [->|Hc]; [now apply opens_cons|].
    apply opens_cons; [nb|]. intros ->. discriminate.
  - injection H as <-. now apply opens_cons.
  - destruct room as [|room]; [discriminate|].
    destruct items as [|x r]; [injection H as <-; now apply opens_cons|].
    destruct (map_result _ (x :: r)) as [chunks|e]; [|discriminate].
    injection H as <-. now apply opens_cons.
  - destruct room as [|room]; [discriminate|].
    destruct items as [|x r]; [injection H as <-; now apply opens_cons|].
    destruct (map_result _ (x :: r)) as [chunks|e]; [|discriminate].
    injection H as <-. now apply opens_cons.
Qed.

Lemma JSONArray_items scan_value fuel (s : pystr) :
  opens s -> JSONArray scan_value fuel s
             = scan_map PyList (array_items scan_value fuel s).
Proof.
  intros [c [r [-> [Hws Hc]]]]. unfold JSONArray.
  rewrite skip_ws_head by assumption.
  now rewrite (proj2 (N.eqb_neq c 93)).
Qed.

Lemma array_items_written (items : list pyval) (chunks : list pystr)
    room level :
  Forall2 (fun x c => iterencode None room level x = Ok c) items chunks ->
  Forall read_back items ->
  forallb json_value items = true ->
  items <> [] ->
  forall rest k n,
    closes rest = true ->
    (List.length (join (lit ", ") chunks ++ 93%N :: rest) < k)%nat ->
    (List.length (join (lit ", ") chunks ++ 93%N :: rest) < n)%nat ->
    array_items (scan_once n room) k (join (lit ", ") chunks ++ 93 :: rest)
    = Parsed items rest.
Proof.
  induction 1 as [|x c xs cs Hx Hxs IH]; intros Hrb Hjv Hne rest k n Hr Hk Hn;
    [congruence|].
  inversion Hrb as [|? ? Hrbx Hrbxs]; subst.
  simpl in Hjv. apply andb_true_iff in Hjv as [Hjx Hjxs].
  destruct k as [|k]; [inversion Hk|].
  destruct Hxs as [|x' c' xs' cs' Hx' Hxs'].
  - (* the last item *)
    cbn [join array_items] in *.
    rewrite (Hrbx room level c (93 :: rest) n Hjx Hx eq_refl Hn).
    reflexivity.
  - (* an item and a comma *)
    assert (Hopen : opens (join (lit ", ") (c' :: cs') ++ 93 :: rest)).
    { simpl in Hjxs. apply andb_true_iff in Hjxs as [Hjx' _].
      destruct (iterencode_opens x' room level c' Hjx' Hx') as [h [t [-> Ht]]].
      destruct cs'; simpl; [now apply opens_cons|]. now apply opens_cons. }
    change (join (lit ", ") (c :: c' :: cs'))
      with (c ++ 44 :: 32 :: join (lit ", ") (c' :: cs')) in *.
    rewrite <- List.app_assoc in *. cbn [app] in *.
    rewrite List.length_app in Hk, Hn. cbn [List.length] in Hk, Hn.
    cbn [array_items].
    rewrite (Hrbx room level c
               (44 :: 32 :: join (lit ", ") (c' :: cs') ++ 93 :: rest)
               n Hjx Hx eq_refl)
      by (rewrite List.length_app; cbn [List.length]; lia).
    cbn [skip_ws is_ws N.eqb Pos.eqb orb].
    destruct Hopen as [h [t [Eh [Hws Hh]]]]. rewrite Eh in *.
    cbn [skip_ws is_ws N.eqb Pos.eqb orb]. rewrite Hws.
    rewrite <- Eh in *.
    rewrite IH; [reflexivity|assumption|assumption|discriminate|assumption| |];
      lia.
Qed.

(** *** Dictionaries *)

Lemma str_keys_items (items : list (pyval * pyval)) (ks : list pystr) :
  str_keys items = Some ks ->
  exists prs, items = map to_item prs /\ map fst prs = ks.
Proof.
  revert ks. induction items as [|[k v] items IH]; simpl; intros ks H.
  - injection H as <-. now exists [].
  - destruct k; try discriminate.
    destruct (str_keys items) as [ks'|]; [|discriminate].
    injection H as <-. destruct (IH ks' eq_refl) as [prs [-> <-]].
    now exists ((s, v) :: prs).
Qed.

Lemma dict_set_fresh (l : list (pystr * pyval)) (k : pystr) (v : pyval) :
  Forall (fun p => pystr_eqb (fst p) k = false) l ->
  dict_set (map to_item l) k v = map to_item (l ++ [(k, v)]).
Proof.
  induction 1 as [|[k0 v0] l Hk _ IH]; simpl; [reflexivity|].
  simpl in Hk. now rewrite Hk, IH.
Qed.

Lemma distinct_middle (a : list pystr) (k : pystr) (b : list pystr) :
  distinct (a ++ k :: b) = true ->
  Forall (fun k0 => pystr_eqb k0 k = false) a.
Proof.
  induction a as [|k0 a IH]; simpl; intro H; constructor.
  - apply andb_true_iff in H as [H _]. apply negb_true_iff in H.
    rewrite existsb_app in H. apply orb_false_iff in H as [_ H].
    simpl in H. now apply orb_false_iff in H as [H _].
  - apply andb_true_iff in H as [_ H]. auto.
Qed.

Lemma fold_dict_set (prs l : list (pystr * pyval)) :
  distinct (map fst (l ++ prs)) = true ->
  fold_left (fun d kv => dict_set d (fst kv) (snd kv)) prs (map to_item l)
  = map to_item (l ++ prs).
Proof.
  revert l. induction prs as [|[k v] prs IH]; intros l H; simpl.
  - now rewrite List.app_nil_r.
  - rewrite dict_set_fresh.
    + rewrite IH; rewrite <- List.app_assoc; [reflexivity|exact H].
    + rewrite map_app in H. simpl in H. apply distinct_middle in H.
      rewrite Forall_map in H. exact H.
Qed.

(** [dict(pairs)] keeps the pairs as they are when the keys differ. *)
Lemma dict_of_pairs_distinct (prs : list (pystr * pyval)) :
  distinct (map fst prs) = true -> dict_of_pairs prs = PyDict (map to_item prs).
Proof.
  intro H. unfold dict_of_pairs. f_equal. exact (fold_dict_set prs [] H).
Qed.

Lemma pairs_text_join (kc : list (pystr * pystr)) (rest : pystr) :
  kc <> [] ->
  join (lit ", ") (map pair_chunk kc) ++ 125 :: rest = 34 :: pairs_text kc rest.
Proof.
  induction kc as [|[k cv] kc IH]; intro H; [congruence|].
  destruct kc as [|p kc'].
  - simpl. unfold pair_chunk, encode_basestring_ascii. simpl.
    rewrite <- !List.app_assoc. reflexivity.
  - change (join (lit ", ") (map pair_chunk ((k, cv) :: p :: kc')))
      with (pair_chunk (k, cv) ++ lit ", " ++ join (lit ", ") (map pair_chunk (p :: kc'))).
    rewrite <- !List.app_assoc, IH by discriminate.
    unfold pair_chunk, encode_basestring_ascii. simpl.
    rewrite <- !List.app_assoc. reflexivity.
Qed.

Lemma JSONObject_pairs scan_value fuel (r : pystr) :
  JSONObject scan_value fuel (34 :: r)
  = scan_map dict_of_pairs (object_pairs scan_value fuel r).
Proof. reflexivity. Qed.

Lemma object_pairs_written (prs : list (pystr * pyval))
    (kc : list (pystr * pystr)) room level :
  Forall2 (fun p q => fst q = fst p
                      /\ iterencode None room level (snd p) = Ok (snd q))
          prs kc ->
  Forall (fun p => read_back (snd p)) prs ->
  Forall (fun p => text_ok (fst p) = true /\ json_value (snd p) = true) prs ->
  prs <> [] ->
  forall rest k n,
    closes rest = true ->
    (List.length (pairs_text kc rest) < k)%nat ->
    (List.length (pairs_text kc rest) < n)%nat ->
    object_pairs (scan_once n room) k (pairs_text kc rest) = Parsed prs rest.
Proof.
  induction 1 as [|[key v] [key' cv] prs kc [Hkey Hv] Hrest IH];
    intros Hrb Hok Hne rest k n Hr Hk Hn; [congruence|].
  simpl in Hkey, Hv. subst key'.
  inversion Hrb as [|? ? Hrbv Hrbs]; subst. simpl in Hrbv.
  inversion Hok as [|? ? [Htext Hjv] Hoks]; subst. simpl in Htext, Hjv.
  destruct k as [|k]; [inversion Hk|].
  destruct (iterencode_opens v room level cv Hjv Hv) as [h [t [-> [Hws Hh]]]].
  cbn [pairs_text] in *.
  set (tail := match kc with
               | [] => 125 :: rest
               | _ :: _ => 44 :: 32 :: 34 :: pairs_text kc rest
               end) in *.
  assert (Htail : closes tail = true) by (unfold tail; now destruct kc).
  cbn [object_pairs].
  rewrite scanstring_escaped;
    [|assumption|rewrite List.length_app; pose proof (escaped_length key); lia].
  cbn [skip_ws is_ws N.eqb Pos.eqb orb app].
  rewrite Hws.
  change (h :: t ++ tail) with ((h :: t) ++ tail).
  rewrite List.length_app in Hk, Hn. cbn [List.length] in Hk, Hn.
  rewrite (Hrbv room level (h :: t) tail n Hjv Hv Htail) by lia.
  unfold tail in *. clear tail Htail.
  destruct Hrest as [|p q prs' kc' Hp Hrest'].
  - reflexivity.
  - cbn [skip_ws is_ws N.eqb Pos.eqb orb].
    rewrite List.length_app in Hk, Hn. cbn [List.length] in Hk, Hn.
    rewrite IH; [reflexivity|assumption|assumption|discriminate|assumption| |];
      lia.
Qed.

Lemma chunks_of_pairs (prs : list (pystr * pyval)) room level :
  forall chunks,
    map_result (fun kv : pyval * pyval =>
                  let (k, v) := kv in
                  (kt <- key_text k ;;
                   c <- iterencode None room level v ;;
                   Ok (encode_basestring_ascii kt ++ lit ": " ++ c))%result)
               (map to_item prs) = Ok chunks ->
    exists kc,
      chunks = map pair_chunk kc
      /\ Forall2 (fun p q => fst q = fst p
                             /\ iterencode None room level (snd p)
                                = Ok (snd q))
                 prs kc.
Proof.
  induction prs as [|[k v] prs IH]; intros chunks H.
  - injection H as <-. exists []. split; [reflexivity|constructor].
  - cbn [map to_item fst snd map_result key_text rbind] in H.
    destruct (iterencode None room level v) as [cv|e] eqn:Hv; [|discriminate].
    cbn [rbind] in H.
    destruct (map_result _ (map to_item prs)) as [cs|e] eqn:Hcs; [|discriminate].
    injection H as <-. destruct (IH cs eq_refl) as [kc [-> Hkc]].
    exists ((k, cv) :: kc). split; [reflexivity|].
    constructor; [now split|assumption].
Qed.

Lemma str_keys_to_item (prs : list (pystr * pyval)) :
  str_keys (map to_item prs) = Some (map fst prs).
Proof.
  induction prs as [|[k v] prs IH]; simpl; [reflexivity|]. now rewrite IH.
Qed.

Lemma json_value_dict (prs : list (pystr * pyval)) :
  json_value (PyDict (map to_item prs)) = true ->
  distinct (map fst prs) = true
  /\ Forall (fun p => text_ok (fst p) = true /\ json_value (snd p) = true) prs.
Proof.
  cbn [json_value]. rewrite str_keys_to_item. intro H.
  apply andb_true_iff in H as [H Hvals].
  apply andb_true_iff in H as [Hkeys Hdist]. split; [assumption|].
  rewrite forallb_forall in Hkeys, Hvals. apply Forall_forall.
  intros [k v] Hin. split.
  - apply Hkeys. now apply (in_map fst) in Hin.
  - exact (Hvals _ (in_map to_item _ _ Hin)).
Qed.

Lemma join_opens (chunks : list pystr) (c : pystr) (tail : pystr) :
  opens c -> opens (join (lit ", ") (c :: chunks) ++ tail).
Proof.
  intro H. apply opens_app. destruct chunks; simpl; [assumption|].
  now apply opens_app.
Qed.

(** Every JSON value that [json.dumps] writes is read back by the scanner,
    with the text after it left over. *)
Lemma scan_once_written (v : pyval) : read_back v.
Proof.
  induction v as [ |b|z|f|s|items IH|items IH|items IH|name] using pyval_ind';
    intros room level text rest fuel Hjv Henc Hr Hf; try discriminate;
    (destruct fuel as [|n]; [inversion Hf|]).
  - injection Henc as <-. reflexivity.
  - destruct b; injection Henc as <-; reflexivity.
  - apply int_str_ok in Henc as [-> Hs]. now apply scan_once_int.
  - injection Henc as <-. unfold encode_basestring_ascii.
    cbn [app]. rewrite <- List.app_assoc. cbn [app].
    rewrite scan_once_step. cbn [N.eqb Pos.eqb].
    rewrite scanstring_escaped; [reflexivity|exact Hjv|].
    rewrite List.length_app. pose proof (escaped_length s). lia.
  - cbn [iterencode] in Henc. destruct room as [|room]; [discriminate|].
    destruct items as [|x xs].
    { injection Henc as <-. reflexivity. }
    destruct (map_result _ (x :: xs)) as [chunks|e] eqn:Hm; [|discriminate].
    injection Henc as <-. apply map_result_ok in Hm.
    rewrite container_compact in *.
    change (lit "[") with [91] in *. change (lit "]") with [93] in *.
    rewrite <- !List.app_assoc in *. cbn [app] in *.
    rewrite scan_once_step. cbn [N.eqb Pos.eqb enter].
    cbn [List.length] in Hf.
    rewrite JSONArray_items.
    + rewrite (array_items_written (x :: xs) chunks room (S level));
        try assumption; try lia; [reflexivity|discriminate].
    + inversion Hm as [|? c ? cs Hx Hxs]; subst.
      apply join_opens. cbn [json_value forallb] in Hjv.
      apply andb_true_iff in Hjv as [Hjx _].
      exact (iterencode_opens x room (S level) c Hjx Hx).
  - cbn [iterencode] in Henc. destruct room as [|room]; [discriminate|].
    destruct items as [|x xs].
    { injection Henc as <-. reflexivity. }
    destruct (str_keys (x :: xs)) as [ks|] eqn:Hks;
      [|cbn [json_value] in Hjv; rewrite Hks in Hjv; discriminate].
    destruct (str_keys_items _ _ Hks) as [prs [Eprs _]].
    rewrite Eprs in *. clear Hks.
    destruct (map_result _ (map to_item prs)) as [chunks|e] eqn:Hm;
      [|discriminate].
    injection Henc as <-.
    destruct (chunks_of_pairs prs room (S level) chunks Hm) as [kc [-> Hkc]].
    destruct (json_value_dict prs Hjv) as [Hdist Hok].
    assert (Hne : prs <> []) by (destruct prs; discriminate).
    assert (Hkne : kc <> []) by (inversion Hkc; subst; congruence).
    rewrite container_compact in *.
    change (lit "{") with [123] in *. change (lit "}") with [125] in *.
    rewrite <- !List.app_assoc in *. cbn [app] in *.
    rewrite pairs_text_join in * by assumption.
    rewrite scan_once_step. cbn [N.eqb Pos.eqb enter].
    rewrite JSONObject_pairs.
    cbn [List.length] in Hf.
    rewrite (object_pairs_written prs kc room (S level)); try assumption;
      try lia.
    + cbn [scan_map]. now rewrite dict_of_pairs_distinct.
    + rewrite Forall_map in IH. exact IH.
Qed.

(** [json.loads(json.dumps(v)) == v] for a JSON value that [json.dumps]
    writes. *)
Lemma json_loads_dumps (v : pyval) (text : pystr) :
  json_value v = true ->
  json_dumps None v = Ok text ->
  json_loads text = Ok v.
Proof.
  intros Hjv Henc. unfold json_dumps in Henc.
  destruct (iterencode_opens v stack_room 0%nat text Hjv Henc)
    as [c [r [E [Hws Hc]]]].
  pose proof (scan_once_written v stack_room 0%nat text []
                (S (List.length text)) Hjv Henc eq_refl) as H.
  rewrite List.app_nil_r in H. specialize (H (Nat.lt_succ_diag_r _)).
  unfold json_loads. rewrite E in *.
  rewrite strip_prefix_head.
  - rewrite skip_ws_head by assumption. now rewrite H.
  - pose proof (iterencode_ascii v None stack_room 0%nat _ Henc) as Ha.
    inversion Ha; subst. lia.
Qed.

(** ** The recursion bound of the scanner is never met *)

Lemma scan_map_parsed {A B} (f : A -> B) (x : scan A) (b : B) (r : pystr) :
  scan_map f x = Parsed b r -> exists a, x = Parsed a r /\ b = f a.
Proof. destruct x; simpl; intro H; try discriminate. injection H as <- <-. eauto. Qed.

Lemma scan_map_fuel {A B} (f : A -> B) (x : scan A) :
  scan_map f x = OutOfFuel -> x = OutOfFuel.
Proof. now destruct x. Qed.

Lemma scan_map_stopped {A B} (f : A -> B) (x : scan A) (e : exn) :
  scan_map f x = Stopped e -> x = Stopped e.
Proof. destruct x; simpl; intro H; try discriminate. now injection H as ->. Qed.

Lemma skip_ws_length (s : pystr) : (List.length (skip_ws s) <= List.length s)%nat.
Proof.
  induction s as [|c s IH]; simpl; [lia|]. destruct (is_ws c); simpl; lia.
Qed.

Lemma strip_prefix_length (p s r : pystr) :
  strip_prefix p s = Some r -> List.length s = (List.length p + List.length r)%nat.
Proof.
  revert s. induction p as [|a p IH]; intros s H; simpl in *.
  - now injection H as <-.
  - destruct s as [|b s]; [discriminate|]. destruct (a =? b); [|discriminate].
    simpl. now rewrite (IH s H).
Qed.

Lemma decode_uXXXX_length (s r : pystr) (x : N) :
  decode_uXXXX s = Some (x, r) -> List.length s = (4 + List.length r)%nat.
Proof.
  unfold decode_uXXXX. destruct s as [|a [|b [|c [|d s]]]]; try discriminate.
  destruct (hex_value a), (hex_value b), (hex_value c), (hex_value d);
    try discriminate.
  intro H. now injection H as _ <-.
Qed.

Lemma scan_u_escape_length (s r : pystr) (x : N) :
  scan_u_escape s = Some (x, r) -> (List.length r < List.length s)%nat.
Proof.
  unfold scan_u_escape.
  destruct (decode_uXXXX s) as [[uni r1]|] eqn:E1; [|discriminate].
  apply decode_uXXXX_length in E1.
  destruct (in_range 0xD800 0xDBFF uni);
    [|intro H; injection H as _ <-; lia].
  destruct r1 as [|a [|b r2]]; try (intro H; injection H as _ <-; simpl in *; lia).
  destruct ((a =? 92) && (b =? 117)); [|intro H; injection H as _ <-; simpl in *; lia].
  destruct (decode_uXXXX r2) as [[uni2 r3]|] eqn:E2; [|discriminate].
  apply decode_uXXXX_length in E2. simpl in E1.
  destruct (in_range 0xDC00 0xDFFF uni2); intro H; injection H as _ <-;
    simpl; lia.
Qed.

Lemma scanstring_progress (n : nat) : progress (scanstring n).
Proof.
  induction n as [|n IH]; intros s a r H; [discriminate|].
  destruct s as [|c s]; [discriminate|]. cbn [scanstring] in H.
  destruct (c =? 34); [injection H as _ <-; simpl; lia|].
  destruct (c =? 92).
  - destruct s as [|e s1]; [discriminate|]. destruct (e =? 117).
    + destruct (scan_u_escape s1) as [[ch r2]|] eqn:E; [|discriminate].
      apply scan_u_escape_length in E.
      apply scan_map_parsed in H as [a' [H _]]. apply IH in H. simpl. lia.
    + destruct (backslash e); [|discriminate].
      apply scan_map_parsed in H as [a' [H _]]. apply IH in H. simpl. lia.
  - destruct (c <? 0x20); [discriminate|].
    apply scan_map_parsed in H as [a' [H _]]. apply IH in H. simpl. lia.
Qed.

Lemma scanstring_fuelled (n : nat) : fuelled (scanstring n) n.
Proof.
  induction n as [|n IH]; intros s Hs H; [inversion Hs|].
  destruct s as [|c s]; [discriminate|]. cbn [scanstring] in H.
  simpl in Hs.
  destruct (c =? 34); [discriminate|].
  destruct (c =? 92).
  - destruct s as [|e s1]; [discriminate|]. destruct (e =? 117).
    + destruct (scan_u_escape s1) as [[ch r2]|] eqn:E; [|discriminate].
      apply scan_u_escape_length in E. apply scan_map_fuel in H.
      apply (IH r2); [simpl in Hs; lia|assumption].
    + destruct (backslash e); [|discriminate].
      apply scan_map_fuel in H. apply (IH s1); [simpl in Hs; lia|assumption].
  - destruct (c <? 0x20); [discriminate|].
    apply scan_map_fuel in H. apply (IH s); [lia|assumption].
Qed.

(** [scanstring] raises nothing but the refusal. *)
Lemma scanstring_stopped (n : nat) (s : pystr) (e : exn) :
  scanstring n s <> Stopped e.
Proof.
  revert s. induction n as [|n IH]; intros s H; [discriminate|].
  destruct s as [|c s]; [discriminate|]. cbn [scanstring] in H.
  destruct (c =? 34); [discriminate|].
  destruct (c =? 92).
  - destruct s as [|x s1]; [discriminate|]. destruct (x =? 117).
    + destruct (scan_u_escape s1) as [[ch r2]|]; [|discriminate].
      apply scan_map_stopped in H. exact (IH _ H).
    + destruct (backslash x); [|discriminate].
      apply scan_map_stopped in H. exact (IH _ H).
  - destruct (c <? 0x20); [discriminate|].
    apply scan_map_stopped in H. exact (IH _ H).
Qed.

Lemma take_digits_length (s ds r : pystr) :
  take_digits s = (ds, r) -> (List.length r <= List.length s)%nat.
Proof.
  revert ds r. induction s as [|c s IH]; simpl; intros ds r H.
  - injection H as _ <-. simpl. lia.
  - destruct (is_digit c).
    + destruct (take_digits s) as [ds' r'] eqn:E. injection H as _ <-.
      specialize (IH _ _ eq_refl). lia.
    + injection H as _ <-. simpl. lia.
Qed.

Lemma match_integer_length (s t r : pystr) :
  match_integer s = Some (t, r) -> (List.length r < List.length s)%nat.
Proof.
  unfold match_integer.
  assert (Hdigits : forall sign s1,
    (List.length s1 <= List.length s)%nat ->
    match s1 with
    | [] => None
    | c :: r0 =>
        if c =? 48 then Some (sign ++ [48], r0)
        else if in_range 49 57 c then
               let (ds, r') := take_digits r0 in Some (sign ++ c :: ds, r')
             else None
    end = Some (t, r) -> (List.length r < List.length s)%nat).
  { intros sign [|c r0] Hle H; [discriminate|]. simpl in Hle.
    destruct (c =? 48); [injection H as _ <-; lia|].
    destruct (in_range 49 57 c); [|discriminate].
    destruct (take_digits r0) as [ds r'] eqn:E. injection H as _ <-.
    apply take_digits_length in E. lia. }
  destruct s as [|c s']; [discriminate|].
  destruct (c =? 45);
    [apply (Hdigits [45] s')|apply (Hdigits [] (c :: s'))]; simpl; lia.
Qed.

Lemma match_frac_length (s t r : pystr) :
  match_frac s = (t, r) -> (List.length r <= List.length s)%nat.
Proof.
  unfold match_frac. destruct s as [|c s']; [intro H; injection H as _ <-; lia|].
  destruct (c =? 46); [|intro H; injection H as _ <-; lia].
  destruct (take_digits s') as [[|d ds] r'] eqn:E; intro H; injection H as _ <-;
    [lia|]. apply take_digits_length in E. simpl. lia.
Qed.

Lemma match_exp_length (s t r : pystr) :
  match_exp s = (t, r) -> (List.length r <= List.length s)%nat.
Proof.
  unfold match_exp. destruct s as [|c s']; [intro H; injection H as _ <-; lia|].
  destruct ((c =? 101) || (c =? 69)); [|intro H; injection H as _ <-; lia].
  assert (Hsign : forall sign r1,
    (List.length r1 <= List.length s')%nat ->
    match take_digits r1 with
    | ([], _) => ([], c :: s')
    | (ds, r2) => (c :: sign ++ ds, r2)
    end = (t, r) -> (List.length r <= List.length (c :: s'))%nat).
  { intros sign r1 Hle H.
    destruct (take_digits r1) as [[|d ds] r2] eqn:E; injection H as _ <-; [lia|].
    apply take_digits_length in E. simpl. lia. }
  destruct s' as [|d r']; [apply (Hsign [] []); lia|].
  destruct ((d =? 45) || (d =? 43));
    [apply (Hsign [d] r')|apply (Hsign [] (d :: r'))]; simpl; lia.
Qed.

Lemma match_number_length (s r : pystr) (x : result pyval) :
  match_number s = Some (x, r) -> (List.length r < List.length s)%nat.
Proof.
  unfold match_number.
  destruct (match_integer s) as [[t r0]|] eqn:E0; [|discriminate].
  destruct (match_frac r0) as [frac r1] eqn:E1.
  destruct (match_exp r1) as [exp r2] eqn:E2.
  apply match_integer_length in E0. apply match_frac_length in E1.
  apply match_exp_length in E2.
  destruct frac, exp; intro H; injection H as _ <-; lia.
Qed.

Lemma scan_atom_progress : progress scan_atom.
Proof.
  intros s a r. unfold scan_atom.
  repeat match goal with
         | |- match strip_prefix ?p s with _ => _ end = _ -> _ =>
             let E := fresh "E" in
             destruct (strip_prefix p s) eqn:E;
             [apply strip_prefix_length in E; intro H; injection H as _ <-;
              rewrite E; simpl; lia|]
         end.
  destruct (match_number s) as [[[v|e] r']|] eqn:Enum.
  { apply match_number_length in Enum. intro H. now injection H as _ <-. }
  { discriminate. }
  repeat match goal with
         | |- match strip_prefix ?p s with _ => _ end = _ -> _ =>
             let E := fresh "E" in
             destruct (strip_prefix p s) eqn:E;
             [apply strip_prefix_length in E; intro H; injection H as _ <-;
              rewrite E; simpl; lia|]
         end.
  discriminate.
Qed.

Lemma scan_atom_fuelled (s : pystr) : scan_atom s <> OutOfFuel.
Proof.
  unfold scan_atom.
  repeat match goal with
         | |- match strip_prefix ?p s with _ => _ end <> _ =>
             destruct (strip_prefix p s)
         end; try discriminate.
  destruct (match_number s) as [[[v|e] r']|]; try discriminate.
  repeat match goal with
         | |- match strip_prefix ?p s with _ => _ end <> _ =>
             destruct (strip_prefix p s)
         end; discriminate.
Qed.

Lemma array_items_progress (f : pystr -> scan pyval) (k : nat) :
  progress f -> progress (array_items f k).
Proof.
  intro Hf. induction k as [|k IH]; intros s a r H; [discriminate|].
  cbn [array_items] in H.
  destruct (f s) as [v r0| |e|] eqn:E; try discriminate. apply Hf in E.
  pose proof (skip_ws_length r0) as Hws.
  destruct (skip_ws r0) as [|c r1]; [discriminate|]. simpl in Hws.
  destruct (c =? 93); [injection H as _ <-; lia|].
  destruct (c =? 44); [|discriminate].
  apply scan_map_parsed in H as [l [H _]]. apply IH in H.
  pose proof (skip_ws_length r1). lia.
Qed.

Lemma array_items_fuelled (f : pystr -> scan pyval) (bound k : nat) :
  progress f -> fuelled f bound ->
  forall s, (List.length s < k)%nat -> (List.length s < bound)%nat ->
            array_items f k s <> OutOfFuel.
Proof.
  intros Hp Hf. induction k as [|k IH]; intros s Hk Hb H; [inversion Hk|].
  cbn [array_items] in H.
  destruct (f s) as [v r0| |e|] eqn:E; try discriminate.
  - apply Hp in E. pose proof (skip_ws_length r0) as Hws.
    destruct (skip_ws r0) as [|c r1]; [discriminate|]. simpl in Hws.
    destruct (c =? 93); [discriminate|].
    destruct (c =? 44); [|discriminate].
    apply scan_map_fuel in H. pose proof (skip_ws_length r1).
    apply (IH (skip_ws r1)); [lia|lia|assumption].
  - now apply (Hf s).
Qed.

Lemma JSONArray_progress (f : pystr -> scan pyval) (k : nat) :
  progress f -> progress (JSONArray f k).
Proof.
  intros Hf s a r H. unfold JSONArray in H.
  pose proof (skip_ws_length s) as Hws.
  destruct (skip_ws s) as [|c r0]; [discriminate|]. simpl in Hws.
  destruct (c =? 93); [injection H as _ <-; lia|].
  apply scan_map_parsed in H as [l [H _]].
  apply (array_items_progress f k Hf) in H. simpl in H. lia.
Qed.

Lemma JSONArray_fuelled (f : pystr -> scan pyval) (bound k : nat) :
  progress f -> fuelled f bound ->
  forall s, (List.length s < k)%nat -> (List.length s < bound)%nat ->
            JSONArray f k s <> OutOfFuel.
Proof.
  intros Hp Hf s Hk Hb H. unfold JSONArray in H.
  pose proof (skip_ws_length s) as Hws.
  destruct (skip_ws s) as [|c r0]; [discriminate|].
  destruct (c =? 93); [discriminate|].
  apply scan_map_fuel in H.
  apply (array_items_fuelled f bound k Hp Hf (c :: r0)); [lia|lia|assumption].
Qed.

Lemma object_pairs_progress (f : pystr -> scan pyval) (k : nat) :
  progress f -> progress (object_pairs f k).
Proof.
  intro Hf. induction k as [|k IH]; intros s a r H; [discriminate|].
  cbn [object_pairs] in H.
  destruct (scanstring (S (List.length s)) s) as [key r0| |e|] eqn:Ek;
    try discriminate.
  apply scanstring_progress in Ek.
  pose proof (skip_ws_length r0) as Hw0.
  destruct (skip_ws r0) as [|c r1]; [discriminate|]. simpl in Hw0.
  destruct (c =? 58); [|discriminate].
  pose proof (skip_ws_length r1) as Hw1.
  destruct (f (skip_ws r1)) as [v r2| |e|] eqn:Ev; try discriminate.
  apply Hf in Ev. pose proof (skip_ws_length r2) as Hw2.
  destruct (skip_ws r2) as [|d r3]; [discriminate|]. simpl in Hw2.
  destruct (d =? 125); [injection H as _ <-; lia|].
  destruct (d =? 44); [|discriminate].
  pose proof (skip_ws_length r3) as Hw3.
  destruct (skip_ws r3) as [|q r4]; [discriminate|]. simpl in Hw3.
  destruct (q =? 34); [|discriminate].
  apply scan_map_parsed in H as [l [H _]]. apply IH in H. lia.
Qed.

Lemma object_pairs_fuelled (f : pystr -> scan pyval) (bound k : nat) :
  progress f -> fuelled f bound ->
  forall s, (List.length s < k)%nat -> (List.length s < bound)%nat ->
            object_pairs f k s <> OutOfFuel.
Proof.
  intros Hp Hf. induction k as [|k IH]; intros s Hk Hb H; [inversion Hk|].
  cbn [object_pairs] in H.
  destruct (scanstring (S (List.length s)) s) as [key r0| |e|] eqn:Ek;
    try discriminate.
  - apply scanstring_progress in Ek.
    pose proof (skip_ws_length r0) as Hw0.
    destruct (skip_ws r0) as [|c r1]; [discriminate|]. simpl in Hw0.
    destruct (c =? 58); [|discriminate].
    pose proof (skip_ws_length r1) as Hw1.
    destruct (f (skip_ws r1)) as [v r2| |e|] eqn:Ev; try discriminate.
    + apply Hp in Ev. pose proof (skip_ws_length r2) as Hw2.
      destruct (skip_ws r2) as [|d r3]; [discriminate|]. simpl in Hw2.
      destruct (d =? 125); [discriminate|].
      destruct (d =? 44); [|discriminate].
      pose proof (skip_ws_length r3) as Hw3.
      destruct (skip_ws r3) as [|q r4]; [discriminate|]. simpl in Hw3.
      destruct (q =? 34); [|discriminate].
      apply scan_map_fuel in H. apply (IH r4); [lia|lia|assumption].
    + apply (Hf (skip_ws r1)); [lia|assumption].
  - apply (scanstring_fuelled (S (List.length s)) s); [lia|assumption].
Qed.

Lemma JSONObject_progress (f : pystr -> scan pyval) (k : nat) :
  progress f -> progress (JSONObject f k).
Proof.
  intros Hf s a r H. unfold JSONObject in H.
  pose proof (skip_ws_length s) as Hws.
  destruct (skip_ws s) as [|c r0]; [discriminate|]. simpl in Hws.
  destruct (c =? 125); [injection H as _ <-; lia|].
  destruct (c =? 34); [|discriminate].
  apply scan_map_parsed in H as [l [H _]].
  apply (object_pairs_progress f k Hf) in H. lia.
Qed.

Lemma JSONObject_fuelled (f : pystr -> scan pyval) (bound k : nat) :
  progress f -> fuelled f bound ->
  forall s, (List.length s < k)%nat -> (List.length s < bound)%nat ->
            JSONObject f k s <> OutOfFuel.
Proof.
  intros Hp Hf s Hk Hb H. unfold JSONObject in H.
  pose proof (skip_ws_length s) as Hws.
  destruct (skip_ws s) as [|c r0]; [discriminate|]. simpl in Hws.
  destruct (c =? 125); [discriminate|].
  destruct (c =? 34); [|discriminate].
  apply scan_map_fuel in H.
  apply (object_pairs_fuelled f bound k Hp Hf r0); [lia|lia|assumption].
Qed.

Lemma scan_once_progress (n : nat) : forall room, progress (scan_once n room).
Proof.
  induction n as [|n IH]; intros room s a r H; [discriminate|].
  destruct s as [|c s]; [discriminate|]. rewrite scan_once_step in H.
  destruct (c =? 34).
  { apply scan_map_parsed in H as [x [H _]].
    apply scanstring_progress in H. simpl. lia. }
  destruct (c =? 123).
  { destruct room as [|room]; [discriminate|]. cbn [enter] in H.
    apply (JSONObject_progress _ _ (IH room)) in H. simpl. lia. }
  destruct (c =? 91).
  { destruct room as [|room]; [discriminate|]. cbn [enter] in H.
    apply (JSONArray_progress _ _ (IH room)) in H. simpl. lia. }
  now apply scan_atom_progress in H.
Qed.

(** With more fuel than the text has characters, the scanner gives a
    value, refuses or raises: it does not meet its bound. *)
Lemma scan_once_fuel (n : nat) : forall room, fuelled (scan_once n room) n.
Proof.
  induction n as [|n IH]; intros room s Hs H; [inversion Hs|].
  destruct s as [|c s]; [discriminate|]. rewrite scan_once_step in H.
  simpl in Hs.
  destruct (c =? 34).
  { apply scan_map_fuel in H.
    apply (scanstring_fuelled (S (List.length s)) s); [lia|assumption]. }
  destruct (c =? 123).
  { destruct room as [|room]; [discriminate|]. cbn [enter] in H.
    apply (JSONObject_fuelled _ n n (scan_once_progress n room) (IH room) s);
      [lia|lia|assumption]. }
  destruct (c =? 91).
  { destruct room as [|room]; [discriminate|]. cbn [enter] in H.
    apply (JSONArray_fuelled _ n n (scan_once_progress n room) (IH room) s);
      [lia|lia|assumption]. }
  now apply scan_atom_fuelled in H.
Qed.

(** So [json_loads] raises [JSONDecodeError] only where the scanner
    refuses the text or something follows the value. *)
Lemma json_loads_fuel (s : pystr) :
  scan_once (S (List.length s)) stack_room (skip_ws s) <> OutOfFuel.
Proof.
  apply scan_once_fuel. pose proof (skip_ws_length s). lia.
Qed.

(** ** What [json.loads] raises *)

Lemma match_number_raise (s r : pystr) (e : exn) :
  match_number s = Some (Raise e, r) -> e = ValueError.
Proof.
  unfold match_number. destruct (match_integer s) as [[t r0]|]; [|discriminate].
  destruct (match_frac r0) as [frac r1]. destruct (match_exp r1) as [exp r2].
  destruct frac, exp; try discriminate.
  unfold int_of_str. destruct (within_digits t); [discriminate|].
  intro H. now injection H as <- _.
Qed.

Lemma scan_atom_stopped (s : pystr) (e : exn) :
  scan_atom s = Stopped e -> e = ValueError.
Proof.
  unfold scan_atom.
  repeat match goal with
         | |- match strip_prefix ?p s with _ => _ end = _ -> _ =>
             destruct (strip_prefix p s); [discriminate|]
         end.
  destruct (match_number s) as [[[v|e'] r']|] eqn:E; [discriminate| |].
  { apply match_number_raise in E. intro H. injection H as <-. exact E. }
  repeat match goal with
         | |- match strip_prefix ?p s with _ => _ end = _ -> _ =>
             destruct (strip_prefix p s); [discriminate|]
         end.
  discriminate.
Qed.

Lemma array_items_stopped (f : pystr -> scan pyval) (k : nat) :
  (forall s e, f s = Stopped e -> limit_error e) ->
  forall s e, array_items f k s = Stopped e -> limit_error e.
Proof.
  intro Hf. induction k as [|k IH]; intros s e H; [discriminate|].
  cbn [array_items] in H.
  destruct (f s) as [v r0| |e'|] eqn:E; try discriminate.
  - destruct (skip_ws r0) as [|c r1]; [discriminate|].
    destruct (c =? 93); [discriminate|].
    destruct (c =? 44); [|discriminate].
    apply scan_map_stopped in H. exact (IH _ _ H).
  - injection H as <-. exact (Hf _ _ E).
Qed.

Lemma object_pairs_stopped (f : pystr -> scan pyval) (k : nat) :
  (forall s e, f s = Stopped e -> limit_error e) ->
  forall s e, object_pairs f k s = Stopped e -> limit_error e.
Proof.
  intro Hf. induction k as [|k IH]; intros s e H; [discriminate|].
  cbn [object_pairs] in H.
  destruct (scanstring (S (List.length s)) s) as [key r0| |e'|] eqn:Ek;
    try discriminate.
  - destruct (skip_ws r0) as [|c r1]; [discriminate|].
    destruct (c =? 58); [|discriminate].
    destruct (f (skip_ws r1)) as [v r2| |e'|] eqn:Ev; try discriminate.
    + destruct (skip_ws r2) as [|d r3]; [discriminate|].
      destruct (d =? 125); [discriminate|].
      destruct (d =? 44); [|discriminate].
      destruct (skip_ws r3) as [|q r4]; [discriminate|].
      destruct (q =? 34); [|discriminate].
      apply scan_map_stopped in H. exact (IH _ _ H).
    + injection H as <-. exact (Hf _ _ Ev).
  - now apply scanstring_stopped in Ek.
Qed.

Lemma scan_once_stopped (n : nat) :
  forall room s e, scan_once n room s = Stopped e -> limit_error e.
Proof.
  induction n as [|n IH]; intros room s e H; [discriminate|].
  destruct s as [|c s]; [discriminate|]. rewrite scan_once_step in H.
  destruct (c =? 34).
  { apply scan_map_stopped in H. now apply scanstring_stopped in H. }
  destruct (c =? 123).
  { destruct room as [|room]; [injection H as <-; now right|].
    cbn [enter] in H. unfold JSONObject in H.
    destruct (skip_ws s) as [|d r0]; [discriminate|].
    destruct (d =? 125); [discriminate|].
    destruct (d =? 34); [|discriminate].
    apply scan_map_stopped in H.
    exact (object_pairs_stopped _ _ (IH room) _ _ H). }
  destruct (c =? 91).
  { destruct room as [|room]; [injection H as <-; now right|].
    cbn [enter] in H. unfold JSONArray in H.
    destruct (skip_ws s) as [|d r0]; [discriminate|].
    destruct (d =? 93); [discriminate|].
    apply scan_map_stopped in H.
    exact (array_items_stopped _ _ (IH room) _ _ H). }
  apply scan_atom_stopped in H. now left.
Qed.

(** [json.loads] raises [JSONDecodeError], or the [ValueError] of an
    integer too long, or the [RecursionError] of a document too deep. *)
Lemma json_loads_raise (text : pystr) (e : exn) :
  json_loads text = Raise e -> e = JSONDecodeError \/ limit_error e.
Proof.
  unfold json_loads. destruct (strip_prefix [0xFEFF] text);
    [intro H; injection H as <-; now left|].
  destruct (scan_once _ _ (skip_ws text)) as [v' r| |e'|] eqn:E;
    try (intro H; injection H as <-; now left).
  - destruct (skip_ws r); [discriminate|intro H; injection H as <-; now left].
  - intro H. injection H as <-. right. exact (scan_once_stopped _ _ _ _ E).
Qed.

(** ** What [json.loads] returns can be written again *)

Lemma nb_digits_uint_chars (d : Decimal.uint) :
  List.length (uint_chars d) = Decimal.nb_digits d.
Proof. induction d; simpl; congruence. Qed.

Lemma nb_digits_uint_of_chars (s : pystr) :
  Decimal.nb_digits (uint_of_chars s) = List.length s.
Proof.
  induction s as [|c s IH]; [reflexivity|]. cbn [uint_of_chars List.length].
  repeat match goal with
         | |- context [if ?b then _ else _] => destruct b
         end; simpl; congruence.
Qed.

Lemma digits_uint_chars (d : Decimal.uint) : digits (uint_chars d) = uint_chars d.
Proof. destruct d; reflexivity. Qed.

(** The text of the number that a text stands for is no longer than it
    (leading zeros go). *)
Lemma digits_of_int (u : Decimal.int) :
  (List.length (digits (int_repr (Z.of_int u)))
   <= Nat.max 1 (match u with
                 | Decimal.Pos d | Decimal.Neg d => Decimal.nb_digits d
                 end))%nat.
Proof.
  unfold int_repr. rewrite DecimalZ.to_of.
  destruct u as [d|d]; cbn [Decimal.norm].
  - rewrite digits_uint_chars, nb_digits_uint_chars.
    destruct d as [|d|d|d|d|d|d|d|d|d|d];
      try (etransitivity; [apply nb_digits_unorm; discriminate|lia]).
    simpl. lia.
  - pose proof (nb_digits_nzhead d) as Hn.
    destruct (Decimal.nzhead d) eqn:E; cbn [digits N.eqb Pos.eqb uint_chars];
      cbn [List.length]; rewrite ?nb_digits_uint_chars;
      cbn [Decimal.nb_digits] in Hn; lia.
Qed.

Lemma int_of_text_short (t : pystr) :
  within_digits t = true -> short (int_of_text t) = true.
Proof.
  unfold short, within_digits. intro H.
  apply Nat.leb_le in H. apply Nat.leb_le.
  assert (Hlen : (List.length (digits (int_repr (int_of_text t)))
                  <= Nat.max 1 (List.length (digits t)))%nat).
  { destruct t as [|c r]; [vm_compute; lia|].
    cbn [int_of_text digits]. destruct (c =? 45).
    - etransitivity; [apply digits_of_int|]. cbv beta iota.
      rewrite nb_digits_uint_of_chars. lia.
    - etransitivity; [apply digits_of_int|]. cbv beta iota.
      rewrite nb_digits_uint_of_chars. lia. }
  unfold int_max_str_digits in *. lia.
Qed.

Lemma match_number_writable (s r : pystr) (v : pyval) (room : nat) :
  match_number s = Some (Ok v, r) -> writable room v.
Proof.
  unfold match_number. destruct (match_integer s) as [[t r0]|]; [|discriminate].
  destruct (match_frac r0) as [frac r1]. destruct (match_exp r1) as [exp r2].
  destruct frac, exp; intro H; try (injection H as <- _; now split).
  unfold int_of_str in H. destruct (within_digits t) eqn:E; [|discriminate].
  injection H as <- _. split; [reflexivity|]. now apply int_of_text_short.
Qed.

Lemma scan_atom_writable (s r : pystr) (v : pyval) (room : nat) :
  scan_atom s = Parsed v r -> writable room v.
Proof.
  unfold scan_atom.
  repeat match goal with
         | |- match strip_prefix ?p s with _ => _ end = _ -> _ =>
             destruct (strip_prefix p s);
             [intro H; injection H as <- _; now split|]
         end.
  destruct (match_number s) as [[[v'|e] r']|] eqn:E; [| discriminate |].
  { apply (match_number_writable _ _ _ room) in E. intro H.
    now injection H as <- _. }
  repeat match goal with
         | |- match strip_prefix ?p s with _ => _ end = _ -> _ =>
             destruct (strip_prefix p s);
             [intro H; injection H as <- _; now split|]
         end.
  discriminate.
Qed.

Lemma array_items_writable (f : pystr -> scan pyval) (k room : nat) :
  (forall s v r, f s = Parsed v r -> writable room v) ->
  forall s l r, array_items f k s = Parsed l r ->
                forallb serializable l = true /\ forallb (fits room) l = true.
Proof.
  intro Hf. induction k as [|k IH]; intros s l r H; [discriminate|].
  cbn [array_items] in H.
  destruct (f s) as [v r0| |e|] eqn:E; try discriminate.
  apply Hf in E as [E1 E2].
  destruct (skip_ws r0) as [|c r1]; [discriminate|].
  destruct (c =? 93); [injection H as <- _; simpl; now rewrite E1, E2|].
  destruct (c =? 44); [|discriminate].
  apply scan_map_parsed in H as [l' [H ->]]. apply IH in H as [H1 H2].
  simpl. now rewrite E1, E2, H1, H2.
Qed.

Lemma object_pairs_writable (f : pystr -> scan pyval) (k room : nat) :
  (forall s v r, f s = Parsed v r -> writable room v) ->
  forall s l r, object_pairs f k s = Parsed l r ->
                Forall (fun p => writable room (snd p)) l.
Proof.
  intro Hf. induction k as [|k IH]; intros s l r H; [discriminate|].
  cbn [object_pairs] in H.
  destruct (scanstring (S (List.length s)) s) as [key r0| |e|];
    try discriminate.
  destruct (skip_ws r0) as [|c r1]; [discriminate|].
  destruct (c =? 58); [|discriminate].
  destruct (f (skip_ws r1)) as [v r2| |e|] eqn:Ev; try discriminate.
  apply Hf in Ev.
  destruct (skip_ws r2) as [|d r3]; [discriminate|].
  destruct (d =? 125);
    [injection H as <- _; constructor; [exact Ev|constructor]|].
  destruct (d =? 44); [|discriminate].
  destruct (skip_ws r3) as [|q r4]; [discriminate|].
  destruct (q =? 34); [|discriminate].
  apply scan_map_parsed in H as [l' [H ->]]. apply IH in H.
  now constructor.
Qed.

Lemma dict_set_writable (items : list (pyval * pyval)) key (v : pyval) room :
  forallb item_ok items = true -> forallb (item_fits room) items = true ->
  writable room v ->
  forallb item_ok (dict_set items key v) = true
  /\ forallb (item_fits room) (dict_set items key v) = true.
Proof.
  intros Hitems Hfits [Hv Hf]. induction items as [|[k x] items IH]; simpl.
  - now rewrite Hv, Hf.
  - simpl in Hitems, Hfits.
    apply andb_true_iff in Hitems as [Hkx Hrest].
    apply andb_true_iff in Hkx as [Hk Hx].
    apply andb_true_iff in Hfits as [Hkf Hrestf].
    apply andb_true_iff in Hkf as [Hkf Hxf].
    destruct (IH Hrest Hrestf) as [IH1 IH2].
    destruct k; try discriminate; simpl in *;
      try (rewrite Hx, Hxf, IH1, IH2, ?Hkf; now split).
    destruct (pystr_eqb s key); simpl.
    + now rewrite Hv, Hf, Hrest, Hrestf.
    + now rewrite Hx, Hxf, IH1, IH2.
Qed.

Lemma dict_of_pairs_writable (prs : list (pystr * pyval)) room :
  Forall (fun p => writable room (snd p)) prs ->
  writable (S room) (dict_of_pairs prs).
Proof.
  intro H. unfold dict_of_pairs, writable. cbn [serializable fits].
  fold item_ok. fold (item_fits room).
  assert (Hacc : forallb item_ok [] = true
                 /\ forallb (item_fits room) [] = true) by now split.
  revert Hacc. generalize (@nil (pyval * pyval)).
  induction H as [|[k v] prs Hv _ IH]; intros acc Hacc; simpl; [assumption|].
  apply IH. destruct Hacc. now apply dict_set_writable.
Qed.

Lemma scan_once_writable (n : nat) :
  forall room s v r, scan_once n room s = Parsed v r -> writable room v.
Proof.
  induction n as [|n IH]; intros room s v r H; [discriminate|].
  destruct s as [|c s]; [discriminate|]. rewrite scan_once_step in H.
  destruct (c =? 34).
  { apply scan_map_parsed in H as [x [_ ->]]. now split. }
  destruct (c =? 123).
  { destruct room as [|room]; [discriminate|]. cbn [enter] in H.
    unfold JSONObject in H. destruct (skip_ws s) as [|d r0]; [discriminate|].
    destruct (d =? 125); [injection H as <- _; now split|].
    destruct (d =? 34); [|discriminate].
    apply scan_map_parsed in H as [l [H ->]].
    apply (object_pairs_writable _ _ room (IH room)) in H.
    now apply dict_of_pairs_writable. }
  destruct (c =? 91).
  { destruct room as [|room]; [discriminate|]. cbn [enter] in H.
    unfold JSONArray in H. destruct (skip_ws s) as [|d r0]; [discriminate|].
    destruct (d =? 93); [injection H as <- _; now split|].
    apply scan_map_parsed in H as [l [H ->]].
    apply (array_items_writable _ _ room (IH room)) in H. exact H. }
  now apply (scan_atom_writable _ _ _ room) in H.
Qed.

(** [json.dumps(json.loads(text), indent=...)] does not raise. *)
Lemma json_loads_serializable (text : pystr) (v : pyval) :
  json_loads text = Ok v -> writable stack_room v.
Proof.
  unfold json_loads. destruct (strip_prefix [0xFEFF] text); [discriminate|].
  destruct (scan_once _ _ (skip_ws text)) as [v' r| |e|] eqn:E;
    try discriminate.
  destruct (skip_ws r); [|discriminate]. intro H. injection H as <-.
  exact (scan_once_writable _ _ _ _ _ E).
Qed.

(** ** The course of a call *)

Lemma json_value_serializable (v : pyval) :
  json_value v = true -> serializable v = true.
Proof.
  induction v as [ |b|z|f|s|items IH|items IH|items IH|name] using pyval_ind';
    simpl; intro H; try reflexivity; try discriminate.
  - rewrite forallb_forall in *. rewrite Forall_forall in IH. auto.
  - apply andb_true_iff in H as [Hkeys Hvals].
    destruct (str_keys items) as [ks|] eqn:Hks; [|discriminate].
    destruct (str_keys_items _ _ Hks) as [prs [-> _]].
    rewrite forallb_forall in *. rewrite Forall_forall in IH.
    intros kv Hin. specialize (Hvals _ Hin). specialize (IH _ Hin).
    apply in_map_iff in Hin as [[k x] [<- _]]. simpl in *. auto.
Qed.

Lemma json_value_payload (tool_name arguments : pyval) :
  json_value tool_name = true -> json_value arguments = true ->
  json_value (payload tool_name arguments) = true.
Proof.
  intros Ht Ha. unfold payload. cbn [json_value str_keys forallb].
  rewrite Ht, Ha. vm_compute. reflexivity.
Qed.

(** The payload takes two levels of the stack, and the name and the
    arguments what is left. *)
Lemma fits_payload (room : nat) (tool_name arguments : pyval) :
  fits (S (S room)) (payload tool_name arguments)
  = fits room tool_name && (fits room arguments && true) && true.
Proof. reflexivity. Qed.

(** The room that the helpers need. *)
Lemma fits_stack (v : pyval) : fits 4 v = true -> fits stack_room v = true.
Proof. apply fits_more. apply stack_room_payload. Qed.

(** What goes on the wire when [json.dumps] writes the payload: the body
    is its text byte for byte, and for a valid call the body reads back as
    the payload. *)
Lemma call_tool_wire_back (tool_name arguments : pyval) (text : pystr) :
  json_dumps None (payload tool_name arguments) = Ok text ->
  request_body tool_name arguments = Ok (map byte_of_N text)
  /\ (json_value tool_name = true -> json_value arguments = true ->
      parse_body (map byte_of_N text) = Ok (payload tool_name arguments)).
Proof.
  intro Htext. split; [now apply request_body_dumps|].
  intros Ht Ha. pose proof (json_value_payload _ _ Ht Ha) as Hp.
  unfold parse_body.
  rewrite decode_utf8_ascii by exact (iterencode_ascii _ _ _ _ _ Htext).
  simpl. now apply json_loads_dumps.
Qed.

(** What goes on the wire for a valid call within the limits. *)
Lemma call_tool_wire (tool_name arguments : pyval) :
  json_value tool_name = true -> json_value arguments = true ->
  fits stack_room (payload tool_name arguments) = true ->
  exists text,
    json_dumps None (payload tool_name arguments) = Ok text
    /\ request_body tool_name arguments = Ok (map byte_of_N text)
    /\ parse_body (map byte_of_N text) = Ok (payload tool_name arguments).
Proof.
  intros Ht Ha Hf. pose proof (json_value_payload _ _ Ht Ha) as Hp.
  destruct (proj1 (json_dumps_serializable None _)
                  (conj (json_value_serializable _ Hp) Hf)) as [text Htext].
  exists text. split; [assumption|].
  destruct (call_tool_wire_back _ _ _ Htext) as [Hbody Hback]. auto.
Qed.

(** The calls of [urlopen] of a call: the one, with the request it builds, when it gets that
    far; none otherwise. *)
Lemma call_tool_urlopen_calls (w : World) tool_name arguments endpoint st :
  urlopen_calls (trace (run w (call_tool tool_name arguments endpoint) st))
  = match request_body tool_name arguments with
    | Ok body =>
        match on_request w (request_of endpoint body) with
        | Ok _ => [EvUrlopen (request_of endpoint body) 30]
        | Raise _ => []
        end
    | Raise _ => []
    end.
Proof.
  rewrite run_call_tool. unfold call_course.
  destruct (request_body tool_name arguments) as [body|e]; [|reflexivity].
  destruct (on_request w (request_of endpoint body)) as [[]|e]; [|reflexivity].
  destruct (on_urlopen w (request_of endpoint body) 30 st) as [[h|e] st1];
    [|reflexivity].
  now destruct (on_read w h st1) as [[answer|e] st2].
Qed.

(** A call gives a value only when every step went through, and the value
    is the parsed body of the response. *)
Lemma call_tool_value (w : World) tool_name arguments endpoint st (v : pyval) :
  value (run w (call_tool tool_name arguments endpoint) st) = Ok v ->
  exists body h st1 answer st2,
    request_body tool_name arguments = Ok body
    /\ on_request w (request_of endpoint body) = Ok tt
    /\ on_urlopen w (request_of endpoint body) 30 st = (Ok h, st1)
    /\ on_read w h st1 = (Ok answer, st2)
    /\ parse_body answer = Ok v.
Proof.
  rewrite run_call_tool. unfold call_course.
  destruct (request_body tool_name arguments) as [body|e]; [|discriminate].
  destruct (on_request w (request_of endpoint body)) as [[]|e] eqn:Hr;
    [|discriminate].
  destruct (on_urlopen w (request_of endpoint body) 30 st) as [[h|e] st1] eqn:Hu;
    [|discriminate].
  destruct (on_read w h st1) as [[answer|e] st2] eqn:Hd; [|discriminate].
  simpl. intro H. exists body, h, st1, answer, st2. auto.
Qed.

Lemma parse_body_serializable (answer : pybytes) (v : pyval) :
  parse_body answer = Ok v -> writable stack_room v.
Proof.
  unfold parse_body. destruct (decode_utf8 answer) as [text|e]; [|discriminate].
  apply json_loads_serializable.
Qed.

Lemma decode_utf8_N_raise (n : nat) :
  forall bs e, (List.length bs <= n)%nat ->
               decode_utf8_N bs = Raise e -> e = UnicodeDecodeError.
Proof.
  induction n as [|n IH]; intros bs e Hlen H.
  - destruct bs; [discriminate|inversion Hlen].
  - destruct bs as [|b0 r0]; [discriminate|]. cbn [decode_utf8_N] in H.
    simpl in Hlen.
    repeat match type of H with
           | (if ?b then _ else _) = _ => destruct b
           | match ?l with [] => _ | _ :: _ => _ end = _ =>
               destruct l; simpl in Hlen
           | match decode_utf8_N ?r with _ => _ end = _ =>
               let E := fresh "E" in
               destruct (decode_utf8_N r) eqn:E;
               [discriminate|apply IH in E; [|lia]]
           end; congruence.
Qed.

(** [bytes.decode] raises nothing but [UnicodeDecodeError]. *)
Lemma decode_utf8_raise (b : pybytes) (e : exn) :
  decode_utf8 b = Raise e -> e = UnicodeDecodeError.
Proof. unfold decode_utf8. now apply (decode_utf8_N_raise (List.length (map Byte.to_N b))). Qed.

Lemma parse_body_raise (answer : pybytes) (e : exn) :
  parse_body answer = Raise e ->
  e = UnicodeDecodeError \/ e = JSONDecodeError \/ limit_error e.
Proof.
  unfold parse_body. destruct (decode_utf8 answer) as [text|e'] eqn:E; simpl.
  - intro H. right. now apply json_loads_raise in H.
  - intro H. injection H as <-. left. now apply decode_utf8_raise in E.
Qed.

(** The request body is not there only when [json.dumps] raised:
    [encode] does not. *)
Lemma request_body_raise tool_name arguments e :
  request_body tool_name arguments = Raise e ->
  json_dumps None (payload tool_name arguments) = Raise e
  /\ ((serializable (payload tool_name arguments) = false
       /\ exists msg, e = TypeError msg)
      \/ (fits stack_room (payload tool_name arguments) = false
          /\ limit_error e)).
Proof.
  unfold request_body.
  destruct (json_dumps None (payload tool_name arguments)) as [text|e'] eqn:E;
    simpl.
  - rewrite encode_utf8_ascii by exact (iterencode_ascii _ _ _ _ _ E).
    discriminate.
  - intro H. injection H as <-. split; [reflexivity|].
    exact (json_dumps_raise _ _ _ E).
Qed.

(** The request body is there only for a payload within the limits. *)
Lemma request_body_fits tool_name arguments body :
  request_body tool_name arguments = Ok body ->
  fits stack_room (payload tool_name arguments) = true.
Proof.
  unfold request_body.
  destruct (json_dumps None (payload tool_name arguments)) as [text|e] eqn:E;
    [|discriminate].
  intros _. exact (proj2 (iterencode_ok _ _ _ _ _ E)).
Qed.

(** The value that [json.dumps] and [json.loads] carry through UTF-8. *)
Lemma through_the_wire (v : pyval) :
  json_value v = true -> fits stack_room v = true ->
  exists text,
    json_dumps None v = Ok text
    /\ encode_utf8 text = Ok (map byte_of_N text)
    /\ parse_body (map byte_of_N text) = Ok v.
Proof.
  intros Hv Hf.
  destruct (proj1 (json_dumps_serializable None _)
                  (conj (json_value_serializable _ Hv) Hf)) as [text Htext].
  pose proof (iterencode_ascii _ _ _ _ _ Htext) as Ha.
  exists text. split; [assumption|]. split.
  - now apply encode_utf8_ascii.
  - unfold parse_body. rewrite decode_utf8_ascii by assumption.
    simpl. now apply json_loads_dumps.
Qed.

(** The answer of the echoing endpoint is no deeper than the payload. *)
Lemma fits_echo (room : nat) (tool_name arguments : pyval) :
  fits room (payload tool_name arguments) = true ->
  fits room (PyDict [(PyStr (lit "ok"), PyBool true);
                     (PyStr (lit "echo"),
                      PyDict [(PyStr (lit "name"), tool_name);
                              (PyStr (lit "arguments"), arguments)])]) = true.
Proof.
  destruct room as [|[|room]]; [discriminate|discriminate|].
  rewrite fits_payload. intro H. cbn [fits forallb key_fits andb].
  exact H.
Qed.

(** Against the echoing endpoint a valid call within the limits returns
    [{"ok": true, "echo": {"name": tool_name, "arguments": arguments}}]. *)
Lemma echo_server_echoes (st : wstate echo_server) tool_name arguments endpoint :
  json_value tool_name = true -> json_value arguments = true ->
  fits stack_room (payload tool_name arguments) = true ->
  value (run echo_server (call_tool tool_name arguments endpoint) st)
  = Ok (PyDict [(PyStr (lit "ok"), PyBool true);
                (PyStr (lit "echo"),
                 PyDict [(PyStr (lit "name"), tool_name);
                         (PyStr (lit "arguments"), arguments)])]).
Proof.
  intros Ht Ha Hf.
  destruct (call_tool_wire tool_name arguments Ht Ha Hf)
    as [text [_ [Hbody Hback]]].
  set (params := PyDict [(PyStr (lit "name"), tool_name);
                         (PyStr (lit "arguments"), arguments)]).
  set (reply := PyDict [(PyStr (lit "ok"), PyBool true);
                        (PyStr (lit "echo"), params)]).
  assert (Hreply : json_value reply = true).
  { unfold reply, params. cbn [json_value str_keys forallb].
    rewrite Ht, Ha. vm_compute. reflexivity. }
  destruct (through_the_wire reply Hreply (fits_echo _ _ _ Hf))
    as [out [Hout [Henc Hparse]]].
  rewrite run_call_tool. unfold call_course. rewrite Hbody.
  cbn [echo_server server on_request on_urlopen on_read].
  unfold echo_reply. cbn [data request_of].
  unfold parse_body in Hback.
  destruct (decode_utf8 (map byte_of_N text)) as [t|e]; [|discriminate].
  cbn [rbind] in Hback |- *. rewrite Hback. cbn [rbind].
  change (dict_get (payload tool_name arguments) (lit "params"))
    with (Some params).
  cbv beta iota. fold reply. rewrite Hout. cbn [rbind]. rewrite Henc.
  rewrite nth_error_app2, Nat.sub_diag by lia. cbn [nth_error value].
  exact Hparse.
Qed.

(** ** The JSON form of a value *)










(** * The claims *)


(** C2: when the server returns a response and its body is read,
    [call_tool] returns exactly [json.loads(body.decode("utf-8"))],
    whatever the value is (and raises what that expression raises);
    against the endpoint that echoes [{"ok": true, "echo": params}],
    [call_tool("x", {"a": 1})] returns a value whose [echo.arguments] is
    [{"a": 1}]. *)
Theorem call_tool_returns_parsed_body :
  (forall (w : World) (st : wstate w) tool_name arguments endpoint
          body h st1 answer st2,
      request_body tool_name arguments = Ok body ->
      on_request w (request_of endpoint body) = Ok tt ->
      on_urlopen w (request_of endpoint body) 30 st = (Ok h, st1) ->
      on_read w h st1 = (Ok answer, st2) ->
      value (run w (call_tool tool_name arguments endpoint) st)
      = parse_body answer)
  /\ (exists v echo,
        value (run echo_server (call_tool example_tool example_arguments None) [])
        = Ok v
        /\ dict_get v (lit "echo") = Some echo
        /\ dict_get echo (lit "arguments") = Some example_arguments).
Proof.
  split.
  - intros w st tool_name arguments endpoint body h st1 answer st2 Hb Hr Hu Hd.
    rewrite run_call_tool. unfold call_course. now rewrite Hb, Hr, Hu, Hd.
  - exists (PyDict [(PyStr (lit "ok"), PyBool true);
                    (PyStr (lit "echo"),
                     PyDict [(PyStr (lit "name"), example_tool);
                             (PyStr (lit "arguments"), example_arguments)])]).
    exists (PyDict [(PyStr (lit "name"), example_tool);
                    (PyStr (lit "arguments"), example_arguments)]).
    split; [|split; reflexivity].
    apply echo_server_echoes; [reflexivity|reflexivity|].
    apply fits_stack. reflexivity.
Qed.

(** C3: every failure of [call_tool] reaches the caller as the exception
    that was raised, and no value is returned in its place.  Whatever
    [json.dumps] raises on the payload, and it raises when the arguments
    are not serializable: that exception, before anything is sent.
    [Request] refuses the URL, the connection cannot be made or the timeout
    elapses in [urlopen], or while the body is read: that exception.  The
    body is not UTF-8, or not JSON: the exception of [decode], of
    [json.loads].  A value is returned only when every step went through;
    against an endpoint that cannot be reached, no call returns one. *)
Theorem call_tool_failures_propagate (w : World) (st : wstate w)
    (tool_name arguments : pyval) (endpoint : option pystr) :
  let o := run w (call_tool tool_name arguments endpoint) st in
  (forall e,
      json_dumps None (payload tool_name arguments) = Raise e ->
      value o = Raise e /\ trace o = [])
  /\ (serializable (payload tool_name arguments) = false ->
      exists e,
        json_dumps None (payload tool_name arguments) = Raise e
        /\ value o = Raise e /\ trace o = [])
  /\ (forall body,
        request_body tool_name arguments = Ok body ->
        (forall e, on_request w (request_of endpoint body) = Raise e ->
                   value o = Raise e)
        /\ (on_request w (request_of endpoint body) = Ok tt ->
            (forall e st1,
                on_urlopen w (request_of endpoint body) 30 st = (Raise e, st1) ->
                value o = Raise e)
            /\ (forall h st1,
                  on_urlopen w (request_of endpoint body) 30 st = (Ok h, st1) ->
                  (forall e st2, on_read w h st1 = (Raise e, st2) ->
                                 value o = Raise e)
                  /\ (forall answer st2,
                        on_read w h st1 = (Ok answer, st2) ->
                        (forall e, decode_utf8 answer = Raise e ->
                                   value o = Raise e)
                        /\ (forall text e,
                              decode_utf8 answer = Ok text ->
                              json_loads text = Raise e ->
                              value o = Raise e)))))
  /\ (forall v,
        value o = Ok v ->
        exists body h st1 answer st2,
          request_body tool_name arguments = Ok body
          /\ on_request w (request_of endpoint body) = Ok tt
          /\ on_urlopen w (request_of endpoint body) 30 st = (Ok h, st1)
          /\ on_read w h st1 = (Ok answer, st2)
          /\ parse_body answer = Ok v)
  /\ (forall st', exists e,
        value (run unreachable (call_tool tool_name arguments endpoint) st')
        = Raise e).
Proof.
  cbv zeta.
  assert (Hdumps : forall e,
             json_dumps None (payload tool_name arguments) = Raise e ->
             value (run w (call_tool tool_name arguments endpoint) st) = Raise e
             /\ trace (run w (call_tool tool_name arguments endpoint) st) = []).
  { intros e He. rewrite run_call_tool. unfold call_course, request_body.
    rewrite He. auto. }
  split; [exact Hdumps|]. split; [|split; [|split]].
  - intro Hs.
    destruct (json_dumps_not_serializable None _ Hs) as [e He].
    exists e. split; [exact He|exact (Hdumps e He)].
  - intros body Hb. rewrite run_call_tool. unfold call_course. rewrite Hb. split.
    + intros e Hr. now rewrite Hr.
    + intro Hr. rewrite Hr. split.
      * intros e st1 Hu. now rewrite Hu.
      * intros h st1 Hu. rewrite Hu. split.
        -- intros e st2 Hd. now rewrite Hd.
        -- intros answer st2 Hd. rewrite Hd. simpl. unfold parse_body. split.
           ++ intros e He. now rewrite He.
           ++ intros text e Ht He. rewrite Ht. exact He.
  - apply call_tool_value.
  - intro st'. rewrite run_call_tool. unfold call_course.
    destruct (request_body tool_name arguments) as [body|e]; simpl; eauto.
Qed.

(** C4: for every target [t], [run_prefab_audit(t)] is
    [call_tool("prefab_audit", arguments)] with
    [arguments = {"command": "prefab_audit", "target": t,
                  "checks": ["naming", "collision", "performance"]}]
    and no endpoint given; so for the target ["Foo"]; and for a target that
    is a string of characters these arguments are what the posted body
    holds under [params.arguments], with [params.name] the tool name. *)
Theorem run_prefab_audit_delegates :
  let arguments := fun t =>
    PyDict [(PyStr (lit "command"), PyStr (lit "prefab_audit"));
            (PyStr (lit "target"), t);
            (PyStr (lit "checks"),
             PyList [PyStr (lit "naming"); PyStr (lit "collision");
                     PyStr (lit "performance")])] in
  (forall t : pyval,
      run_prefab_audit (Some t)
      = call_tool (PyStr (lit "prefab_audit")) (arguments t) None)
  /\ run_prefab_audit (Some (PyStr (lit "Foo")))
     = call_tool (PyStr (lit "prefab_audit")) (arguments (PyStr (lit "Foo"))) None
  /\ (forall (t : pystr) (w : World) (st : wstate w),
        text_ok t = true ->
        exists body,
          request_body (PyStr (lit "prefab_audit")) (arguments (PyStr t)) = Ok body
          /\ parse_body body
             = Ok (payload (PyStr (lit "prefab_audit")) (arguments (PyStr t)))
          /\ (on_request w (request_of None body) = Ok tt ->
              urlopen_calls (trace (run w (run_prefab_audit (Some (PyStr t))) st))
              = [EvUrlopen (request_of None body) 30])).
Proof.
  cbv zeta. split; [reflexivity|]. split; [reflexivity|].
  intros t w st Ht.
  match goal with
  | |- context [request_body ?n ?a] =>
      destruct (call_tool_wire n a) as [text [_ [Hbody Hback]]]
  end.
  - reflexivity.
  - cbn [json_value str_keys forallb]. rewrite Ht. vm_compute. reflexivity.
  - apply fits_stack. reflexivity.
  - exists (map byte_of_N text). split; [assumption|]. split; [assumption|].
    intro Hurl. unfold run_prefab_audit. cbn [default].
    now rewrite call_tool_urlopen_calls, Hbody, Hurl.
Qed.

(** C5: for every scene [s] and flag [d], [run_scene_refactor(s, dry_run=d)]
    is [call_tool("scene_refactor", arguments)] with
    [arguments = {"command": "scene_refactor", "scene": s,
                  "steps": ["remove_empty_groups", "rebuild_navigation"],
                  "dry_run": d}]
    and no endpoint given; so for the scene ["Bar"] and [dry_run=False],
    where the arguments hold ["scene": "Bar"] and ["dry_run": false]; and
    for a scene that is a string of characters these arguments are what
    the posted body holds under [params.arguments]. *)
Theorem run_scene_refactor_delegates :
  let arguments := fun s d =>
    PyDict [(PyStr (lit "command"), PyStr (lit "scene_refactor"));
            (PyStr (lit "scene"), s);
            (PyStr (lit "steps"),
             PyList [PyStr (lit "remove_empty_groups");
                     PyStr (lit "rebuild_navigation")]);
            (PyStr (lit "dry_run"), d)] in
  (forall s d : pyval,
      run_scene_refactor (Some s) (Some d)
      = call_tool (PyStr (lit "scene_refactor")) (arguments s d) None)
  /\ (forall s d : pyval,
        dict_get (arguments s d) (lit "command") = Some (PyStr (lit "scene_refactor"))
        /\ dict_get (arguments s d) (lit "scene") = Some s
        /\ dict_get (arguments s d) (lit "steps")
           = Some (PyList [PyStr (lit "remove_empty_groups");
                           PyStr (lit "rebuild_navigation")])
        /\ dict_get (arguments s d) (lit "dry_run") = Some d)
  /\ run_scene_refactor (Some (PyStr (lit "Bar"))) (Some (PyBool false))
     = call_tool (PyStr (lit "scene_refactor"))
                 (arguments (PyStr (lit "Bar")) (PyBool false)) None
  /\ (forall (s : pystr) (d : bool) (w : World) (st : wstate w),
        text_ok s = true ->
        exists body,
          request_body (PyStr (lit "scene_refactor"))
                       (arguments (PyStr s) (PyBool d)) = Ok body
          /\ parse_body body
             = Ok (payload (PyStr (lit "scene_refactor"))
                           (arguments (PyStr s) (PyBool d)))
          /\ (on_request w (request_of None body) = Ok tt ->
              urlopen_calls (trace (run w (run_scene_refactor (Some (PyStr s))
                                                         (Some (PyBool d))) st))
              = [EvUrlopen (request_of None body) 30])).
Proof.
  cbv zeta. split; [reflexivity|]. split; [intros; repeat split; reflexivity|].
  split; [reflexivity|].
  intros s d w st Hs.
  match goal with
  | |- context [request_body ?n ?a] =>
      destruct (call_tool_wire n a) as [text [_ [Hbody Hback]]]
  end.
  - reflexivity.
  - cbn [json_value str_keys forallb]. rewrite Hs. vm_compute. reflexivity.
  - apply fits_stack. reflexivity.
  - exists (map byte_of_N text). split; [assumption|]. split; [assumption|].
    intro Hurl. unfold run_scene_refactor. cbn [default].
    now rewrite call_tool_urlopen_calls, Hbody, Hurl.
Qed.

(** C6: for every target [t], [run_bulk_edit(t)] is
    [call_tool("bulk_edit_assets", arguments)] with no endpoint given,
    where [arguments] holds ["dry_run": true] and
    ["modifications": {"damage": 42, "range": 120}] whatever [t] is
    (besides ["command": "bulk_edit_assets"] and ["target": t]); and for a
    target that is a string of characters these arguments are what the
    posted body holds under [params.arguments]. *)
Theorem run_bulk_edit_delegates :
  let arguments := fun t =>
    PyDict [(PyStr (lit "command"), PyStr (lit "bulk_edit_assets"));
            (PyStr (lit "target"), t);
            (PyStr (lit "modifications"),
             PyDict [(PyStr (lit "damage"), PyInt 42);
                     (PyStr (lit "range"), PyInt 120)]);
            (PyStr (lit "dry_run"), PyBool true)] in
  (forall t : pyval,
      run_bulk_edit (Some t)
      = call_tool (PyStr (lit "bulk_edit_assets")) (arguments t) None)
  /\ (forall t : pyval,
        dict_get (arguments t) (lit "dry_run") = Some (PyBool true)
        /\ dict_get (arguments t) (lit "modifications")
           = Some (PyDict [(PyStr (lit "damage"), PyInt 42);
                           (PyStr (lit "range"), PyInt 120)]))
  /\ (forall (t : pystr) (w : World) (st : wstate w),
        text_ok t = true ->
        exists body,
          request_body (PyStr (lit "bulk_edit_assets")) (arguments (PyStr t))
          = Ok body
          /\ parse_body body
             = Ok (payload (PyStr (lit "bulk_edit_assets")) (arguments (PyStr t)))
          /\ (on_request w (request_of None body) = Ok tt ->
              urlopen_calls (trace (run w (run_bulk_edit (Some (PyStr t))) st))
              = [EvUrlopen (request_of None body) 30])).
Proof.
  cbv zeta. split; [reflexivity|]. split; [intros; split; reflexivity|].
  intros t w st Ht.
  match goal with
  | |- context [request_body ?n ?a] =>
      destruct (call_tool_wire n a) as [text [_ [Hbody Hback]]]
  end.
  - reflexivity.
  - cbn [json_value str_keys forallb]. rewrite Ht. vm_compute. reflexivity.
  - apply fits_stack. reflexivity.
  - exists (map byte_of_N text). split; [assumption|]. split; [assumption|].
    intro Hurl. unfold run_bulk_edit. cbn [default].
    now rewrite call_tool_urlopen_calls, Hbody, Hurl.
Qed.

Lemma call_tool_goes_to (w : World) tool_name arguments endpoint st :
  Forall (goes_to (default MCP_ENDPOINT endpoint))
         (trace (run w (call_tool tool_name arguments endpoint) st)).
Proof.
  rewrite run_call_tool. unfold call_course.
  destruct (request_body tool_name arguments) as [body|e]; [|constructor].
  destruct (on_request w (request_of endpoint body)) as [[]|e]; [|constructor].
  destruct (on_urlopen w (request_of endpoint body) 30 st) as [[h|e] st1];
    [|repeat constructor].
  destruct (on_read w h st1) as [[answer|e] st2]; repeat constructor.
Qed.

Lemma call_tool_silent (w : World) tool_name arguments endpoint st :
  Forall silent (trace (run w (call_tool tool_name arguments endpoint) st)).
Proof.
  rewrite run_call_tool. unfold call_course.
  destruct (request_body tool_name arguments) as [body|e]; [|constructor].
  destruct (on_request w (request_of endpoint body)) as [[]|e]; [|constructor].
  destruct (on_urlopen w (request_of endpoint body) 30 st) as [[h|e] st1];
    [|repeat constructor].
  destruct (on_read w h st1) as [[answer|e] st2]; repeat constructor.
Qed.

(** C8 (as amended): every invocation of [call_tool] calls [urlopen] at
    most once and never again: exactly once when the payload is serialised
    and [Request] accepts the URL, not at all when either raises, and the
    world is then as it was.  (What that one call puts on the network is
    the doing of [urllib], which follows redirects.)  When [urlopen]
    raises, nothing follows; when it returns a response, one [read] and
    the exit of the response follow, and nothing else.  So whatever these
    three operations leave alone, a file, the terminal, any state kept
    locally, is after the call as it was before.  The call of [urlopen] of
    an invocation is the same whatever state the world is in, whatever
    happened before. *)
Theorem call_tool_calls_urlopen_once (w : World) (st : wstate w)
    (tool_name arguments : pyval) (endpoint : option pystr) :
  let o := run w (call_tool tool_name arguments endpoint) st in
  (List.length (urlopen_calls (trace o)) <= 1)%nat
  /\ (forall e, request_body tool_name arguments = Raise e ->
                o = mkOutcome (Raise e) [] st)
  /\ (forall body,
        request_body tool_name arguments = Ok body ->
        (forall e, on_request w (request_of endpoint body) = Raise e ->
                   o = mkOutcome (Raise e) [] st)
        /\ (on_request w (request_of endpoint body) = Ok tt ->
            urlopen_calls (trace o) = [EvUrlopen (request_of endpoint body) 30]
            /\ (forall e st1,
                  on_urlopen w (request_of endpoint body) 30 st
                  = (Raise e, st1) ->
                  o = mkOutcome (Raise e)
                                [EvUrlopen (request_of endpoint body) 30] st1)
            /\ (forall h st1,
                  on_urlopen w (request_of endpoint body) 30 st = (Ok h, st1) ->
                  trace o = [EvUrlopen (request_of endpoint body) 30;
                             EvRead h; EvExit h]
                  /\ final o = on_exit w h (snd (on_read w h st1)))))
  /\ (forall (L : Type) (local : wstate w -> L),
        (forall r t s, local (snd (on_urlopen w r t s)) = local s) ->
        (forall h s, local (snd (on_read w h s)) = local s) ->
        (forall h s, local (on_exit w h s) = local s) ->
        local (final o) = local st)
  /\ (forall st',
        urlopen_calls
          (trace (run w (call_tool tool_name arguments endpoint) st'))
        = urlopen_calls (trace o)).
Proof.
  cbv zeta. repeat apply conj.
  - rewrite call_tool_urlopen_calls.
    destruct (request_body tool_name arguments) as [body|e]; [|simpl; lia].
    destruct (on_request w (request_of endpoint body)); simpl; lia.
  - intros e Hb. rewrite run_call_tool. unfold call_course. now rewrite Hb.
  - intros body Hb. split.
    + intros e Hr. rewrite run_call_tool. unfold call_course.
      now rewrite Hb, Hr.
    + intro Hr. split; [|split].
      * now rewrite call_tool_urlopen_calls, Hb, Hr.
      * intros e st1 Hu. rewrite run_call_tool. unfold call_course.
        now rewrite Hb, Hr, Hu.
      * intros h st1 Hu. rewrite run_call_tool. unfold call_course.
        rewrite Hb, Hr, Hu.
        destruct (on_read w h st1) as [[answer|e] st2]; split; reflexivity.
  - intros L local Hopen Hread Hexit.
    rewrite run_call_tool. unfold call_course.
    destruct (request_body tool_name arguments) as [body|e]; [|reflexivity].
    destruct (on_request w (request_of endpoint body)) as [[]|e];
      [|reflexivity].
    pose proof (Hopen (request_of endpoint body) 30%Z st) as H1.
    destruct (on_urlopen w (request_of endpoint body) 30 st) as [[h|e] st1];
      simpl in H1; [|exact H1].
    pose proof (Hread h st1) as H2.
    destruct (on_read w h st1) as [[answer|e] st2]; simpl in H2 |- *;
      now rewrite Hexit, H2.
  - intro st'. now rewrite !call_tool_urlopen_calls.
Qed.

Lemma run_main (w : World) (st : wstate w) :
  run w main st
  = after (EvPrint (lit "Running prefab audit..."))
      (then_run w
         (run w (run_prefab_audit None)
              (on_print w (lit "Running prefab audit...") st))
         (fun answer =>
            bind (lift (json_dumps (Some 2%nat) answer)) print)).
Proof.
  unfold main, print. cbn [bind run]. now rewrite run_bind.
Qed.

(** C9: run directly, the program does one thing: it prints the line
    [Running prefab audit...], calls [run_prefab_audit()] (the target is
    the default, ["WeaponAssets"]), and prints the answer as
    [json.dumps(answer, indent=2)] writes it; when the call raises, the
    exception ends the run after the first line.  The command line is not
    read.  With a server that answers [{"ok": true}], the two lines printed
    are the status line and the value on three lines, the middle one
    indented by two spaces. *)
Theorem main_prints_audit (w : World) (st : wstate w) (argv : list pystr) :
  let status := lit "Running prefab audit..." in
  let o := run w (run_prefab_audit None) (on_print w status st) in
  (forall argv', module_body (lit "__main__") argv
                 = module_body (lit "__main__") argv')
  /\ run_prefab_audit None = run_prefab_audit (Some (PyStr (lit "WeaponAssets")))
  /\ match value o with
     | Ok answer =>
         exists text,
           json_dumps (Some 2%nat) answer = Ok text
           /\ run w (module_body (lit "__main__") argv) st
              = mkOutcome (Ok tt) (EvPrint status :: trace o ++ [EvPrint text])
                          (on_print w text (final o))
     | Raise e =>
         run w (module_body (lit "__main__") argv) st
         = mkOutcome (Raise e) (EvPrint status :: trace o) (final o)
     end
  /\ printed (trace (run (canned ok_body) (module_body (lit "__main__") argv) []))
     = [status;
        [123; 10; 32; 32; 34] ++ lit "ok" ++ [34] ++ lit ": true" ++ [10; 125]].
Proof.
  cbv zeta. split; [reflexivity|]. split; [reflexivity|]. split.
  - change (module_body (lit "__main__") argv) with main. rewrite run_main.
    unfold then_run.
    destruct (value (run w (run_prefab_audit None) _)) as [answer|e] eqn:Hv;
      [|reflexivity].
    unfold run_prefab_audit in Hv.
    apply call_tool_value in Hv as [body [h [st1 [ans [st2 [_ [_ [_ [_ Hp]]]]]]]]].
    apply parse_body_serializable in Hp.
    destruct (proj1 (json_dumps_serializable (Some 2%nat) answer) Hp)
      as [text Htext].
    exists text. split; [assumption|]. rewrite Htext. reflexivity.
  - unfold module_body, main, run_prefab_audit, call_tool, json_dumps,
      json_loads.
    generalize stack_room_payload. generalize stack_room.
    intros [|[|[|[|room]]]] Hroom; try (exfalso; lia).
    vm_compute. reflexivity.
Qed.



(** * Further properties *)

(** X1: once [urlopen] has returned a response, [call_tool] reads it once
    and leaves the [with] block through [__exit__] exactly once, as its
    last operation, whether the body was read, decoded and parsed or an
    exception is on its way: the response is never left open. *)
Theorem call_tool_closes_response (w : World) (st : wstate w)
    (tool_name arguments : pyval) (endpoint : option pystr)
    (body : pybytes) (h : response) (st1 : wstate w) :
  request_body tool_name arguments = Ok body ->
  on_request w (request_of endpoint body) = Ok tt ->
  on_urlopen w (request_of endpoint body) 30 st = (Ok h, st1) ->
  let o := run w (call_tool tool_name arguments endpoint) st in
  trace o = [EvUrlopen (request_of endpoint body) 30; EvRead h; EvExit h]
  /\ final o = on_exit w h (snd (on_read w h st1)).
Proof.
  intros Hb Hr Hu. cbv zeta. rewrite run_call_tool. unfold call_course.
  rewrite Hb, Hr, Hu.
  destruct (on_read w h st1) as [[answer|e] st2]; split; reflexivity.
Qed.


(** X3: an exception that leaves [call_tool] is one that [json.dumps]
    raised ([TypeError], or [ValueError] or [RecursionError] at a limit),
    the [UnicodeDecodeError] of [decode], one that [json.loads] raised
    ([JSONDecodeError], or [ValueError] or [RecursionError] at a limit),
    or one that [Request], [urlopen] or [read] raised; [call_tool] raises
    nothing of its own. *)
Theorem call_tool_raises (w : World) (st : wstate w)
    (tool_name arguments : pyval) (endpoint : option pystr) (e : exn) :
  value (run w (call_tool tool_name arguments endpoint) st) = Raise e ->
  (exists msg, e = TypeError msg)
  \/ e = ValueError
  \/ e = RecursionError
  \/ e = UnicodeDecodeError
  \/ e = JSONDecodeError
  \/ (exists r, on_request w r = Raise e)
  \/ (exists r st0 st1, on_urlopen w r 30 st0 = (Raise e, st1))
  \/ (exists h st0 st1, on_read w h st0 = (Raise e, st1)).
Proof.
  rewrite run_call_tool. unfold call_course.
  destruct (request_body tool_name arguments) as [body|e0] eqn:Hb.
  - destruct (on_request w (request_of endpoint body)) as [[]|e1] eqn:Hr.
    + destruct (on_urlopen w (request_of endpoint body) 30 st)
        as [[h|e2] st1] eqn:Hu.
      * destruct (on_read w h st1) as [[answer|e3] st2] eqn:Hd; simpl; intro H.
        -- apply parse_body_raise in H as [->|[->|[->| ->]]]; auto 6.
        -- injection H as <-. do 7 right. eauto.
      * simpl. intro H. injection H as <-. do 6 right. left. eauto.
    + simpl. intro H. injection H as <-. do 5 right. left. eauto.
  - simpl. intro H. injection H as <-.
    destruct (request_body_raise _ _ _ Hb) as [_ [[_ Hmsg]|[_ [->| ->]]]];
      auto.
Qed.

(** X4: against an endpoint that echoes the parameters it received, every
    valid call whose payload [json.dumps] writes comes back with what it
    sent: the value returned holds ["ok": true] and, under ["echo"], the
    name and the arguments of the call, equal to the ones given.  Valid:
    the name and the arguments are made of [None], truth values,
    integers, strings without surrogates, lists, and dictionaries under
    distinct keys that are such strings; no float. *)
Theorem call_tool_echo_round_trip (st : wstate echo_server)
    (tool_name arguments : pyval) (endpoint : option pystr) (body : pybytes) :
  json_value tool_name = true ->
  json_value arguments = true ->
  request_body tool_name arguments = Ok body ->
  exists v echo,
    value (run echo_server (call_tool tool_name arguments endpoint) st) = Ok v
    /\ dict_get v (lit "ok") = Some (PyBool true)
    /\ dict_get v (lit "echo") = Some echo
    /\ dict_get echo (lit "name") = Some tool_name
    /\ dict_get echo (lit "arguments") = Some arguments.
Proof.
  intros Ht Ha Hb.
  exists (PyDict [(PyStr (lit "ok"), PyBool true);
                  (PyStr (lit "echo"),
                   PyDict [(PyStr (lit "name"), tool_name);
                           (PyStr (lit "arguments"), arguments)])]).
  exists (PyDict [(PyStr (lit "name"), tool_name);
                  (PyStr (lit "arguments"), arguments)]).
  split; [|repeat split; reflexivity].
  apply echo_server_echoes; try assumption.
  now apply request_body_fits in Hb.
Qed.

Lemma decode_utf8_N_low (bs : list N) :
  Forall (fun b => b < 0x80) bs -> decode_utf8_N bs = Ok bs.
Proof.
  induction 1 as [|b r Hb _ IH]; simpl; [reflexivity|].
  apply N.ltb_lt in Hb. now rewrite Hb, IH.
Qed.

Lemma decode_utf8_bom (answer : pybytes) :
  decode_utf8 (bom ++ answer)
  = match decode_utf8 answer with
    | Ok text => Ok (0xFEFF :: text)
    | Raise e => Raise e
    end.
Proof. reflexivity. Qed.

(** X5: a response body that starts with the UTF-8 byte order mark is
    refused: [decode("utf-8")] keeps the mark as U+FEFF and [json.loads]
    raises [JSONDecodeError] on it (or [decode] raises on what follows);
    [call_tool] returns no value. *)
Theorem call_tool_refuses_bom (w : World) (st : wstate w)
    (tool_name arguments : pyval) (endpoint : option pystr)
    (body : pybytes) (h : response) (st1 : wstate w)
    (answer : pybytes) (st2 : wstate w) :
  request_body tool_name arguments = Ok body ->
  on_request w (request_of endpoint body) = Ok tt ->
  on_urlopen w (request_of endpoint body) 30 st = (Ok h, st1) ->
  on_read w h st1 = (Ok (bom ++ answer), st2) ->
  value (run w (call_tool tool_name arguments endpoint) st)
  = match decode_utf8 answer with
    | Ok _ => Raise JSONDecodeError
    | Raise _ => Raise UnicodeDecodeError
    end.
Proof.
  intros Hb Hr Hu Hd. rewrite run_call_tool. unfold call_course.
  rewrite Hb, Hr, Hu, Hd. cbn [value]. unfold parse_body.
  rewrite decode_utf8_bom.
  destruct (decode_utf8 answer) as [text|e] eqn:E; [reflexivity|].
  now rewrite (decode_utf8_raise _ _ E).
Qed.

Lemma skip_ws_blank (s : pystr) :
  Forall (fun c => is_ws c = true) s -> skip_ws s = [].
Proof. induction 1 as [|c r Hc _ IH]; simpl; [reflexivity|]. now rewrite Hc. Qed.

Lemma json_loads_blank (s : pystr) :
  Forall (fun c => is_ws c = true) s -> json_loads s = Raise JSONDecodeError.
Proof.
  intro H. unfold json_loads. rewrite (skip_ws_blank s H).
  destruct H as [|c r Hc _]; [reflexivity|].
  rewrite strip_prefix_head; [reflexivity|].
  intros <-. discriminate.
Qed.

(** X6: an empty response body, or one of white space only, is not a JSON
    document: [call_tool] raises [JSONDecodeError]. *)
Theorem call_tool_blank_body (w : World) (st : wstate w)
    (tool_name arguments : pyval) (endpoint : option pystr)
    (body : pybytes) (h : response) (st1 : wstate w)
    (answer : pybytes) (st2 : wstate w) :
  request_body tool_name arguments = Ok body ->
  on_request w (request_of endpoint body) = Ok tt ->
  on_urlopen w (request_of endpoint body) 30 st = (Ok h, st1) ->
  on_read w h st1 = (Ok answer, st2) ->
  Forall (fun b => is_ws (Byte.to_N b) = true) answer ->
  value (run w (call_tool tool_name arguments endpoint) st)
  = Raise JSONDecodeError.
Proof.
  intros Hb Hr Hu Hd Hws. rewrite run_call_tool. unfold call_course.
  rewrite Hb, Hr, Hu, Hd. cbn [value]. unfold parse_body, decode_utf8.
  assert (Hblank : Forall (fun c => is_ws c = true) (map Byte.to_N answer))
    by now apply Forall_map.
  rewrite decode_utf8_N_low.
  - simpl. now apply json_loads_blank.
  - eapply Forall_impl; [|exact Hblank]. intros c Hc.
    unfold is_ws in Hc. nb_hyps; lia.
Qed.

Lemma decode_utf8_N_clean (n : nat) :
  forall bs s, (List.length bs <= n)%nat ->
               decode_utf8_N bs = Ok s -> existsb never_utf8 bs = false.
Proof.
  induction n as [|n IH]; intros bs s Hlen H.
  - destruct bs; [reflexivity|inversion Hlen].
  - destruct bs as [|b0 r0]; [reflexivity|]. cbn [decode_utf8_N] in H.
    simpl in Hlen.
    repeat match type of H with
           | (if ?b then _ else _) = _ =>
               let E := fresh "E" in destruct b eqn:E
           | match ?l with [] => _ | _ :: _ => _ end = _ =>
               destruct l; simpl in Hlen
           | match decode_utf8_N ?r with _ => _ end = _ =>
               let E := fresh "E" in
               destruct (decode_utf8_N r) eqn:E;
               [apply IH in E; [|lia]|discriminate]
           end; try discriminate;
      repeat match goal with
             | E : context [if ?c then _ else _] |- _ => destruct c eqn:?
             end;
      cbn [existsb];
      repeat match goal with
             | |- never_utf8 ?b || _ = false =>
                 replace (never_utf8 b) with false
                   by (symmetry; unfold never_utf8; nb);
                 cbn [orb]
             end; assumption.
Qed.

Lemma existsb_to_N (f : N -> bool) (l : pybytes) :
  existsb f (map Byte.to_N l) = existsb (fun b => f (Byte.to_N b)) l.
Proof. induction l as [|b l IH]; simpl; [reflexivity|]. now rewrite IH. Qed.

(** X7: a response body that holds a byte which no UTF-8 text holds
    ([C0], [C1], [F5] to [FF]) makes [call_tool] raise
    [UnicodeDecodeError], wherever the byte stands. *)
Theorem call_tool_not_utf8 (w : World) (st : wstate w)
    (tool_name arguments : pyval) (endpoint : option pystr)
    (body : pybytes) (h : response) (st1 : wstate w)
    (answer : pybytes) (st2 : wstate w) :
  request_body tool_name arguments = Ok body ->
  on_request w (request_of endpoint body) = Ok tt ->
  on_urlopen w (request_of endpoint body) 30 st = (Ok h, st1) ->
  on_read w h st1 = (Ok answer, st2) ->
  existsb (fun b => never_utf8 (Byte.to_N b)) answer = true ->
  value (run w (call_tool tool_name arguments endpoint) st)
  = Raise UnicodeDecodeError.
Proof.
  intros Hb Hr Hu Hd Hbad. rewrite run_call_tool. unfold call_course.
  rewrite Hb, Hr, Hu, Hd. cbn [value]. unfold parse_body.
  destruct (decode_utf8 answer) as [text|e] eqn:E.
  - unfold decode_utf8 in E.
    apply (decode_utf8_N_clean _ _ _ (Nat.le_refl _)) in E.
    rewrite existsb_to_N in E. congruence.
  - now rewrite (decode_utf8_raise _ _ E).
Qed.

Lemma call_tool_reaches (w : World) tool_name arguments endpoint st :
  writable stack_room (payload tool_name arguments) ->
  (forall r, on_request w r = Ok tt) ->
  List.length
    (urlopen_calls (trace (run w (call_tool tool_name arguments endpoint) st)))
  = 1%nat.
Proof.
  intros Hs Hurl.
  destruct (proj1 (json_dumps_serializable None _) Hs) as [text Htext].
  rewrite call_tool_urlopen_calls, (request_body_dumps _ _ _ Htext), Hurl.
  reflexivity.
Qed.

(** X8: a helper called with strings (and a truth value for [dry_run]),
    or with nothing, always gets as far as the network: whatever
    characters the strings hold, [json.dumps] writes the payload, and when
    [Request] accepts the URL [urlopen] is called, once. *)
Theorem helpers_reach_network (w : World) (st : wstate w)
    (target scene : option pystr) (dry_run : option bool) :
  (forall r, on_request w r = Ok tt) ->
  List.length
    (urlopen_calls
       (trace (run w (run_prefab_audit (option_map PyStr target)) st)))
  = 1%nat
  /\ List.length
       (urlopen_calls
          (trace (run w (run_scene_refactor (option_map PyStr scene)
                                            (option_map PyBool dry_run)) st)))
     = 1%nat
  /\ List.length
       (urlopen_calls
          (trace (run w (run_bulk_edit (option_map PyStr target)) st)))
     = 1%nat.
Proof.
  intro Hurl. repeat split; apply call_tool_reaches; try assumption;
    (split; [|apply fits_stack]); destruct target, scene, dry_run;
    reflexivity.
Qed.

Lemma call_tool_refuses (w : World) tool_name arguments endpoint st :
  serializable (payload tool_name arguments) = false ->
  exists e,
    ((exists msg, e = TypeError msg) \/ limit_error e)
    /\ run w (call_tool tool_name arguments endpoint) st
       = mkOutcome (Raise e) [] st.
Proof.
  intro Hs.
  destruct (json_dumps_not_serializable None _ Hs) as [e He].
  exists e. split.
  - destruct (json_dumps_raise _ _ _ He) as [[_ H]|[_ H]]; auto.
  - rewrite run_call_tool. unfold call_course, request_body. now rewrite He.
Qed.

(** X9: a helper given a value that [json.dumps] cannot write (a set, a
    bytes object, ...) raises before anything is sent, and leaves the
    world as it was.  The exception is the one of [json.dumps]: its
    [TypeError], unless it met a limit first ([ValueError],
    [RecursionError]). *)
Theorem helpers_refuse_unserializable (w : World) (st : wstate w)
    (target scene dry_run : pyval) :
  (serializable target = false ->
   (exists e, ((exists msg, e = TypeError msg) \/ limit_error e)
              /\ run w (run_prefab_audit (Some target)) st
                 = mkOutcome (Raise e) [] st)
   /\ (exists e, ((exists msg, e = TypeError msg) \/ limit_error e)
                 /\ run w (run_bulk_edit (Some target)) st
                    = mkOutcome (Raise e) [] st))
  /\ (serializable scene = false \/ serializable dry_run = false ->
      exists e, ((exists msg, e = TypeError msg) \/ limit_error e)
                /\ run w (run_scene_refactor (Some scene) (Some dry_run)) st
                   = mkOutcome (Raise e) [] st).
Proof.
  split.
  - intro Hs. split; apply call_tool_refuses; cbn; rewrite Hs; reflexivity.
  - intro Hs. apply call_tool_refuses. cbn.
    destruct Hs as [-> | ->]; [reflexivity|].
    destruct (serializable scene); reflexivity.
Qed.

Lemma printed_app (a b : list event) : printed (a ++ b) = printed a ++ printed b.
Proof. apply flat_map_app. Qed.

Lemma printed_silent (tr : list event) : Forall silent tr -> printed tr = [].
Proof.
  induction 1 as [|e tr He _ IH]; [reflexivity|].
  destruct e; simpl in *; try assumption. contradiction.
Qed.

Lemma run_main_trace (w : World) (st : wstate w) :
  let status := lit "Running prefab audit..." in
  let o := run w (run_prefab_audit None) (on_print w status st) in
  trace (run w main st) = EvPrint status :: trace o
  \/ exists answer text,
      value o = Ok answer
      /\ json_dumps (Some 2%nat) answer = Ok text
      /\ trace (run w main st) = EvPrint status :: trace o ++ [EvPrint text].
Proof.
  cbv zeta. rewrite run_main. unfold then_run.
  destruct (value (run w (run_prefab_audit None) _)) as [answer|e] eqn:Hv;
    [|now left].
  destruct (json_dumps (Some 2%nat) answer) as [text|e] eqn:Ht.
  - right. exists answer, text. auto.
  - left. simpl. now rewrite List.app_nil_r.
Qed.

(** X10: whatever the server answers, the lines that the main block prints
    are ASCII: the status line, and the answer as [json.dumps] writes it,
    every other character escaped. *)
Theorem main_prints_ascii (w : World) (st : wstate w) :
  Forall ascii (printed (trace (run w main st))).
Proof.
  pose proof (call_tool_silent w (PyStr (lit "prefab_audit"))) as Hsilent.
  destruct (run_main_trace w st) as [->|[answer [text [_ [Htext ->]]]]];
    cbn [printed flat_map app]; fold (printed).
  - rewrite printed_silent by apply Hsilent.
    constructor; [now apply ascii_lit|constructor].
  - change (flat_map _ ?tr) with (printed tr).
    rewrite printed_app, printed_silent by apply Hsilent.
    constructor; [now apply ascii_lit|].
    constructor; [|constructor].
    exact (iterencode_ascii _ _ _ _ _ Htext).
Qed.

Lemma call_tool_posts_all (w : World) tool_name arguments endpoint st :
  Forall posts (trace (run w (call_tool tool_name arguments endpoint) st)).
Proof.
  rewrite run_call_tool. unfold call_course.
  destruct (request_body tool_name arguments) as [body|e]; [|constructor].
  destruct (on_request w (request_of endpoint body)) as [[]|e]; [|constructor].
  destruct (on_urlopen w (request_of endpoint body) 30 st) as [[h|e] st1];
    [|repeat constructor].
  destruct (on_read w h st1) as [[answer|e] st2]; repeat constructor.
Qed.

Lemma urlopen_calls_app (a b : list event) :
  urlopen_calls (a ++ b) = urlopen_calls a ++ urlopen_calls b.
Proof. apply filter_app. Qed.

Lemma call_tool_at_most (w : World) tool_name arguments endpoint st :
  (List.length
     (urlopen_calls (trace (run w (call_tool tool_name arguments endpoint) st)))
   <= 1)%nat.
Proof.
  rewrite call_tool_urlopen_calls.
  destruct (request_body tool_name arguments) as [body|e]; [|simpl; lia].
  destruct (on_request w (request_of endpoint body)); simpl; lia.
Qed.

(** X11: the module does nothing when it is imported (its name is not
    ["__main__"]): no output, no call of [urlopen].  Run directly it calls
    [urlopen] at most once, with a [POST] for [MCP_ENDPOINT] and the
    timeout of thirty, and only after the status line is printed. *)
Theorem module_body_urlopen_calls (w : World) (st : wstate w)
    (name : pystr) (argv : list pystr) :
  let o := run w (module_body name argv) st in
  (name <> lit "__main__" -> o = mkOutcome (Ok tt) [] st)
  /\ (name = lit "__main__" ->
      exists rest, trace o = EvPrint (lit "Running prefab audit...") :: rest)
  /\ (List.length (urlopen_calls (trace o)) <= 1)%nat
  /\ Forall (goes_to MCP_ENDPOINT) (trace o)
  /\ Forall posts (trace o).
Proof.
  cbv zeta. unfold module_body.
  destruct (pystr_eqb name (lit "__main__")) eqn:E.
  - apply pystr_eqb_eq in E. split; [congruence|].
    pose proof (call_tool_goes_to w (PyStr (lit "prefab_audit"))) as Hgo.
    pose proof (call_tool_posts_all w (PyStr (lit "prefab_audit"))) as Hpost.
    pose proof (call_tool_at_most w (PyStr (lit "prefab_audit"))) as Hone.
    destruct (run_main_trace w st) as [->|[answer [text [_ [_ ->]]]]].
    + split; [eauto|].
      change (urlopen_calls (EvPrint ?l :: ?tr)) with (urlopen_calls tr).
      split; [apply Hone|].
      split; (constructor; [exact I|]); [apply (Hgo _ None)|apply Hpost].
    + split; [eauto|].
      change (urlopen_calls (EvPrint ?l :: ?tr)) with (urlopen_calls tr).
      rewrite urlopen_calls_app. change (urlopen_calls [EvPrint text]) with (@nil event).
      rewrite List.app_nil_r.
      split; [apply Hone|].
      split; (constructor; [exact I|]); apply Forall_app;
        (split; [|now repeat constructor]);
        [apply (Hgo _ None)|apply Hpost].
  - apply pystr_eqb_neq in E. split; [reflexivity|]. split; [congruence|].
    split; [simpl; lia|]. split; constructor.
Qed.

(** X12: whatever its arguments and whatever the world answers, every
    call of [urlopen] by [call_tool], and so by each helper, is given a
    [POST] with the one header [Content-Type: application/json], and
    [timeout=30]. *)
Theorem call_tool_always_posts (w : World) (st : wstate w)
    (tool_name arguments : pyval) (endpoint : option pystr)
    (target scene dry_run : option pyval) :
  Forall posts (trace (run w (call_tool tool_name arguments endpoint) st))
  /\ Forall posts (trace (run w (run_prefab_audit target) st))
  /\ Forall posts (trace (run w (run_scene_refactor scene dry_run) st))
  /\ Forall posts (trace (run w (run_bulk_edit target) st)).
Proof. repeat split; apply call_tool_posts_all. Qed.


Lemma utf8_char_round_trip (c : N) (tail : list N) :
  scalar c = true ->
  exists bs,
    utf8_encode_char c = Some bs
    /\ decode_utf8_N (map Byte.to_N bs ++ tail)
       = match decode_utf8_N tail with
         | Ok t => Ok (c :: t)
         | Raise e => Raise e
         end.
Proof.
  intro Hc. unfold utf8_encode_char.
  pose proof (N.div_mod c 64 ltac:(lia)) as D1.
  pose proof (N.mod_lt c 64 ltac:(lia)) as M1.
  pose proof (N.div_mod (c / 64) 64 ltac:(lia)) as D2.
  pose proof (N.mod_lt (c / 64) 64 ltac:(lia)) as M2.
  pose proof (N.div_mod (c / 64 / 64) 64 ltac:(lia)) as D3.
  pose proof (N.mod_lt (c / 64 / 64) 64 ltac:(lia)) as M3.
  replace (c / 4096) with (c / 64 / 64)
    by (rewrite N.Div0.div_div; reflexivity).
  replace (c / 262144) with (c / 64 / 64 / 64)
    by (rewrite !N.Div0.div_div; reflexivity).
  set (q1 := c / 64) in *. set (m1 := c mod 64) in *.
  set (q2 := q1 / 64) in *. set (m2 := q1 mod 64) in *.
  set (q3 := q2 / 64) in *. set (m3 := q2 mod 64) in *.
  clearbody q1 m1 q2 m2 q3 m3.
  unfold scalar in Hc.
  destruct (c <? 0x80) eqn:E1.
  - eexists. split; [reflexivity|]. cbn [map app].
    rewrite to_N_byte_of_N by (nb_hyps; lia).
    cbn [decode_utf8_N]. now rewrite E1.
  - destruct (c <? 0x800) eqn:E2.
    + eexists. split; [reflexivity|]. cbn [map app].
      rewrite !to_N_byte_of_N by (nb_hyps; lia).
      cbn [decode_utf8_N].
      replace (0xC0 + q1 <? 0x80) with false by (symmetry; nb).
      replace (in_range 0xC2 0xDF (0xC0 + q1)) with true by (symmetry; nb).
      replace (is_cont (0x80 + m1)) with true by (symmetry; nb).
      replace ((0xC0 + q1 - 0xC0) * 64 + (0x80 + m1 - 0x80)) with c
        by (nb_hyps; lia).
      reflexivity.
    + destruct (c <? 0x10000) eqn:E3.
      * replace ((0xD800 <=? c) && (c <=? 0xDFFF)) with false
          by (symmetry; nb).
        eexists. split; [reflexivity|]. cbn [map app].
        rewrite !to_N_byte_of_N by (nb_hyps; lia).
        cbn [decode_utf8_N].
        replace (0xE0 + q2 <? 0x80) with false by (symmetry; nb).
        replace (in_range 0xC2 0xDF (0xE0 + q2)) with false by (symmetry; nb).
        replace (in_range 0xE0 0xEF (0xE0 + q2)) with true by (symmetry; nb).
        replace (in_range (if 0xE0 + q2 =? 0xE0 then 0xA0 else 0x80)
                          (if 0xE0 + q2 =? 0xED then 0x9F else 0xBF)
                          (0x80 + m2) && is_cont (0x80 + m1)) with true.
        { replace ((0xE0 + q2 - 0xE0) * 4096 + (0x80 + m2 - 0x80) * 64
                   + (0x80 + m1 - 0x80)) with c by (nb_hyps; lia).
          reflexivity. }
        symmetry.
        destruct (0xE0 + q2 =? 0xE0) eqn:Ea; destruct (0xE0 + q2 =? 0xED) eqn:Eb;
          nb.
      * eexists.
        replace (c <? 0x110000) with true by (symmetry; nb).
        split; [reflexivity|]. cbn [map app].
        rewrite !to_N_byte_of_N by (nb_hyps; lia).
        cbn [decode_utf8_N].
        replace (0xF0 + q3 <? 0x80) with false by (symmetry; nb).
        replace (in_range 0xC2 0xDF (0xF0 + q3)) with false by (symmetry; nb).
        replace (in_range 0xE0 0xEF (0xF0 + q3)) with false by (symmetry; nb).
        replace (in_range 0xF0 0xF4 (0xF0 + q3)) with true by (symmetry; nb).
        replace (in_range (if 0xF0 + q3 =? 0xF0 then 0x90 else 0x80)
                          (if 0xF0 + q3 =? 0xF4 then 0x8F else 0xBF)
                          (0x80 + m3) && is_cont (0x80 + m2)
                 && is_cont (0x80 + m1)) with true.
        { replace ((0xF0 + q3 - 0xF0) * 262144 + (0x80 + m3 - 0x80) * 4096
                   + (0x80 + m2 - 0x80) * 64 + (0x80 + m1 - 0x80)) with c
            by (nb_hyps; lia).
          reflexivity. }
        symmetry.
        destruct (0xF0 + q3 =? 0xF0) eqn:Ea; destruct (0xF0 + q3 =? 0xF4) eqn:Eb;
          nb.
Qed.

(** What [encode("utf-8")] writes, [decode("utf-8")] reads back, whatever
    follows. *)
Lemma decode_encode_utf8 (s : pystr) (raw : pybytes) (tail : list N) :
  text_ok s = true ->
  encode_utf8 s = Ok raw ->
  decode_utf8_N (map Byte.to_N raw ++ tail)
  = match decode_utf8_N tail with
    | Ok t => Ok (s ++ t)
    | Raise e => Raise e
    end.
Proof.
  revert raw. induction s as [|c s IH]; intros raw Hs Henc.
  - injection Henc as <-. simpl. now destruct (decode_utf8_N tail).
  - apply scalar_cons in Hs as [Hc Hs]. cbn [encode_utf8] in Henc.
    destruct (utf8_char_round_trip c (map Byte.to_N
                (match encode_utf8 s with Ok out => out | Raise _ => [] end)
                ++ tail) Hc) as [bs [Hbs Hdec]].
    rewrite Hbs in Henc.
    destruct (encode_utf8 s) as [out|e]; [|discriminate].
    injection Henc as <-.
    rewrite map_app, <- List.app_assoc, Hdec, (IH out Hs eq_refl).
    now destruct (decode_utf8_N tail).
Qed.

Lemma scanstring_plain_text (s : pystr) :
  forall (tail : pystr) (fuel : nat),
    forallb plain s = true ->
    (List.length s < fuel)%nat ->
    scanstring fuel (s ++ 34 :: tail) = Parsed s tail.
Proof.
  induction s as [|c s IH]; intros tail fuel Hs Hf;
    (destruct fuel as [|n]; [inversion Hf|]); [reflexivity|].
  cbn [forallb] in Hs. apply andb_true_iff in Hs as [Hc Hs].
  unfold plain in Hc. cbn [app].
  rewrite scanstring_plain by (nb_hyps; lia).
  rewrite IH; [reflexivity|assumption|]. simpl in Hf. lia.
Qed.

Lemma plain_text_ok (s : pystr) : forallb plain s = true -> text_ok s = true.
Proof.
  unfold text_ok. intro H. rewrite forallb_forall in *. intros c Hc.
  specialize (H c Hc). unfold plain in H.
  now apply andb_true_iff in H as [H _]; apply andb_true_iff in H as [H _];
    apply andb_true_iff in H as [H _].
Qed.

(** X14: a response that is a JSON string written without escapes, in
    UTF-8, comes back as the same characters: [decode("utf-8")] and
    [json.loads] undo [encode("utf-8")] on every character, ASCII or
    not. *)
Theorem call_tool_reads_utf8 (w : World) (st : wstate w)
    (tool_name arguments : pyval) (endpoint : option pystr)
    (body : pybytes) (h : response) (st1 st2 : wstate w)
    (s : pystr) (raw : pybytes) :
  request_body tool_name arguments = Ok body ->
  on_request w (request_of endpoint body) = Ok tt ->
  on_urlopen w (request_of endpoint body) 30 st = (Ok h, st1) ->
  on_read w h st1 = (Ok (x22 :: raw ++ [x22]), st2) ->
  forallb plain s = true ->
  encode_utf8 s = Ok raw ->
  value (run w (call_tool tool_name arguments endpoint) st) = Ok (PyStr s).
Proof.
  intros Hb Hr Hu Hd Hs Henc. rewrite run_call_tool. unfold call_course.
  rewrite Hb, Hr, Hu, Hd. cbn [value]. unfold parse_body, decode_utf8.
  cbn [map]. rewrite map_app. cbn [map]. cbn [decode_utf8_N].
  change (Byte.to_N x22 <? 0x80) with true. cbv iota.
  rewrite (decode_encode_utf8 s raw [Byte.to_N x22] (plain_text_ok s Hs) Henc).
  change (decode_utf8_N [Byte.to_N x22]) with (@Ok pystr [34]).
  change (Byte.to_N x22) with 34. cbn [rbind].
  unfold json_loads. rewrite strip_prefix_head by discriminate.
  rewrite skip_ws_head by reflexivity. rewrite scan_once_step.
  cbn [N.eqb Pos.eqb].
  rewrite scanstring_plain_text; [reflexivity|assumption|].
  rewrite List.length_app. lia.
Qed.

End Properties.

(** * The claims at concrete inputs *)

#[local] Existing Instance literal_floats.
#[local] Existing Instance script_stack.



(** The same call against a server that answers [{"ok": true}]. *)
Lemma call_tool_returns_parsed_body_witness :
  value (run (canned ok_body)
             (call_tool example_tool example_arguments None) [])
  = parse_body ok_body.
Proof.
  exact (proj1 (call_tool_returns_parsed_body (K := script_stack))
               (canned ok_body) [] example_tool example_arguments None
               (map byte_of_N example_text) 0%nat [ok_body] ok_body [ok_body]
               eq_refl eq_refl eq_refl eq_refl).
Defined.

(** The same call when nothing listens: the [URLError] of [urlopen]. *)
Lemma call_tool_failures_propagate_witness :
  value (run unreachable
             (call_tool example_tool example_arguments None) [])
  = Raise (Raised "URLError").
Proof.
  destruct (call_tool_failures_propagate (K := script_stack) unreachable []
              example_tool example_arguments None) as [_ [_ [Hbody _]]].
  destruct (Hbody (map byte_of_N example_text) eq_refl) as [_ Haccepted].
  destruct (Haccepted eq_refl) as [Hurlopen _].
  exact (Hurlopen (Raised "URLError") [] eq_refl).
Defined.

(** [run_prefab_audit("Foo")] against the echoing endpoint. *)
Lemma run_prefab_audit_delegates_witness :
  exists body,
    parse_body body
    = Ok (payload (PyStr (lit "prefab_audit"))
            (PyDict [(PyStr (lit "command"), PyStr (lit "prefab_audit"));
                     (PyStr (lit "target"), PyStr (lit "Foo"));
                     (PyStr (lit "checks"),
                      PyList [PyStr (lit "naming"); PyStr (lit "collision");
                              PyStr (lit "performance")])]))
    /\ urlopen_calls (trace (run echo_server
                                 (run_prefab_audit (Some (PyStr (lit "Foo"))))
                                 []))
       = [EvUrlopen (request_of None body) 30].
Proof.
  destruct (proj2 (proj2 (run_prefab_audit_delegates (K := script_stack)))
              (lit "Foo") echo_server [] eq_refl) as [body [_ [Hback Hsent]]].
  exists body. split; [exact Hback|exact (Hsent eq_refl)].
Defined.

(** [run_scene_refactor("Bar", dry_run=False)] against the echoing
    endpoint. *)
Lemma run_scene_refactor_delegates_witness :
  exists body,
    parse_body body
    = Ok (payload (PyStr (lit "scene_refactor"))
            (PyDict [(PyStr (lit "command"), PyStr (lit "scene_refactor"));
                     (PyStr (lit "scene"), PyStr (lit "Bar"));
                     (PyStr (lit "steps"),
                      PyList [PyStr (lit "remove_empty_groups");
                              PyStr (lit "rebuild_navigation")]);
                     (PyStr (lit "dry_run"), PyBool false)]))
    /\ urlopen_calls (trace (run echo_server
                                 (run_scene_refactor (Some (PyStr (lit "Bar")))
                                                     (Some (PyBool false))) []))
       = [EvUrlopen (request_of None body) 30].
Proof.
  destruct (proj2 (proj2 (proj2
              (run_scene_refactor_delegates (K := script_stack))))
              (lit "Bar") false echo_server [] eq_refl)
    as [body [_ [Hback Hsent]]].
  exists body. split; [exact Hback|exact (Hsent eq_refl)].
Defined.

(** [run_bulk_edit("Foo")] against the echoing endpoint. *)
Lemma run_bulk_edit_delegates_witness :
  exists body,
    parse_body body
    = Ok (payload (PyStr (lit "bulk_edit_assets"))
            (PyDict [(PyStr (lit "command"), PyStr (lit "bulk_edit_assets"));
                     (PyStr (lit "target"), PyStr (lit "Foo"));
                     (PyStr (lit "modifications"),
                      PyDict [(PyStr (lit "damage"), PyInt 42);
                              (PyStr (lit "range"), PyInt 120)]);
                     (PyStr (lit "dry_run"), PyBool true)]))
    /\ urlopen_calls (trace (run echo_server
                                 (run_bulk_edit (Some (PyStr (lit "Foo")))) []))
       = [EvUrlopen (request_of None body) 30].
Proof.
  destruct (proj2 (proj2 (run_bulk_edit_delegates (K := script_stack)))
              (lit "Foo") echo_server [] eq_refl) as [body [_ [Hback Hsent]]].
  exists body. split; [exact Hback|exact (Hsent eq_refl)].
Defined.

(** C8, as stated, fails on [call_tool("x", {"a": {1, 2}})]: [json.dumps]
    raises before [urlopen] is reached; it is not called, and no request
    goes out. *)
Lemma call_tool_sends_nothing_counterexample :
  value (run echo_server
             (call_tool example_tool set_arguments None) [])
  = Raise (TypeError "Object of type set is not JSON serializable")
  /\ List.length
       (urlopen_calls (trace (run echo_server
                                  (call_tool example_tool set_arguments None)
                                  [])))
     <> 1%nat.
Proof. split; [reflexivity|discriminate]. Qed.

(** The example call: one call of [urlopen], the read and the exit; the
    refused one: nothing. *)
Lemma call_tool_calls_urlopen_once_witness :
  trace (run echo_server
             (call_tool example_tool example_arguments None) [])
  = [EvUrlopen (request_of None (map byte_of_N example_text)) 30;
     EvRead 0%nat; EvExit 0%nat]
  /\ run echo_server (call_tool example_tool set_arguments None) []
     = mkOutcome
         (Raise (TypeError "Object of type set is not JSON serializable"))
         [] [].
Proof.
  split.
  - destruct (call_tool_calls_urlopen_once (K := script_stack) echo_server []
                example_tool example_arguments None) as [_ [_ [Hbody _]]].
    destruct (Hbody (map byte_of_N example_text) eq_refl) as [_ Haccepted].
    destruct (Haccepted eq_refl) as [_ [_ Hopened]].
    exact (proj1 (Hopened 0%nat _ eq_refl)).
  - destruct (call_tool_calls_urlopen_once (K := script_stack) echo_server []
                example_tool set_arguments None) as [_ [Hraise _]].
    exact (Hraise (TypeError "Object of type set is not JSON serializable")
                  eq_refl).
Defined.

(** * The further properties at concrete inputs *)

(** A response that is not UTF-8: it is closed all the same. *)
Lemma call_tool_closes_response_witness :
  trace (run (canned [xff])
             (call_tool example_tool example_arguments None) [])
  = [EvUrlopen (request_of None (map byte_of_N example_text)) 30;
     EvRead 0%nat; EvExit 0%nat].
Proof.
  exact (proj1 (call_tool_closes_response (K := script_stack) (canned [xff]) []
                  example_tool example_arguments None
                  (map byte_of_N example_text) 0%nat [[xff]]
                  eq_refl eq_refl eq_refl)).
Defined.

(** Nothing listens: the exception is the one [urlopen] raised. *)
Lemma call_tool_raises_witness :
  exists r st0 st1,
    on_urlopen unreachable r 30 st0 = (Raise (Raised "URLError"), st1).
Proof.
  destruct (call_tool_raises (K := script_stack) unreachable []
              example_tool example_arguments None
              (Raised "URLError") eq_refl)
    as [[msg H]|[H|[H|[H|[H|[[r H]|[H|[h [st0 [st1 H]]]]]]]]]];
    try discriminate.
  - exact H.
  - simpl in H. destruct (nth_error st0 h); discriminate.
Defined.

(** A call whose name and arguments hold a quote, a backslash, a line
    feed, a letter outside ASCII and a character above U+FFFF. *)
Lemma call_tool_echo_round_trip_witness :
  exists v echo,
    value (run echo_server
               (call_tool (PyStr [34; 92; 10; 0x3C0; 0x1F600])
                          (PyDict [(PyStr [0xE9], PyList [PyInt (-7); PyNone]);
                                   (PyStr [], PyStr [0x1F600; 34])])
                          None) []) = Ok v
    /\ dict_get v (lit "ok") = Some (PyBool true)
    /\ dict_get v (lit "echo") = Some echo
    /\ dict_get echo (lit "name") = Some (PyStr [34; 92; 10; 0x3C0; 0x1F600])
    /\ dict_get echo (lit "arguments")
       = Some (PyDict [(PyStr [0xE9], PyList [PyInt (-7); PyNone]);
                       (PyStr [], PyStr [0x1F600; 34])]).
Proof.
  destruct (request_body (PyStr [34; 92; 10; 0x3C0; 0x1F600])
              (PyDict [(PyStr [0xE9], PyList [PyInt (-7); PyNone]);
                       (PyStr [], PyStr [0x1F600; 34])])) as [body|e] eqn:Hb;
    [|discriminate].
  exact (call_tool_echo_round_trip (K := script_stack) []
           (PyStr [34; 92; 10; 0x3C0; 0x1F600])
           (PyDict [(PyStr [0xE9], PyList [PyInt (-7); PyNone]);
                    (PyStr [], PyStr [0x1F600; 34])])
           None body eq_refl eq_refl Hb).
Defined.

(** A server that answers the mark and then [{"ok": true}]. *)
Lemma call_tool_refuses_bom_witness :
  value (run (canned (bom ++ ok_body))
             (call_tool example_tool example_arguments None) [])
  = Raise JSONDecodeError.
Proof.
  exact (call_tool_refuses_bom (K := script_stack) (canned (bom ++ ok_body)) []
           example_tool example_arguments None
           (map byte_of_N example_text) 0%nat [bom ++ ok_body] ok_body
           [bom ++ ok_body] eq_refl eq_refl eq_refl eq_refl).
Defined.

(** A server that answers a space and a line feed. *)
Lemma call_tool_blank_body_witness :
  value (run (canned [x20; x0a])
             (call_tool example_tool example_arguments None) [])
  = Raise JSONDecodeError.
Proof.
  apply (call_tool_blank_body (K := script_stack) (canned [x20; x0a]) []
           example_tool example_arguments None
           (map byte_of_N example_text) 0%nat [[x20; x0a]] [x20; x0a]
           [[x20; x0a]] eq_refl eq_refl eq_refl eq_refl).
  repeat constructor.
Defined.

(** A server that answers [{"ok": true}] and then the byte [FF]. *)
Lemma call_tool_not_utf8_witness :
  value (run (canned (ok_body ++ [xff]))
             (call_tool example_tool example_arguments None) [])
  = Raise UnicodeDecodeError.
Proof.
  exact (call_tool_not_utf8 (K := script_stack) (canned (ok_body ++ [xff])) []
           example_tool example_arguments None
           (map byte_of_N example_text) 0%nat [ok_body ++ [xff]]
           (ok_body ++ [xff]) [ok_body ++ [xff]]
           eq_refl eq_refl eq_refl eq_refl eq_refl).
Defined.

(** The helpers with lone surrogates for strings, and with nothing. *)
Lemma helpers_reach_network_witness :
  List.length
    (urlopen_calls
       (trace (run echo_server
                   (run_scene_refactor (Some (PyStr [0xD83D; 0xDE00]))
                                       (Some (PyBool false))) [])))
  = 1%nat
  /\ List.length
       (urlopen_calls (trace (run echo_server (run_bulk_edit None) [])))
     = 1%nat.
Proof.
  split.
  - exact (proj1 (proj2 (helpers_reach_network (K := script_stack)
                           echo_server [] None
                           (Some [0xD83D; 0xDE00]) (Some false)
                           (fun _ => eq_refl)))).
  - exact (proj2 (proj2 (helpers_reach_network (K := script_stack)
                           echo_server [] None None None
                           (fun _ => eq_refl)))).
Defined.

(** [run_prefab_audit({1, 2})]: a set for a target. *)
Lemma helpers_refuse_unserializable_witness :
  exists e,
    ((exists msg, e = TypeError msg) \/ limit_error e)
    /\ run echo_server (run_prefab_audit (Some (PyObject "set"))) []
       = mkOutcome (Raise e) [] [].
Proof.
  exact (proj1 (proj1 (helpers_refuse_unserializable (K := script_stack)
                         echo_server []
                         (PyObject "set") PyNone PyNone) eq_refl)).
Defined.


(** A server that answers a Greek letter, the euro sign and a character
    above U+FFFF between quotes, unescaped. *)
Lemma call_tool_reads_utf8_witness :
  value (run (canned raw_body)
             (call_tool example_tool example_arguments None) [])
  = Ok (PyStr raw_string).
Proof.
  exact (call_tool_reads_utf8 (K := script_stack) (canned raw_body) []
           example_tool example_arguments None
           (map byte_of_N example_text) 0%nat [raw_body] [raw_body]
           raw_string [xcf; x80; xe2; x82; xac; xf0; x9f; x98; x80]
           eq_refl eq_refl eq_refl eq_refl eq_refl eq_refl).
Defined.
